(** * Apertus chat client: a shallow embedding and its verified properties

    The development follows the Python package [apertus]:
    - [errors.py]  : the exception [ApertusAPIError];
    - [types.py]   : the pydantic models of requests, responses and chunks;
    - [http.py]    : the transports [_BaseHTTP], [SyncHTTP] and [AsyncHTTP];
    - [client.py]  : the sub-clients [_ChatCompletions] and
                     [_AsyncChatCompletions] and the facades [Apertus] and
                     [AsyncApertus].

    Python values are embedded as the inductive type [pyval]; a Python [str]
    is the list of its Unicode code points; exceptions are values of the type
    [exn] carried by the error monad [result]; a generator is the list of the
    values it yields together with the way it ends. *)

From Stdlib Require Import ZArith List Bool String Ascii Lia DecimalString.
From Stdlib Require Import Strings.Byte.
Import ListNotations.

Set Warnings "-register-all".
Local Open Scope Z_scope.

(* ================================================================= *)
(** ** Python text *)

(** A Python [str]: the sequence of its code points. *)
Definition text := list Z.

(** The code point of an ASCII character, and the text of an ASCII literal. *)
Definition ch (a : ascii) : Z := Z.of_N (N_of_ascii a).

Definition lit (s : string) : text := map ch (list_ascii_of_string s).

(** A literal in which the apostrophe stands for the quotation mark, for
    JSON texts. *)
Definition qlit (s : string) : text :=
  map (fun c => if c =? 39 then 34 else c) (lit s).

Fixpoint text_eqb (a b : text) : bool :=
  match a, b with
  | [], [] => true
  | x :: a', y :: b' => (x =? y) && text_eqb a' b'
  | _, _ => false
  end.

(** [str.startswith]. *)
Fixpoint startswith (prefix s : text) : bool :=
  match prefix, s with
  | [], _ => true
  | p :: prefix', c :: s' => (p =? c) && startswith prefix' s'
  | _ :: _, [] => false
  end.

(** [str.isspace] on one code point: the ASCII table of CPython
    (U+0009..U+000D, U+001C..U+001F and the blank) and the Unicode white
    space beyond it. *)
Definition isspace (c : Z) : bool :=
  ((9 <=? c) && (c <=? 13)) || ((28 <=? c) && (c <=? 32))
  || (c =? 133) || (c =? 160) || (c =? 5760)
  || ((8192 <=? c) && (c <=? 8202))
  || (c =? 8232) || (c =? 8233) || (c =? 8239) || (c =? 8287) || (c =? 12288).

Fixpoint lstrip (s : text) : text :=
  match s with
  | c :: s' => if isspace c then lstrip s' else s
  | [] => []
  end.

Definition rstrip (s : text) : text := rev (lstrip (rev s)).

(** [str.strip()] without argument. *)
Definition strip (s : text) : text := rstrip (lstrip s).

(** [str.rstrip(chars)] for a single character. *)
Fixpoint lstrip_char (c : Z) (s : text) : text :=
  match s with
  | x :: s' => if x =? c then lstrip_char c s' else s
  | [] => []
  end.

Definition rstrip_char (c : Z) (s : text) : text := rev (lstrip_char c (rev s)).

(** [bool(s)] for a string: non-empty. *)
Definition nonempty (s : text) : bool :=
  match s with [] => false | _ :: _ => true end.

(* ================================================================= *)
(** ** Python values, exceptions and results *)

(** A Python [float].  No code of the package computes with floats; they are
    only carried from the caller to the payload or from a JSON body to a
    model, so a float is kept as the decimal it was written as
    ([m * 10 ^ e]) or as one of the three special values; what depends on
    the double that the decimal becomes is said where it is used. *)
Inductive pyfloat :=
| FDec (m e : Z)
| FNaN
| FInf (negative : bool).

(** The Python values that occur: what [json.loads] returns and what a
    request payload holds.  A [dict] keeps its keys in insertion order and
    holds each key once. *)
Inductive pyval :=
| PNone
| PBool (b : bool)
| PInt (z : Z)
| PFloat (f : pyfloat)
| PStr (s : text)
| PList (l : list pyval)
| PDict (d : list (text * pyval)).

Definition dict := list (text * pyval).

(** [d.get(k)], with [None] for a missing key as an [option]. *)
Fixpoint dict_get (k : text) (d : dict) : option pyval :=
  match d with
  | [] => None
  | (k', v) :: d' => if text_eqb k k' then Some v else dict_get k d'
  end.

(** [d[k] = v]: an existing key keeps its place. *)
Fixpoint dict_set (k : text) (v : pyval) (d : dict) : dict :=
  match d with
  | [] => [(k, v)]
  | (k', v') :: d' =>
      if text_eqb k k' then (k', v) :: d' else (k', v') :: dict_set k v d'
  end.

(** [{**a, **b}]. *)
Definition dict_merge (a b : dict) : dict :=
  fold_left (fun acc kv => dict_set (fst kv) (snd kv) acc) b a.

(** Does the decimal [m * 10 ^ e] become the double zero?  The conversion
    is correctly rounded, to even on a tie: what is at most half of the
    least positive double, [2 ^ -1074], becomes zero. *)
Definition rounds_to_zero (m e : Z) : bool :=
  (m =? 0) || ((e <? 0) && (Z.abs m * 2 ^ 1075 <=? 10 ^ (- e))).

(** Truth value of a Python object, as [or], [and], [not] and [if] use it. *)
Definition float_truthy (f : pyfloat) : bool :=
  match f with
  | FDec m e => negb (rounds_to_zero m e)
  | FNaN | FInf _ => true
  end.

Definition truthy (v : pyval) : bool :=
  match v with
  | PNone => false
  | PBool b => b
  | PInt z => negb (z =? 0)
  | PFloat f => float_truthy f
  | PStr s => nonempty s
  | PList l => match l with [] => false | _ => true end
  | PDict d => match d with [] => false | _ => true end
  end.

(** [a or b]. *)
Definition py_or (a b : pyval) : pyval := if truthy a then a else b.

(** The exceptions that the package raises or lets through. *)
Inductive exn :=
| ValueError (msg : text)
| ApertusAPIError (status_code : Z) (message : pyval)
                  (url : option text) (payload : option pyval)
| JSONDecodeError
| ValidationError
| UnicodeDecodeError
| UnicodeEncodeError
| AttributeError
| RecursionError
| TransportError (detail : text).

Inductive result (A : Type) :=
| Ok (a : A)
| Raise (e : exn).
Arguments Ok {A} a.
Arguments Raise {A} e.

Definition bind {A B} (r : result A) (k : A -> result B) : result B :=
  match r with
  | Ok a => k a
  | Raise e => Raise e
  end.

Notation "x <- r ;; k" := (bind r (fun x => k))
  (at level 61, r at next level, right associativity).

Fixpoint mapM {A B} (f : A -> result B) (l : list A) : result (list B) :=
  match l with
  | [] => Ok []
  | a :: l' => b <- f a ;; bs <- mapM f l' ;; Ok (b :: bs)
  end.


(** What the interpreter and the validation library decide, and the code
    of the package does not:
    - how many nested arrays and objects the JSON scanner may still enter
      where the decoder calls it, before the interpreter raises
      [RecursionError];
    - [sys.get_int_max_str_digits()], the longest integer literal that
      [int] converts (0: no limit; 4300 unless it is set);
    - the integer that pydantic, in its lax mode, makes of a string and of
      a float for a field of type [int], if any.
    Every statement holds whatever they are. *)
Class Runtime := {
  recursion_budget : nat;
  int_max_str_digits : nat;
  str_as_int : text -> option Z;
  float_as_int : pyfloat -> option Z
}.

(** Decimal digits of a number, for messages. *)
Definition decimal (n : nat) : text :=
  lit (NilEmpty.string_of_uint (Nat.to_uint n)).

(* ================================================================= *)
(** ** [bytes.decode("utf-8")] *)

Definition byte_val (b : byte) : Z := Z.of_N (Byte.to_N b).

Definition is_cont (b : Z) : bool := (128 <=? b) && (b <=? 191).

(** Strict UTF-8: shortest form only, no surrogates, nothing above
    U+10FFFF.  [None] stands for [UnicodeDecodeError]. *)
Fixpoint utf8_decode (bs : list Z) : option text :=
  match bs with
  | [] => Some []
  | b0 :: r0 =>
      if b0 <? 128 then option_map (cons b0) (utf8_decode r0)
      else if (194 <=? b0) && (b0 <=? 223) then
        match r0 with
        | b1 :: r1 =>
            if is_cont b1
            then option_map (cons ((b0 - 192) * 64 + (b1 - 128))) (utf8_decode r1)
            else None
        | _ => None
        end
      else if (224 <=? b0) && (b0 <=? 239) then
        match r0 with
        | b1 :: b2 :: r2 =>
            let lo := if b0 =? 224 then 160 else 128 in
            let hi := if b0 =? 237 then 159 else 191 in
            if (lo <=? b1) && (b1 <=? hi) && is_cont b2
            then option_map
                   (cons ((b0 - 224) * 4096 + (b1 - 128) * 64 + (b2 - 128)))
                   (utf8_decode r2)
            else None
        | _ => None
        end
      else if (240 <=? b0) && (b0 <=? 244) then
        match r0 with
        | b1 :: b2 :: b3 :: r3 =>
            let lo := if b0 =? 240 then 144 else 128 in
            let hi := if b0 =? 244 then 143 else 191 in
            if (lo <=? b1) && (b1 <=? hi) && is_cont b2 && is_cont b3
            then option_map
                   (cons ((b0 - 240) * 262144 + (b1 - 128) * 4096
                          + (b2 - 128) * 64 + (b3 - 128)))
                   (utf8_decode r3)
            else None
        | _ => None
        end
      else None
  end.

Definition bytes_decode (bs : list byte) : result text :=
  match utf8_decode (map byte_val bs) with
  | Some t => Ok t
  | None => Raise UnicodeDecodeError
  end.

(* ================================================================= *)
(** ** [json.loads]

    The decoder of the standard library in its default configuration
    (strict strings, [NaN], [Infinity] and [-Infinity] accepted), written
    after its scanner.  The limits of the interpreter are those of the
    [Runtime]: the nesting that the scanner may enter, and the digits of
    an integer literal. *)

Module json.

Definition is_ws (c : Z) : bool :=
  (c =? 32) || (c =? 9) || (c =? 10) || (c =? 13).

Fixpoint skip_ws (s : text) : text :=
  match s with
  | c :: s' => if is_ws c then skip_ws s' else s
  | [] => []
  end.

Definition is_digit (c : Z) : bool := (48 <=? c) && (c <=? 57).

Fixpoint take_digits (s : text) : text * text :=
  match s with
  | c :: s' =>
      if is_digit c
      then let (ds, r) := take_digits s' in (c :: ds, r)
      else ([], s)
  | [] => ([], [])
  end.

Definition digits_value (ds : text) : Z :=
  fold_left (fun acc d => acc * 10 + (d - 48)) ds 0.

Definition hex_digit (c : Z) : option Z :=
  if is_digit c then Some (c - 48)
  else if (97 <=? c) && (c <=? 102) then Some (c - 87)
  else if (65 <=? c) && (c <=? 70) then Some (c - 55)
  else None.

Definition hex4 (a b c d : Z) : option Z :=
  match hex_digit a, hex_digit b, hex_digit c, hex_digit d with
  | Some x, Some y, Some z, Some w => Some (((x * 16 + y) * 16 + z) * 16 + w)
  | _, _, _, _ => None
  end.

(** The one-letter escapes after a backslash. *)
Definition simple_escape (c : Z) : option Z :=
  if c =? 34 then Some 34          (* quotation mark *)
  else if c =? 92 then Some 92     (* backslash *)
  else if c =? 47 then Some 47     (* slash *)
  else if c =? 98 then Some 8      (* b: backspace *)
  else if c =? 102 then Some 12    (* f: form feed *)
  else if c =? 110 then Some 10    (* n: line feed *)
  else if c =? 114 then Some 13    (* r: carriage return *)
  else if c =? 116 then Some 9     (* t: tab *)
  else None.

Definition is_high_surrogate (u : Z) : bool := (55296 <=? u) && (u <=? 56319).
Definition is_low_surrogate (u : Z) : bool := (56320 <=? u) && (u <=? 57343).
Definition join_surrogates (hi lo : Z) : Z :=
  65536 + (hi - 55296) * 1024 + (lo - 56320).

Definition push (c : Z) (r : option (text * text)) : option (text * text) :=
  match r with
  | Some (str, rest) => Some (c :: str, rest)
  | None => None
  end.

(** The body of a string, from after the opening quote: the decoded string
    and what follows the closing quote. *)
Fixpoint scanstring (s : text) : option (text * text) :=
  match s with
  | [] => None
  | c :: s1 =>
      if c =? 34 then Some ([], s1)
      else if c =? 92 then
        match s1 with
        | [] => None
        | e :: s2 =>
            if e =? 117 then
              match s2 with
              | h1 :: h2 :: h3 :: h4 :: s3 =>
                  match hex4 h1 h2 h3 h4 with
                  | None => None
                  | Some u =>
                      if is_high_surrogate u then
                        match s3 with
                        | b :: u' :: g1 :: g2 :: g3 :: g4 :: s4 =>
                            if (b =? 92) && (u' =? 117) then
                              match hex4 g1 g2 g3 g4 with
                              | None => None
                              | Some u2 =>
                                  if is_low_surrogate u2
                                  then push (join_surrogates u u2) (scanstring s4)
                                  else push u (scanstring s3)
                              end
                            else push u (scanstring s3)
                        | _ => push u (scanstring s3)
                        end
                      else push u (scanstring s3)
                  end
              | _ => None
              end
            else
              match simple_escape e with
              | Some x => push x (scanstring s2)
              | None => None
              end
        end
      else if c <=? 31 then None
      else push c (scanstring s1)
  end.

(** A number, from its first character: an optional minus sign, then a
    zero or a run of digits that starts with a non-zero one, then a
    fraction (a dot and digits) and an exponent (e or E, an optional sign
    and digits) when they are complete.  An integer when neither is there,
    a float otherwise. *)
Definition number_sign (s : text) : bool * text :=
  match s with
  | c :: s' => if c =? 45 then (true, s') else (false, s)
  | [] => (false, s)
  end.

Definition number_int (s : text) : option (text * text) :=
  match s with
  | c :: s1 =>
      if c =? 48 then Some ([c], s1)
      else if is_digit c then Some (take_digits s)
      else None
  | [] => None
  end.

Definition number_frac (s : text) : text * text :=
  match s with
  | c :: d :: _ =>
      if (c =? 46) && is_digit d then take_digits (tl s) else ([], s)
  | _ => ([], s)
  end.

Definition number_exp (s : text) : option Z * text :=
  match s with
  | c :: s' =>
      if (c =? 101) || (c =? 69) then
        let (eneg, s'') :=
          match s' with
          | g :: r => if g =? 45 then (true, r)
                      else if g =? 43 then (false, r) else (false, s')
          | [] => (false, s')
          end in
        match take_digits s'' with
        | ([], _) => (None, s)
        | (eds, r) =>
            (Some (if eneg then - digits_value eds else digits_value eds), r)
        end
      else (None, s)
  | [] => (None, s)
  end.

(** [int(s)] for a literal of [n] digits: the conversion refuses more
    digits than the limit, when there is one and the literal has more than
    640. *)
Definition too_many_digits {rt : Runtime} (n : nat) : bool :=
  (640 <? n)%nat && (0 <? int_max_str_digits)%nat
  && (int_max_str_digits <? n)%nat.

Definition int_limit_error {rt : Runtime} (n : nat) : exn :=
  ValueError (lit "Exceeds the limit (" ++ decimal int_max_str_digits
              ++ lit " digits) for integer string conversion: value has "
              ++ decimal n
              ++ lit " digits; use sys.set_int_max_str_digits() to increase the limit").

Definition match_number {rt : Runtime} (s : text) : option (result pyval * text) :=
  let (neg, s0) := number_sign s in
  match number_int s0 with
  | None => None
  | Some (ids, s1) =>
      let (fds, s2) := number_frac s1 in
      let (ex, s3) := number_exp s2 in
      let sign := if neg then -1 else 1 in
      match fds, ex with
      | [], None =>
          if too_many_digits (List.length ids)
          then Some (Raise (int_limit_error (List.length ids)), s3)
          else Some (Ok (PInt (sign * digits_value ids)), s3)
      | _, _ =>
          let e := match ex with Some e => e | None => 0 end in
          Some (Ok (PFloat (FDec (sign * digits_value (ids ++ fds))
                                 (e - Z.of_nat (List.length fds)))), s3)
      end
  end.

Inductive scanned :=
| Value (v : pyval) (rest : text)
| Invalid
| Failed (e : exn)
| OutOfFuel.
Definition drop (n : nat) (s : text) : text := skipn n s.

(** [scan_once], with the object and array readers it calls.  [depth] is
    the number of nested arrays and objects that may still be entered:
    the scanner enters one at its opening bracket, before it reads what is
    inside, and raises [RecursionError] when it may not. *)
Fixpoint scan_once {rt : Runtime} (fuel depth : nat) (s : text) : scanned :=
  match fuel with
  | O => OutOfFuel
  | S fuel' =>
      match s with
      | [] => Invalid
      | c :: s1 =>
          if c =? 34 then
            match scanstring s1 with
            | Some (str, r) => Value (PStr str) r
            | None => Invalid
            end
          else if c =? 123 then
            match depth with
            | O => Failed RecursionError
            | S depth' =>
                match skip_ws s1 with
                | c2 :: s2 =>
                    if c2 =? 125 then Value (PDict []) s2
                    else parse_object fuel' depth' (c2 :: s2) []
                | [] => Invalid
                end
            end
          else if c =? 91 then
            match depth with
            | O => Failed RecursionError
            | S depth' =>
                match skip_ws s1 with
                | c2 :: s2 =>
                    if c2 =? 93 then Value (PList []) s2
                    else parse_array fuel' depth' (c2 :: s2) []
                | [] => Invalid
                end
            end
          else if startswith (lit "null") s then Value PNone (drop 4 s)
          else if startswith (lit "true") s then Value (PBool true) (drop 4 s)
          else if startswith (lit "false") s then Value (PBool false) (drop 5 s)
          else if startswith (lit "NaN") s then Value (PFloat FNaN) (drop 3 s)
          else if startswith (lit "Infinity") s
               then Value (PFloat (FInf false)) (drop 8 s)
          else if startswith (lit "-Infinity") s
               then Value (PFloat (FInf true)) (drop 9 s)
          else
            match match_number s with
            | Some (Ok v, r) => Value v r
            | Some (Raise e, _) => Failed e
            | None => Invalid
            end
      end
  end
(** The members of an object, from the quote that opens a key. *)
with parse_object {rt : Runtime} (fuel depth : nat) (s : text) (acc : dict)
  : scanned :=
  match fuel with
  | O => OutOfFuel
  | S fuel' =>
      match s with
      | c :: s1 =>
          if c =? 34 then
            match scanstring s1 with
            | None => Invalid
            | Some (key, r) =>
                match skip_ws r with
                | colon :: r1 =>
                    if colon =? 58 then
                      match scan_once fuel' depth (skip_ws r1) with
                      | Value v r2 =>
                          let acc' := dict_set key v acc in
                          match skip_ws r2 with
                          | d :: r3 =>
                              if d =? 125 then Value (PDict acc') r3
                              else if d =? 44
                              then parse_object fuel' depth (skip_ws r3) acc'
                              else Invalid
                          | [] => Invalid
                          end
                      | Invalid => Invalid
                      | Failed e => Failed e
                      | OutOfFuel => OutOfFuel
                      end
                    else Invalid
                | [] => Invalid
                end
            end
          else Invalid
      | [] => Invalid
      end
  end

(** The elements of an array, from the first character of an element. *)
with parse_array {rt : Runtime} (fuel depth : nat) (s : text) (acc : list pyval)
  : scanned :=
  match fuel with
  | O => OutOfFuel
  | S fuel' =>
      match scan_once fuel' depth s with
      | Value v r =>
          match skip_ws r with
          | d :: r1 =>
              if d =? 93 then Value (PList (acc ++ [v])) r1
              else if d =? 44
              then parse_array fuel' depth (skip_ws r1) (acc ++ [v])
              else Invalid
          | [] => Invalid
          end
      | Invalid => Invalid
      | Failed e => Failed e
      | OutOfFuel => OutOfFuel
      end
  end.

(** [json.loads(s)] for a [str]: no byte-order mark, one value between
    optional white space, nothing after it.  It raises [JSONDecodeError]
    for what is not JSON, and lets through the [RecursionError] of a
    nesting deeper than the interpreter allows and the [ValueError] of an
    integer literal longer than it converts.  The scanner gets more fuel
    than the text has characters, which it cannot use up. *)
Definition loads {rt : Runtime} (s : text) : result pyval :=
  if startswith [65279] s then Raise JSONDecodeError
  else
    match scan_once (2 * List.length s + 2) recursion_budget (skip_ws s) with
    | Value v rest =>
        match skip_ws rest with
        | [] => Ok v
        | _ :: _ => Raise JSONDecodeError
        end
    | Invalid => Raise JSONDecodeError
    | Failed e => Raise e
    | OutOfFuel => Raise RecursionError
    end.

End json.

(* ================================================================= *)
(** ** [types.py]: the pydantic models

    Each model is a record, one module per class.  [model_validate] builds
    an instance from the Python value that [json.loads] returned: a [dict]
    is required, unknown keys are ignored, a missing or [None] optional field
    is [None], a missing required field is a [ValidationError].  Of the
    conversions pydantic makes for scalars, the model has those between the
    JSON types: an [int] field takes an integer, a [bool], and the floats
    and strings that pydantic converts ([float_as_int], [str_as_int]); a
    [str] field takes a string only. *)

Definition validate_str (v : pyval) : result text :=
  match v with
  | PStr s => Ok s
  | _ => Raise ValidationError
  end.

Definition converted (z : option Z) : result Z :=
  match z with
  | Some z => Ok z
  | None => Raise ValidationError
  end.

Definition validate_int {rt : Runtime} (v : pyval) : result Z :=
  match v with
  | PInt z => Ok z
  | PBool b => Ok (if b then 1 else 0)
  | PFloat f => converted (float_as_int f)
  | PStr s => converted (str_as_int s)
  | _ => Raise ValidationError
  end.

(** A required field. *)
Definition required {A} (validate : pyval -> result A) (k : string) (d : dict)
  : result A :=
  match dict_get (lit k) d with
  | Some v => validate v
  | None => Raise ValidationError
  end.

(** A field of type [Optional[...]] with default [None]. *)
Definition optional {A} (validate : pyval -> result A) (k : string) (d : dict)
  : result (option A) :=
  match dict_get (lit k) d with
  | None | Some PNone => Ok None
  | Some v => a <- validate v ;; Ok (Some a)
  end.

(** A field of type [List[...]]. *)
Definition validate_list {A} (validate : pyval -> result A) (v : pyval)
  : result (list A) :=
  match v with
  | PList l => mapM validate l
  | _ => Raise ValidationError
  end.

(** A model is validated from a [dict]. *)
Definition validate_model {A} (fields : dict -> result A) (v : pyval)
  : result A :=
  match v with
  | PDict d => fields d
  | _ => Raise ValidationError
  end.

Module ChatChoiceDelta.
Record t := { role : option text; content : option text }.

Definition model_validate : pyval -> result t :=
  validate_model (fun d =>
    role <- optional validate_str "role" d ;;
    content <- optional validate_str "content" d ;;
    Ok {| role := role; content := content |}).
End ChatChoiceDelta.

Module ChatChoiceMessage.
Record t := { role : text; content : text }.

Definition model_validate : pyval -> result t :=
  validate_model (fun d =>
    role <- required validate_str "role" d ;;
    content <- required validate_str "content" d ;;
    Ok {| role := role; content := content |}).
End ChatChoiceMessage.

Module ChatChoice.
Record t := {
  index : Z;
  message : option ChatChoiceMessage.t;
  finish_reason : option text;
  delta : option ChatChoiceDelta.t  (* for streaming chunks *)
}.

Definition model_validate {rt : Runtime} : pyval -> result t :=
  validate_model (fun d =>
    index <- required validate_int "index" d ;;
    message <- optional ChatChoiceMessage.model_validate "message" d ;;
    finish_reason <- optional validate_str "finish_reason" d ;;
    delta <- optional ChatChoiceDelta.model_validate "delta" d ;;
    Ok {| index := index; message := message;
          finish_reason := finish_reason; delta := delta |}).
End ChatChoice.

Module Usage.
Record t := {
  prompt_tokens : option Z;
  completion_tokens : option Z;
  total_tokens : option Z
}.

Definition model_validate {rt : Runtime} : pyval -> result t :=
  validate_model (fun d =>
    p <- optional validate_int "prompt_tokens" d ;;
    c <- optional validate_int "completion_tokens" d ;;
    t <- optional validate_int "total_tokens" d ;;
    Ok {| prompt_tokens := p; completion_tokens := c; total_tokens := t |}).
End Usage.

Module ChatCompletion.
Record t := {
  id : text;
  object : text;  (* Literal["chat.completion"] *)
  created : Z;
  model : text;
  choices : list ChatChoice.t;
  usage : option Usage.t;
  system_fingerprint : option text
}.

Definition validate_object (v : pyval) : result text :=
  match v with
  | PStr s =>
      if text_eqb s (lit "chat.completion") then Ok s
      else Raise ValidationError
  | _ => Raise ValidationError
  end.

Definition model_validate {rt : Runtime} : pyval -> result t :=
  validate_model (fun d =>
    id <- required validate_str "id" d ;;
    object <- required validate_object "object" d ;;
    created <- required validate_int "created" d ;;
    model <- required validate_str "model" d ;;
    choices <- required (validate_list ChatChoice.model_validate) "choices" d ;;
    usage <- optional Usage.model_validate "usage" d ;;
    fp <- optional validate_str "system_fingerprint" d ;;
    Ok {| id := id; object := object; created := created; model := model;
          choices := choices; usage := usage; system_fingerprint := fp |}).
End ChatCompletion.

Module ChatCompletionChunk.
Record t := {
  id : option text;
  object : option text;
  created : option Z;
  model : option text;
  choices : list ChatChoice.t
}.

Definition model_validate {rt : Runtime} : pyval -> result t :=
  validate_model (fun d =>
    id <- optional validate_str "id" d ;;
    object <- optional validate_str "object" d ;;
    created <- optional validate_int "created" d ;;
    model <- optional validate_str "model" d ;;
    choices <- required (validate_list ChatChoice.model_validate) "choices" d ;;
    Ok {| id := id; object := object; created := created; model := model;
          choices := choices |}).
End ChatCompletionChunk.

(** High-level streaming event wrapper: [delta] is the text delta of the
    first choice, [raw] the chunk of the provider. *)
Module StreamEvent.
Record t := {
  delta : option text;
  choice_index : Z;
  raw : ChatCompletionChunk.t
}.
End StreamEvent.

(** *** Request schemas

    A request is taken well-typed, as the annotations of the class give it:
    the record holds what the caller passed for each field, [None] for an
    optional field that was not passed (or was passed as [None]).
    [model_dump] lists the fields in the order of the class;
    [exclude_none=True] leaves out those whose value is [None], in nested
    models too. *)

Definition is_none (v : pyval) : bool :=
  match v with PNone => true | _ => false end.

Definition exclude_none (d : dict) : dict :=
  filter (fun kv => negb (is_none (snd kv))) d.

(** The value of an optional field in a dump. *)
Definition dump_opt {A} (dump : A -> pyval) (o : option A) : pyval :=
  match o with
  | Some a => dump a
  | None => PNone
  end.

Module ChatMessage.
Inductive role_t := system | user | assistant | tool.

Inductive content_t :=
| Text (s : text)
| Parts (l : list dict).

Record t := { role : role_t; content : content_t; name : option text }.

Definition dump_role (r : role_t) : pyval :=
  PStr (lit match r with
            | system => "system"
            | user => "user"
            | assistant => "assistant"
            | tool => "tool"
            end).

Definition dump_content (c : content_t) : pyval :=
  match c with
  | Text s => PStr s
  | Parts l => PList (map PDict l)
  end.

Definition model_dump (m : t) : dict :=
  [ (lit "role", dump_role (role m));
    (lit "content", dump_content (content m));
    (lit "name", dump_opt PStr (name m)) ].

Definition model_dump_exclude_none (m : t) : dict :=
  exclude_none (model_dump m).
End ChatMessage.

Module ChatCompletionRequest.
Record t := {
  model : text;
  messages : list ChatMessage.t;
  temperature : option pyfloat;
  top_p : option pyfloat;
  n : option Z;
  stream : option bool;
  stop : option (text + list text);
  max_tokens : option Z;
  presence_penalty : option pyfloat;
  frequency_penalty : option pyfloat;
  logit_bias : option (list (text * pyfloat));
  user : option text;
  tools : option (list dict);
  tool_choice : option (text + dict)
}.

Definition dump_stop (s : text + list text) : pyval :=
  match s with
  | inl one => PStr one
  | inr several => PList (map PStr several)
  end.

Definition dump_logit_bias (b : list (text * pyfloat)) : pyval :=
  PDict (map (fun kv => (fst kv, PFloat (snd kv))) b).

Definition dump_tool_choice (c : text + dict) : pyval :=
  match c with
  | inl s => PStr s
  | inr d => PDict d
  end.

Definition model_dump (r : t) : dict :=
  [ (lit "model", PStr (model r));
    (lit "messages",
      PList (map (fun m => PDict (ChatMessage.model_dump_exclude_none m))
                 (messages r)));
    (lit "temperature", dump_opt PFloat (temperature r));
    (lit "top_p", dump_opt PFloat (top_p r));
    (lit "n", dump_opt PInt (n r));
    (lit "stream", dump_opt PBool (stream r));
    (lit "stop", dump_opt dump_stop (stop r));
    (lit "max_tokens", dump_opt PInt (max_tokens r));
    (lit "presence_penalty", dump_opt PFloat (presence_penalty r));
    (lit "frequency_penalty", dump_opt PFloat (frequency_penalty r));
    (lit "logit_bias", dump_opt dump_logit_bias (logit_bias r));
    (lit "user", dump_opt PStr (user r));
    (lit "tools", dump_opt (fun l => PList (map PDict l)) (tools r));
    (lit "tool_choice", dump_opt dump_tool_choice (tool_choice r)) ].

Definition model_dump_exclude_none (r : t) : dict :=
  exclude_none (model_dump r).

(** [{**kwargs, "stream": True}]: the keyword arguments with [stream]
    replaced. *)
Definition with_stream (r : t) (s : option bool) : t :=
  {| model := model r; messages := messages r;
     temperature := temperature r; top_p := top_p r; n := n r;
     stream := s;
     stop := stop r; max_tokens := max_tokens r;
     presence_penalty := presence_penalty r;
     frequency_penalty := frequency_penalty r;
     logit_bias := logit_bias r; user := user r; tools := tools r;
     tool_choice := tool_choice r |}.
End ChatCompletionRequest.

(* ================================================================= *)
(** ** The outside world

    What the package does not decide: the environment variables of the
    process and the server behind the HTTP client.  A server answers a
    request with a response or the client fails with an exception; the body
    of a response is given as decoded text, and for a streamed response as
    the lines that [iter_lines] delivers, which may break off with an
    exception. *)

(** A line as the decoder of [client.py] may receive it. *)
Inductive raw_line :=
| LineStr (s : text)
| LineBytes (b : list byte).

(** An iterator of lines, as a consumer sees it pull by pull: a next line,
    the end, or an exception. *)
Inductive source :=
| Exhausted
| Broken (e : exn)
| Line (l : raw_line) (rest : source).

Fixpoint lines_then (ls : list raw_line) (tail : source) : source :=
  match ls with
  | [] => tail
  | l :: ls' => Line l (lines_then ls' tail)
  end.

Record Request := {
  method : text;
  path : text;
  body : option dict   (* the [json=] argument *)
}.

(** A response of httpx, as the package looks at it.  The three views of
    the body are those of httpx and of the codecs: they agree on a body of
    ASCII characters, and need not on another one (a byte-order mark, bytes
    that are not UTF-8, another declared charset). *)
Record Response := {
  status_code : Z;
  text_ : text;           (* [r.text] *)
  json_ : result pyval;   (* [r.json()] *)
  read_ : text;           (* [resp.read().decode(utf-8, errors=ignore)] *)
  url : text;             (* [str(r.request.url)] *)
  lines : source          (* [resp.iter_lines()] of a streamed response *)
}.

(** The environment, the server, and what building an httpx client out of
    a base URL, headers and a timeout does (the same for [httpx.Client]
    and [httpx.AsyncClient]): the exception it raises, if any. *)
Record World := {
  getenv : text -> option text;
  server : Request -> result Response;
  httpx_client : text -> list (text * text) -> pyfloat -> option exn
}.

(** A computation that talks to the server: the requests it sent, in order,
    and its outcome. *)
Definition io (A : Type) : Type := list Request * A.

(* ================================================================= *)
(** ** [errors.py] and [http.py] *)

Definition DEFAULT_BASE_URL : text := lit "https://api.publicai.co".

(** [bool(x)] for an optional string. *)
Definition truthy_str (o : option text) : bool :=
  match o with
  | Some s => nonempty s
  | None => false
  end.

(** [a or b] on optional strings. *)
Definition or_str (a b : option text) : option text :=
  if truthy_str a then a else b.

Module _BaseHTTP.
Record t := { api_key : text; base_url : text; timeout : pyfloat }.

Definition __init__ (w : World) (api_key : option text) (base_url : text)
    (timeout : pyfloat) : io (result t) :=
  let api_key := or_str api_key (getenv w (lit "APERTUS_API_KEY")) in
  if negb (truthy_str api_key)
  then ([], Raise (ValueError
         (lit "API key is required. Set APERTUS_API_KEY or pass api_key.")))
  else ([], Ok {| api_key := match api_key with Some k => k | None => [] end;
                  base_url := rstrip_char (ch "/") base_url;
                  timeout := timeout |}).

Definition _headers (self : t) : list (text * text) :=
  [ (lit "Authorization", lit "Bearer " ++ api_key self);
    (lit "Content-Type", lit "application/json");
    (lit "Accept", lit "application/json") ].
End _BaseHTTP.

(** [r.json()]. *)
Definition Response_json (r : Response) : result pyval := json_ r.

(** [httpx.Client(base_url=..., headers=..., timeout=...)] at the end of
    the constructors of the two transports. *)
Definition new_client (w : World) (self : _BaseHTTP.t)
  : result _BaseHTTP.t :=
  match httpx_client w (_BaseHTTP.base_url self) (_BaseHTTP._headers self)
                     (_BaseHTTP.timeout self) with
  | Some e => Raise e
  | None => Ok self
  end.

(** [data.get(k)] as Python evaluates it: a method of dictionaries only. *)
Definition py_get (data : pyval) (k : string) : result pyval :=
  match data with
  | PDict d => Ok match dict_get (lit k) d with
                  | Some v => v
                  | None => PNone
                  end
  | _ => Raise AttributeError
  end.

(** [s // 100 != 2]. *)
Definition not_2xx (s : Z) : bool := negb (s / 100 =? 2).

(** Does a line pass [if not line: continue]? *)
Definition line_nonempty (l : raw_line) : bool :=
  match l with
  | LineStr s => nonempty s
  | LineBytes b => match b with [] => false | _ :: _ => true end
  end.

Module SyncHTTP.
Definition t := _BaseHTTP.t.

Definition __init__ (w : World) (api_key : option text) (base_url : text)
    (timeout : pyfloat) : io (result t) :=
  let (sent, self) := _BaseHTTP.__init__ w api_key base_url timeout in
  (sent, self <- self ;; new_client w self).

(** The exception that [_raise_api_error(r)] raises. *)
Definition _raise_api_error (r : Response) : exn :=
  let attempt :=
    data <- Response_json r ;;
    e <- py_get data "error" ;;
    m <- py_get data "message" ;;
    Ok (py_or (py_or e m) (PStr (text_ r)), data) in
  match attempt with
  | Ok (message, data) =>
      ApertusAPIError (status_code r) message (Some (url r)) (Some data)
  | Raise _ =>
      ApertusAPIError (status_code r) (PStr (text_ r)) (Some (url r)) None
  end.

(** The exception that [_raise_api_error_object] raises. *)
Definition _raise_api_error_object (status : Z) (message : text)
    (url : option text) (payload : option dict) : exn :=
  ApertusAPIError status (PStr message) url (option_map PDict payload).

Definition get (w : World) (self : t) (path : text) : io (result pyval) :=
  let req := {| method := lit "GET"; path := path; body := None |} in
  ([req],
   r <- server w req ;;
   if not_2xx (status_code r) then Raise (_raise_api_error r)
   else Response_json r).

Definition post_json (w : World) (self : t) (path : text) (json : dict)
  : io (result pyval) :=
  let req := {| method := lit "POST"; path := path; body := Some json |} in
  ([req],
   r <- server w req ;;
   if not_2xx (status_code r) then Raise (_raise_api_error r)
   else Response_json r).

(** [for line in resp.iter_lines(): if not line: continue; yield line]. *)
Fixpoint iter_nonempty (src : source) : source :=
  match src with
  | Exhausted => Exhausted
  | Broken e => Broken e
  | Line l rest =>
      if negb (line_nonempty l) then iter_nonempty rest
      else Line l (iter_nonempty rest)
  end.

(** The generator [post_stream]: the request it sends when it is started
    and the lines it yields. *)
Definition post_stream (w : World) (self : t) (path : text) (json : dict)
  : io source :=
  let req := {| method := lit "POST"; path := path; body := Some json |} in
  ([req],
   match server w req with
   | Raise e => Broken e
   | Ok resp =>
       if not_2xx (status_code resp) then
         let body := read_ resp in
         Broken (_raise_api_error_object (status_code resp) body
                   (Some (url resp)) (Some json))
       else iter_nonempty (lines resp)
   end).
End SyncHTTP.

Module AsyncHTTP.
Definition t := _BaseHTTP.t.

Definition __init__ (w : World) (api_key : option text) (base_url : text)
    (timeout : pyfloat) : io (result t) :=
  let (sent, self) := _BaseHTTP.__init__ w api_key base_url timeout in
  (sent, self <- self ;; new_client w self).

Definition _raise_api_error (r : Response) : exn :=
  let attempt :=
    data <- Response_json r ;;
    e <- py_get data "error" ;;
    m <- py_get data "message" ;;
    Ok (py_or (py_or e m) (PStr (text_ r)), data) in
  match attempt with
  | Ok (message, data) =>
      ApertusAPIError (status_code r) message (Some (url r)) (Some data)
  | Raise _ =>
      ApertusAPIError (status_code r) (PStr (text_ r)) (Some (url r)) None
  end.

Definition _raise_api_error_object (status : Z) (message : text)
    (url : option text) (payload : option dict) : exn :=
  ApertusAPIError status (PStr message) url (option_map PDict payload).

Definition get (w : World) (self : t) (path : text) : io (result pyval) :=
  let req := {| method := lit "GET"; path := path; body := None |} in
  ([req],
   r <- server w req ;;
   if not_2xx (status_code r) then Raise (_raise_api_error r)
   else Response_json r).

Definition post_json (w : World) (self : t) (path : text) (json : dict)
  : io (result pyval) :=
  let req := {| method := lit "POST"; path := path; body := Some json |} in
  ([req],
   r <- server w req ;;
   if not_2xx (status_code r) then Raise (_raise_api_error r)
   else Response_json r).

(** [async for line in resp.aiter_lines(): if not line: continue; yield line]. *)
Fixpoint aiter_nonempty (src : source) : source :=
  match src with
  | Exhausted => Exhausted
  | Broken e => Broken e
  | Line l rest =>
      if negb (line_nonempty l) then aiter_nonempty rest
      else Line l (aiter_nonempty rest)
  end.

Definition post_stream (w : World) (self : t) (path : text) (json : dict)
  : io source :=
  let req := {| method := lit "POST"; path := path; body := Some json |} in
  ([req],
   match server w req with
   | Raise e => Broken e
   | Ok resp =>
       if not_2xx (status_code resp) then
         let body := read_ resp in
         let message := body in
         Broken (_raise_api_error_object (status_code resp) message
                   (Some (url resp)) (Some json))
       else aiter_nonempty (lines resp)
   end).
End AsyncHTTP.

(* ================================================================= *)
(** ** [client.py] *)

Definition MODELS_PATH : text := lit "/v1/models".
Definition CHAT_COMPLETIONS_PATH : text := lit "/v1/chat/completions".

(** What one turn of the loop of [stream] does with its line. *)
Inductive step :=
| Continue                       (* [continue] *)
| Break                          (* [break] *)
| Yield (ev : StreamEvent.t)     (* [yield] *)
| Throw (e : exn).               (* an exception leaves the loop *)

(** A run of a generator of events to its end: what it yielded, how it
    ended ([None]: it returned; [Some e]: it raised [e]), and the part of
    its line source that it never asked for. *)
Record run := {
  events : list StreamEvent.t;
  raised : option exn;
  unread : source
}.

Definition yielding (ev : StreamEvent.t) (r : run) : run :=
  {| events := ev :: events r; raised := raised r; unread := unread r |}.

Module _ChatCompletions.

Definition create {rt : Runtime} (w : World) (_http : SyncHTTP.t)
    (kwargs : ChatCompletionRequest.t) : io (result ChatCompletion.t) :=
  let payload := ChatCompletionRequest.model_dump_exclude_none kwargs in
  let (sent, data) := SyncHTTP.post_json w _http CHAT_COMPLETIONS_PATH payload in
  (sent, data <- data ;; ChatCompletion.model_validate data).

(** The body of the loop of [stream]. *)
Definition stream_line {rt : Runtime} (line : raw_line) : step :=
  (* Expect SSE-like lines: possibly starting with 'data: {...}' *)
  match match line with
        | LineBytes b => bytes_decode b
        | LineStr s => Ok s
        end with
  | Raise e => Throw e
  | Ok text =>
      let text := strip text in
      if negb (nonempty text) then Continue
      else
        let text :=
          if startswith (lit "data:") text
          then strip (skipn (List.length (lit "data:")) text)
          else text in
        if text_eqb text (lit "[DONE]") then Break
        else
          match json.loads text with
          | Raise JSONDecodeError => Continue
          | Raise e => Throw e
          | Ok obj =>
              match ChatCompletionChunk.model_validate obj with
              | Raise e => Throw e
              | Ok chunk =>
                  let delta :=
                    match ChatCompletionChunk.choices chunk with
                    | ch0 :: _ =>
                        match ChatChoice.delta ch0 with
                        | Some d => ChatChoiceDelta.content d
                        | None => None
                        end
                    | [] => None
                    end in
                  Yield {| StreamEvent.delta := delta;
                           StreamEvent.choice_index := 0;
                           StreamEvent.raw := chunk |}
              end
          end
  end.

(** The loop of [stream] over the lines of the transport. *)
Fixpoint stream_loop {rt : Runtime} (src : source) : run :=
  match src with
  | Exhausted => {| events := []; raised := None; unread := Exhausted |}
  | Broken e => {| events := []; raised := Some e; unread := Exhausted |}
  | Line line rest =>
      match stream_line line with
      | Continue => stream_loop rest
      | Break => {| events := []; raised := None; unread := rest |}
      | Yield ev => yielding ev (stream_loop rest)
      | Throw e => {| events := []; raised := Some e; unread := rest |}
      end
  end.

Definition stream {rt : Runtime} (w : World) (_http : SyncHTTP.t)
    (kwargs : ChatCompletionRequest.t) : io run :=
  (* Ensure stream flag is set *)
  let payload :=
    ChatCompletionRequest.model_dump_exclude_none
      (ChatCompletionRequest.with_stream kwargs (Some true)) in
  let (sent, src) := SyncHTTP.post_stream w _http CHAT_COMPLETIONS_PATH payload in
  (sent, stream_loop src).

End _ChatCompletions.

Module _AsyncChatCompletions.

Definition create {rt : Runtime} (w : World) (_http : AsyncHTTP.t)
    (kwargs : ChatCompletionRequest.t) : io (result ChatCompletion.t) :=
  let payload := ChatCompletionRequest.model_dump_exclude_none kwargs in
  let (sent, data) := AsyncHTTP.post_json w _http CHAT_COMPLETIONS_PATH payload in
  (sent, data <- data ;; ChatCompletion.model_validate data).

Definition stream_line {rt : Runtime} (line : raw_line) : step :=
  let text := line in
  match match text with
        | LineBytes b => bytes_decode b
        | LineStr s => Ok s
        end with
  | Raise e => Throw e
  | Ok text =>
      let text := strip text in
      if negb (nonempty text) then Continue
      else
        let text :=
          if startswith (lit "data:") text
          then strip (skipn (List.length (lit "data:")) text)
          else text in
        if text_eqb text (lit "[DONE]") then Break
        else
          match json.loads text with
          | Raise JSONDecodeError => Continue
          | Raise e => Throw e
          | Ok obj =>
              match ChatCompletionChunk.model_validate obj with
              | Raise e => Throw e
              | Ok chunk =>
                  let delta :=
                    match ChatCompletionChunk.choices chunk with
                    | ch0 :: _ =>
                        match ChatChoice.delta ch0 with
                        | Some d => ChatChoiceDelta.content d
                        | None => None
                        end
                    | [] => None
                    end in
                  Yield {| StreamEvent.delta := delta;
                           StreamEvent.choice_index := 0;
                           StreamEvent.raw := chunk |}
              end
          end
  end.

Fixpoint stream_loop {rt : Runtime} (src : source) : run :=
  match src with
  | Exhausted => {| events := []; raised := None; unread := Exhausted |}
  | Broken e => {| events := []; raised := Some e; unread := Exhausted |}
  | Line line rest =>
      match stream_line line with
      | Continue => stream_loop rest
      | Break => {| events := []; raised := None; unread := rest |}
      | Yield ev => yielding ev (stream_loop rest)
      | Throw e => {| events := []; raised := Some e; unread := rest |}
      end
  end.

Definition stream {rt : Runtime} (w : World) (_http : AsyncHTTP.t)
    (kwargs : ChatCompletionRequest.t) : io run :=
  let payload :=
    ChatCompletionRequest.model_dump_exclude_none
      (ChatCompletionRequest.with_stream kwargs (Some true)) in
  let (sent, src) := AsyncHTTP.post_stream w _http CHAT_COMPLETIONS_PATH payload in
  (sent, stream_loop src).

End _AsyncChatCompletions.

(** [base_url or "https://api.publicai.co"]. *)
Definition base_url_or_default (base_url : option text) : text :=
  match or_str base_url (Some (lit "https://api.publicai.co")) with
  | Some u => u
  | None => []
  end.

Module Apertus.
Record t := { _http : SyncHTTP.t }.

Definition __init__ (w : World) (api_key : option text)
    (base_url : option text) (timeout : pyfloat) : io (result t) :=
  let (sent, http) :=
    SyncHTTP.__init__ w api_key (base_url_or_default base_url) timeout in
  (sent, http <- http ;; Ok {| _http := http |}).
End Apertus.

Module AsyncApertus.
Record t := { _http : AsyncHTTP.t }.

Definition __init__ (w : World) (api_key : option text)
    (base_url : option text) (timeout : pyfloat) : io (result t) :=
  let (sent, http) :=
    AsyncHTTP.__init__ w api_key (base_url_or_default base_url) timeout in
  (sent, http <- http ;; Ok {| _http := http |}).
End AsyncApertus.

(* ================================================================= *)
(** ** [types.py] and [client.py]: the list of models *)

Module ModelInfo.
Record t := {
  id : text;
  object : option text;
  created : option Z;
  owned_by : option text;
  (* Any additional fields as exposed by the provider *)
  raw : dict
}.

(** A field of type [Dict[str, Any]]. *)
Definition validate_dict (v : pyval) : result dict :=
  match v with
  | PDict d => Ok d
  | _ => Raise ValidationError
  end.

(** [raw: Dict[str, Any] = Field(default_factory=dict)]: the empty
    dictionary when the key is missing. *)
Definition raw_field (d : dict) : result dict :=
  match dict_get (lit "raw") d with
  | Some v => validate_dict v
  | None => Ok []
  end.

Definition model_validate {rt : Runtime} : pyval -> result t :=
  validate_model (fun d =>
    id <- required validate_str "id" d ;;
    object <- optional validate_str "object" d ;;
    created <- optional validate_int "created" d ;;
    owned_by <- optional validate_str "owned_by" d ;;
    raw <- raw_field d ;;
    Ok {| id := id; object := object; created := created;
          owned_by := owned_by; raw := raw |}).
End ModelInfo.

Module ModelsList.
Record t := {
  object : text;  (* Literal["list"], from [APIList] *)
  data : list ModelInfo.t
}.

Definition validate_object (v : pyval) : result text :=
  match v with
  | PStr s => if text_eqb s (lit "list") then Ok s else Raise ValidationError
  | _ => Raise ValidationError
  end.

Definition model_validate {rt : Runtime} : pyval -> result t :=
  validate_model (fun d =>
    object <- required validate_object "object" d ;;
    data <- required (validate_list ModelInfo.model_validate) "data" d ;;
    Ok {| object := object; data := data |}).
End ModelsList.

Module _Models.
Definition list {rt : Runtime} (w : World) (_http : SyncHTTP.t) : io (result ModelsList.t) :=
  let (sent, data) := SyncHTTP.get w _http MODELS_PATH in
  (* Accept both OpenAI-format and generic list *)
  (sent, data <- data ;; ModelsList.model_validate data).
End _Models.

Module _AsyncModels.
Definition list {rt : Runtime} (w : World) (_http : AsyncHTTP.t) : io (result ModelsList.t) :=
  let (sent, data) := AsyncHTTP.get w _http MODELS_PATH in
  (sent, data <- data ;; ModelsList.model_validate data).
End _AsyncModels.

(* ================================================================= *)
(** ** [conversation_demo.py]

    The terminal demo: how it picks a model and what one pass of its
    read-and-reply loop does.  What the demo prints is kept as a list of
    messages, one constructor per [print] call of the source with the
    values it formats; [str.lower] is a parameter; Ctrl+C is not
    modelled. *)

Module conversation_demo.

Definition PREFERRED_MODEL : text := lit "swiss-ai/apertus-70b-instruct".

(** [needle in hay] for two strings. *)
Fixpoint contains (needle hay : text) : bool :=
  startswith needle hay
  || match hay with
     | [] => false
     | _ :: hay' => contains needle hay'
     end.

(** [x in ids] for a list of strings. *)
Definition mem (x : text) (ids : list text) : bool := existsb (text_eqb x) ids.

(** What the demo can see raised: its own [RuntimeError], the [IndexError]
    of [choices[0]], the [AttributeError] of [None.content], or an
    exception of the client. *)
Inductive failure :=
| RuntimeError (msg : text)
| IndexError
| NoneHasNoContent
| Client (e : exn).

Section WithLower.
Variable lower : text -> text.

(** Pick a model ID to use. *)
Definition choose_model {rt : Runtime} (w : World) (client : Apertus.t)
    (preferred : option text) : io (text + failure) :=
  let (sent, models) := _Models.list w (Apertus._http client) in
  (sent,
   match models with
   | Raise e => inr (Client e)
   | Ok models =>
       let ids :=
         map ModelInfo.id
             (filter (fun m => nonempty (ModelInfo.id m)) (ModelsList.data models)) in
       match ids with
       | [] => inr (RuntimeError (lit "No models available for this API key."))
       | first :: _ =>
           if truthy_str preferred
              && mem (match preferred with Some p => p | None => [] end) ids
           then inl (match preferred with Some p => p | None => [] end)
           else
             (* Try to find a close match first *)
             match find (fun candidate =>
                           let cid := lower candidate in
                           contains (lit "apertus") cid
                           && contains (lit "instruct") cid) ids with
             | Some candidate => inl candidate
             | None => inl first  (* Fallback: the first available model *)
             end
       end
   end).

(** The options of the command line that the loop uses. *)
Record args := {
  api_key : option text;
  model : text;
  system : option text;
  temperature : pyfloat;
  max_tokens : Z;
  base_url : text;
  timeout : pyfloat;
  no_stream : bool
}.

Record session := {
  model_id : text;
  messages : list ChatMessage.t
}.

(** The [print] calls of [main] and of its loop. *)
Inductive printed :=
| ErrorLine (e : exn)
| SetKeyHint
| FailedToListModels (e : exn)
| FailedToChooseModel (f : failure)
| Banner
| UsingModel (model_id : text)
| SystemPromptSet
| TypeHelp
| Goodbye
| Newline
| Help
| HistoryCleared
| UsageModel
| SwitchedTo (model_id : text)
| FailedToSwitch (f : failure)
| AssistantPrompt
| Piece (s : text)
| ApiError (status_code : Z) (message : pyval)
| UnexpectedError (f : failure).

Inductive control := Stop | Again.

Record pass := {
  next : control;
  after : session;
  output : list printed
}.

Definition message (role : ChatMessage.role_t) (content : text) : ChatMessage.t :=
  {| ChatMessage.role := role;
     ChatMessage.content := ChatMessage.Text content;
     ChatMessage.name := None |}.

Definition is_system (m : ChatMessage.t) : bool :=
  match ChatMessage.role m with
  | ChatMessage.system => true
  | _ => false
  end.

(** The third part of [s.partition(c)]: what follows the first [c]. *)
Fixpoint after_first (c : Z) (s : text) : text :=
  match s with
  | [] => []
  | x :: r => if x =? c then r else after_first c r
  end.

(** The keyword arguments of the two chat calls of the loop. *)
Definition chat_kwargs (a : args) (s : session) : ChatCompletionRequest.t :=
  {| ChatCompletionRequest.model := model_id s;
     ChatCompletionRequest.messages := messages s;
     ChatCompletionRequest.temperature := Some (temperature a);
     ChatCompletionRequest.top_p := None;
     ChatCompletionRequest.n := None;
     ChatCompletionRequest.stream := None;
     ChatCompletionRequest.stop := None;
     ChatCompletionRequest.max_tokens := Some (max_tokens a);
     ChatCompletionRequest.presence_penalty := None;
     ChatCompletionRequest.frequency_penalty := None;
     ChatCompletionRequest.logit_bias := None;
     ChatCompletionRequest.user := None;
     ChatCompletionRequest.tools := None;
     ChatCompletionRequest.tool_choice := None |}.

(** The deltas that the streaming branch prints and collects: those that
    are there and not empty. *)
Fixpoint chunks_of (evs : list StreamEvent.t) : list text :=
  match evs with
  | [] => []
  | ev :: evs' =>
      match StreamEvent.delta ev with
      | Some ((_ :: _) as d) => d :: chunks_of evs'
      | _ => chunks_of evs'
      end
  end.

(** The [except] clauses around a chat call. *)
Definition report (f : failure) : printed :=
  match f with
  | Client (ApertusAPIError status_code message _ _) =>
      ApiError status_code message
  | _ => UnexpectedError f
  end.

(** The reply of the non-streaming branch: [resp.choices[0].message.content]. *)
Definition first_content (resp : ChatCompletion.t) : text + failure :=
  match ChatCompletion.choices resp with
  | [] => inr IndexError
  | ch0 :: _ =>
      match ChatChoice.message ch0 with
      | None => inr NoneHasNoContent
      | Some m => inl (ChatChoiceMessage.content m)
      end
  end.

(** One pass of the loop of [main], on the line that [input] returns
    ([None]: end of input), at a terminal that takes what is printed and
    with no interrupt from the keyboard. *)
Definition loop_body {rt : Runtime} (a : args) (w : World) (client : Apertus.t)
    (s : session) (line : option text) : io pass :=
  match line with
  | None => ([], {| next := Stop; after := s; output := [Newline] |})
  | Some line =>
      let user := strip line in
      if negb (nonempty user) then
        ([], {| next := Again; after := s; output := [] |})
      (* Handle simple slash-commands to control the session *)
      else if text_eqb user (lit "/exit") then
        ([], {| next := Stop; after := s; output := [] |})
      else if text_eqb user (lit "/help") then
        ([], {| next := Again; after := s; output := [Help] |})
      else if text_eqb user (lit "/clear") then
        (* keep the system prompt if any *)
        ([], {| next := Again;
                after := {| model_id := model_id s;
                            messages := filter is_system (messages s) |};
                output := [HistoryCleared] |})
      else if startswith (lit "/model ") user then
        let new_model := strip (after_first (ch " ") user) in
        if negb (nonempty new_model) then
          ([], {| next := Again; after := s; output := [UsageModel] |})
        else
          (* Validate new model exists for this key *)
          let (sent, chosen) := choose_model w client (Some new_model) in
          match chosen with
          | inl id =>
              (sent, {| next := Again;
                        after := {| model_id := id; messages := messages s |};
                        output := [SwitchedTo id] |})
          | inr f =>
              (sent, {| next := Again; after := s; output := [FailedToSwitch f] |})
          end
      else
        (* Append the user's message to the conversation history *)
        let s1 := {| model_id := model_id s;
                     messages := messages s ++ [message ChatMessage.user user] |} in
        if no_stream a then
          (* Non-streaming mode: single response payload *)
          let (sent, resp) :=
            _ChatCompletions.create w (Apertus._http client) (chat_kwargs a s1) in
          match resp with
          | Raise e =>
              (sent, {| next := Again; after := s1;
                        output := [AssistantPrompt; report (Client e)] |})
          | Ok resp =>
              match first_content resp with
              | inr f =>
                  (sent, {| next := Again; after := s1;
                            output := [AssistantPrompt; report f] |})
              | inl text =>
                  (sent, {| next := Again;
                            after := {| model_id := model_id s1;
                                        messages := messages s1
                                          ++ [message ChatMessage.assistant text] |};
                            output := [AssistantPrompt; Piece text] |})
              end
          end
        else
          (* Streaming mode: print tokens as they arrive, then save the final
             text to history *)
          let (sent, r) :=
            _ChatCompletions.stream w (Apertus._http client) (chat_kwargs a s1) in
          let chunks := chunks_of (events r) in
          match raised r with
          | Some e =>
              (sent, {| next := Again; after := s1;
                        output := AssistantPrompt :: map Piece chunks
                                  ++ [report (Client e)] |})
          | None =>
              let final_text := List.concat chunks in
              (sent, {| next := Again;
                        after := {| model_id := model_id s1;
                                    messages := messages s1
                                      ++ [message ChatMessage.assistant final_text] |};
                        output := AssistantPrompt :: map Piece chunks ++ [Newline] |})
          end
  end.

(** The loop of [main] over the lines that [input] returns one after the
    other, the end of input after the last: the session it ends with and
    what it prints. *)
Fixpoint loop {rt : Runtime} (a : args) (w : World) (client : Apertus.t) (s : session)
    (lines : list text) : io (session * list printed) :=
  match lines with
  | [] =>
      let (sent, p) := loop_body a w client s None in
      (sent, (after p, output p))
  | line :: rest =>
      let (sent, p) := loop_body a w client s (Some line) in
      match next p with
      | Stop => (sent, (after p, output p))
      | Again =>
          let (sent', r) := loop a w client (after p) rest in
          (sent ++ sent', (fst r, output p ++ snd r))
      end
  end.


End WithLower.
End conversation_demo.

(* ================================================================= *)
(** ** The wire protocol, in the words of the specification

    These definitions do not come from the code: they say what the
    specification calls a frame, its payload, the sentinel, a valid frame
    and a malformed one, so that the loop of [stream] can be compared with
    them. *)

Definition SENTINEL : text := lit "[DONE]".

(** The text of a raw line, when it has one. *)
Definition line_text (l : raw_line) : option text :=
  match l with
  | LineStr s => Some s
  | LineBytes b => utf8_decode (map byte_val b)
  end.

(** The payload of a line: without surrounding white space and without the
    optional framing prefix. *)
Definition payload_of_text (t : text) : text :=
  let s := strip t in
  if startswith (lit "data:") s then strip (skipn 5 s) else s.

Definition frame_payload (l : raw_line) : option text :=
  option_map payload_of_text (line_text l).


(** A valid frame: its payload is JSON text and the value is a chunk. *)
Definition frame_chunk {rt : Runtime} (l : raw_line) : option ChatCompletionChunk.t :=
  match frame_payload l with
  | Some p =>
      match json.loads p with
      | Ok obj =>
          match ChatCompletionChunk.model_validate obj with
          | Ok chunk => Some chunk
          | Raise _ => None
          end
      | Raise _ => None
      end
  | None => None
  end.

Definition is_valid_frame {rt : Runtime} (l : raw_line) : bool :=
  match frame_chunk l with Some _ => true | None => false end.

(** A malformed frame: its payload is not the sentinel and not JSON. *)
Definition is_malformed_frame {rt : Runtime} (l : raw_line) : bool :=
  match frame_payload l with
  | Some p =>
      negb (text_eqb p SENTINEL)
      && match json.loads p with
         | Raise JSONDecodeError => true
         | _ => false
         end
  | None => false
  end.

(** The chunks of the valid frames among some lines, in their order. *)
Fixpoint valid_chunks {rt : Runtime} (ls : list raw_line) : list ChatCompletionChunk.t :=
  match ls with
  | [] => []
  | l :: ls' =>
      match frame_chunk l with
      | Some c => c :: valid_chunks ls'
      | None => valid_chunks ls'
      end
  end.

(** The event that a chunk is projected to: the content of the delta of
    the first choice when both are there, index 0, the chunk itself. *)
Definition first_delta (c : ChatCompletionChunk.t) : option text :=
  match ChatCompletionChunk.choices c with
  | [] => None
  | ch0 :: _ =>
      match ChatChoice.delta ch0 with
      | Some d => ChatChoiceDelta.content d
      | None => None
      end
  end.

Definition event_of_chunk (c : ChatCompletionChunk.t) : StreamEvent.t :=
  {| StreamEvent.delta := first_delta c;
     StreamEvent.choice_index := 0;
     StreamEvent.raw := c |}.

(** A credential is missing when it is absent or empty. *)
Definition absent_or_empty (o : option text) : bool :=
  match o with
  | None => true
  | Some [] => true
  | Some (_ :: _) => false
  end.

(** No bearer token resolves: the argument and the environment variable
    are both missing. *)
Definition no_token (w : World) (api_key : option text) : bool :=
  absent_or_empty api_key
  && absent_or_empty (getenv w (lit "APERTUS_API_KEY")).

(** A message as the caller gave it: its role, its content, and its name
    when it has one. *)
Definition message_given (m : ChatMessage.t) : pyval :=
  PDict ([ (lit "role", ChatMessage.dump_role (ChatMessage.role m));
           (lit "content", ChatMessage.dump_content (ChatMessage.content m)) ]
         ++ match ChatMessage.name m with
            | Some n => [(lit "name", PStr n)]
            | None => []
            end).

(** The fields of a request with what the caller gave for each: [None] for
    an optional field left unset. *)
Definition caller_fields (r : ChatCompletionRequest.t)
  : list (text * option pyval) :=
  [ (lit "model", Some (PStr (ChatCompletionRequest.model r)));
    (lit "messages",
      Some (PList (map message_given (ChatCompletionRequest.messages r))));
    (lit "temperature", option_map PFloat (ChatCompletionRequest.temperature r));
    (lit "top_p", option_map PFloat (ChatCompletionRequest.top_p r));
    (lit "n", option_map PInt (ChatCompletionRequest.n r));
    (lit "stream", option_map PBool (ChatCompletionRequest.stream r));
    (lit "stop",
      option_map ChatCompletionRequest.dump_stop (ChatCompletionRequest.stop r));
    (lit "max_tokens", option_map PInt (ChatCompletionRequest.max_tokens r));
    (lit "presence_penalty",
      option_map PFloat (ChatCompletionRequest.presence_penalty r));
    (lit "frequency_penalty",
      option_map PFloat (ChatCompletionRequest.frequency_penalty r));
    (lit "logit_bias",
      option_map ChatCompletionRequest.dump_logit_bias
                 (ChatCompletionRequest.logit_bias r));
    (lit "user", option_map PStr (ChatCompletionRequest.user r));
    (lit "tools",
      option_map (fun l => PList (map PDict l)) (ChatCompletionRequest.tools r));
    (lit "tool_choice",
      option_map ChatCompletionRequest.dump_tool_choice
                 (ChatCompletionRequest.tool_choice r)) ].

(** A payload holds exactly what the caller gave: every field that was set,
    with its value, and nothing for a field that was not. *)
Definition holds_fields (payload : dict) (fields : list (text * option pyval))
  : Prop :=
  Forall (fun kv => dict_get (fst kv) payload = snd kv) fields.

(** The same fields for a streaming call: [stream] is true whatever the
    caller gave. *)
Definition streamed_fields (fields : list (text * option pyval))
  : list (text * option pyval) :=
  map (fun kv => if text_eqb (fst kv) (lit "stream")
                 then (fst kv, Some (PBool true)) else kv) fields.

(** No field of the payload is null. *)
Definition no_null (payload : dict) : Prop :=
  Forall (fun kv => snd kv <> PNone) payload.

(** The one request that a call to the chat endpoint sends. *)
Definition chat_request (payload : dict) : Request :=
  {| method := lit "POST"; path := CHAT_COMPLETIONS_PATH; body := Some payload |}.

(** A constructor of a client over the transport: it does no network I/O;
    without a token it raises the [ValueError] of the missing key; with a
    token it ends as the building of the httpx client does, over the state
    that [_BaseHTTP] has set up. *)
Definition constructs {A} (x : io (result A)) (w : World)
    (api_key : option text) (base_url : text) (timeout : pyfloat)
    (wrap : _BaseHTTP.t -> A) : Prop :=
  fst x = []
  /\ (no_token w api_key = true ->
      snd x = Raise (ValueError
                (lit "API key is required. Set APERTUS_API_KEY or pass api_key.")))
  /\ (no_token w api_key = false ->
      exists self,
        snd (_BaseHTTP.__init__ w api_key base_url timeout) = Ok self
        /\ snd x = match httpx_client w (_BaseHTTP.base_url self)
                                      (_BaseHTTP._headers self)
                                      (_BaseHTTP.timeout self) with
                   | Some e => Raise e
                   | None => Ok (wrap self)
                   end).

(** A constructor that does no network I/O and fails exactly when
    [missing] holds. *)
Definition fails_iff {A} (x : io (result A)) (missing : bool) : Prop :=
  fst x = []
  /\ ((exists msg, snd x = Raise (ValueError msg)) <-> missing = true)
  /\ ((exists a, snd x = Ok a) <-> missing = false).

(** What a run with enough fuel gives: never [OutOfFuel], and a value only
    after it has taken at least one character. *)
Definition within_fuel (x : json.scanned) (s : text) : Prop :=
  x <> json.OutOfFuel
  /\ forall v r, x = json.Value v r -> (List.length r < List.length s)%nat.

(** The exceptions that [json.loads] lets through at a limit of the
    interpreter: a nesting too deep, an integer literal too long. *)
Definition limit_error (e : exn) : Prop :=
  e = RecursionError \/ exists msg, e = ValueError msg.

(** A validator that fails, fails with [ValidationError]. *)
Definition raises_validation_error {A B} (f : A -> result B) : Prop :=
  forall a e, f a = Raise e -> e = ValidationError.

(** The bodies of the requests that a computation sent. *)
Definition sent {A} (x : io A) : list Request := fst x.
Definition outcome {A} (x : io A) : A := snd x.

(* ================================================================= *)
(** ** Notions for the further properties *)

(** The lines of a line source and the way it ends. *)
Fixpoint lines_of (src : source) : list raw_line :=
  match src with
  | Exhausted | Broken _ => []
  | Line l rest => l :: lines_of rest
  end.

Fixpoint ending_of (src : source) : option exn :=
  match src with
  | Exhausted => None
  | Broken e => Some e
  | Line _ rest => ending_of rest
  end.

(** A status code of the 2xx class. *)
Definition is_2xx (s : Z) : Prop := 200 <= s <= 299.

(** White space only. *)
Definition blank (s : text) : Prop := Forall (fun c => isspace c = true) s.

(** The names of the fields of [ChatCompletionChunk]. *)
Definition chunk_fields : list text :=
  [lit "id"; lit "object"; lit "created"; lit "model"; lit "choices"].

(** The [id] entry of a JSON object, when it is a string. *)
Definition json_id (item : pyval) : option text :=
  match item with
  | PDict d =>
      match dict_get (lit "id") d with
      | Some (PStr s) => Some s
      | _ => None
      end
  | _ => None
  end.

(** The characters with which a JSON value can start. *)
Definition json_start (c : Z) : bool :=
  (c =? 34) || (c =? 123) || (c =? 91)
  || (110 =? c) || (116 =? c) || (102 =? c) || (78 =? c) || (73 =? c)
  || (c =? 45) || json.is_digit c.

(* ================================================================= *)
(** ** Sample data *)

Module Sample.
(** The frames of the unit test [test_stream_parsing], as bytes and as
    text, with some noise. *)
Definition ascii_bytes (t : text) : list byte :=
  list_byte_of_string
    (string_of_list_ascii (map (fun c => ascii_of_N (Z.to_N c)) t)).

Definition role_frame : raw_line :=
  LineBytes (ascii_bytes
    (qlit "data: {'choices':[{'index':0,'delta':{'role':'assistant'}}]}")).
Definition he_frame : raw_line :=
  LineStr (qlit "data: {'choices':[{'index':0,'delta':{'content':'he'}}]}").
Definition llo_frame : raw_line :=
  LineStr (qlit "{'choices':[{'index':0,'delta':{'content':'llo'}}]}  ").
Definition keepalive : raw_line := LineStr (lit ": keep-alive").
Definition prefix_only : raw_line := LineStr (lit "data:").
Definition done : raw_line := LineStr (lit "data: [DONE]").

(** A frame that is JSON and a chunk, with no choice. *)
Definition no_choice_frame : raw_line := LineStr (qlit "data: {'choices':[]}").
Definition no_choice_chunk : ChatCompletionChunk.t :=
  {| ChatCompletionChunk.id := None;
     ChatCompletionChunk.object := None;
     ChatCompletionChunk.created := None;
     ChatCompletionChunk.model := None;
     ChatCompletionChunk.choices := [] |}.

(** Frames that are JSON and not chunks. *)
Definition no_choices_field : raw_line := LineStr (qlit "data: {'id':'x'}").
Definition not_an_object : raw_line := LineStr (lit "data: 42").

Definition timeout_error : exn := TransportError (lit "ReadTimeout").

(** A request as the unit tests make it. *)
Definition request : ChatCompletionRequest.t :=
  {| ChatCompletionRequest.model := lit "test";
     ChatCompletionRequest.messages :=
       [ {| ChatMessage.role := ChatMessage.user;
            ChatMessage.content := ChatMessage.Text (lit "hello");
            ChatMessage.name := None |} ];
     ChatCompletionRequest.temperature := None;
     ChatCompletionRequest.top_p := None;
     ChatCompletionRequest.n := None;
     ChatCompletionRequest.stream := None;
     ChatCompletionRequest.stop := None;
     ChatCompletionRequest.max_tokens := None;
     ChatCompletionRequest.presence_penalty := None;
     ChatCompletionRequest.frequency_penalty := None;
     ChatCompletionRequest.logit_bias := None;
     ChatCompletionRequest.user := None;
     ChatCompletionRequest.tools := None;
     ChatCompletionRequest.tool_choice := None |}.

Definition http : _BaseHTTP.t :=
  {| _BaseHTTP.api_key := lit "test-key";
     _BaseHTTP.base_url := DEFAULT_BASE_URL;
     _BaseHTTP.timeout := FDec 30 0 |}.

(** A runtime for the examples: the limits of an interpreter as it
    starts; no example holds a string or a float where an integer is
    expected, so the conversions are left out. *)
Definition runtime : Runtime :=
  {| recursion_budget := 900;
     int_max_str_digits := 4300;
     str_as_int := fun _ => None;
     float_as_int := fun _ => None |}.

(** A response with a body of ASCII characters: its three views agree. *)
Definition ascii_response (status : Z) (body url : text) (lines : source)
  : Response :=
  {| status_code := status;
     text_ := body;
     json_ := @json.loads runtime body;
     read_ := body;
     url := url;
     lines := lines |}.

(** httpx encodes the values of the headers as ASCII when a client is
    built, and raises [UnicodeEncodeError] for one that has another
    character. *)
Definition httpx (base_url : text) (headers : list (text * text))
    (timeout : pyfloat) : option exn :=
  if forallb (fun kv => forallb (fun c => c <? 128) (snd kv)) headers
  then None else Some UnicodeEncodeError.

(** A world whose server answers every request with the same response. *)
Definition world (r : Response) : World :=
  {| getenv := fun _ => None; server := fun _ => Ok r; httpx_client := httpx |}.

Definition unauthorized : Response :=
  ascii_response 401 (qlit "{'error':'invalid api key'}")
    (lit "https://api.publicai.co/v1/chat/completions") Exhausted.

(** The answer of the fake backend of [test_chat_create_builds_request]. *)
Definition completion : Response :=
  ascii_response 200
    (qlit "{'id':'abc','object':'chat.completion','created':0,'model':'test','choices':[{'index':0,'message':{'role':'assistant','content':'hi'}}],'usage':{'prompt_tokens':1,'completion_tokens':1,'total_tokens':2}}")
    (lit "https://api.publicai.co/v1/chat/completions") Exhausted.

(** The request with an explicit [stream=True]. *)
Definition request_stream_true : ChatCompletionRequest.t :=
  ChatCompletionRequest.with_stream request (Some true).

(** A streamed response that breaks off after two frames. *)
Definition broken_stream : Response :=
  ascii_response 200 [] (lit "https://api.publicai.co/v1/chat/completions")
    (Line he_frame (Line llo_frame (Broken timeout_error))).
End Sample.

(* ================================================================= *)
(** ** More sample data *)

Module Fixture.
(** A list of two models, the second with fields the client does not
    know. *)
Definition models : Response :=
  Sample.ascii_response 200
    (qlit "{'object':'list','data':[{'id':'swiss-ai/apertus-8b-instruct','object':'model'},{'id':'other/model','owned_by':'x','context':4096}]}")
    (lit "https://api.publicai.co/v1/models") Exhausted.

Definition model_entry : dict :=
  [ (lit "id", PStr (lit "other/model"));
    (lit "owned_by", PStr (lit "x"));
    (lit "context", PInt 4096) ].

(** An environment that holds a key. *)
Definition world_with_key : World :=
  {| getenv := fun name =>
       if text_eqb name (lit "APERTUS_API_KEY")
       then Some (lit "env-key") else None;
     server := fun _ => Ok models;
     httpx_client := Sample.httpx |}.
End Fixture.

(* ================================================================= *)
(** ** Notions for the demo *)

(** An input line that is neither empty nor a command: a message for the
    model. *)
Definition is_chat_line (user : text) : bool :=
  nonempty user
  && negb (text_eqb user (lit "/exit"))
  && negb (text_eqb user (lit "/help"))
  && negb (text_eqb user (lit "/clear"))
  && negb (startswith (lit "/model ") user).


(* ================================================================= *)
(** ** Sample data for the demo *)

Module DemoFixture.
(** Lower case of the ASCII letters. *)
Definition ascii_lower (s : text) : text :=
  map (fun c => if (65 <=? c) && (c <=? 90) then c + 32 else c) s.

Definition client : Apertus.t := {| Apertus._http := Sample.http |}.

Definition args : conversation_demo.args :=
  {| conversation_demo.api_key := Some (lit "test-key");
     conversation_demo.model := conversation_demo.PREFERRED_MODEL;
     conversation_demo.system := Some (lit "Be brief.");
     conversation_demo.temperature := FDec 2 (-1);
     conversation_demo.max_tokens := 512;
     conversation_demo.base_url := lit "https://api.publicai.co";
     conversation_demo.timeout := FDec 60 0;
     conversation_demo.no_stream := false |}.

Definition session : conversation_demo.session :=
  {| conversation_demo.model_id := lit "swiss-ai/apertus-8b-instruct";
     conversation_demo.messages :=
       [conversation_demo.message ChatMessage.system (lit "Be brief.")] |}.

(** A streamed reply: "he", "llo", then the sentinel. *)
Definition reply : Response :=
  Sample.ascii_response 200 []
    (lit "https://api.publicai.co/v1/chat/completions")
    (lines_then [Sample.role_frame; Sample.he_frame; Sample.keepalive;
                 Sample.llo_frame]
       (Line Sample.done Exhausted)).

(** A server that lists the models of [Fixture.models] and answers every
    other request with the streamed reply. *)
Definition world : World :=
  {| getenv := fun _ => None;
     server := fun req =>
       if text_eqb (path req) MODELS_PATH then Ok Fixture.models else Ok reply;
     httpx_client := Sample.httpx |}.
End DemoFixture.

(* ================================================================= *)
(** ** Basic facts *)

Lemma text_eqb_eq (a b : text) : text_eqb a b = true <-> a = b.
Proof.
  revert b; induction a as [|x a IH]; intros [|y b]; simpl;
    try (split; [discriminate | discriminate]); try tauto.
  rewrite andb_true_iff, Z.eqb_eq, IH.
  split; [intros [-> ->]; reflexivity | intros H; injection H; auto].
Qed.

Lemma text_eqb_refl (a : text) : text_eqb a a = true.
Proof. apply text_eqb_eq; reflexivity. Qed.

Lemma loads_empty {rt : Runtime} : json.loads [] = Raise JSONDecodeError.
Proof. reflexivity. Qed.

Lemma loads_sentinel {rt : Runtime} (v : pyval) : json.loads SENTINEL <> Ok v.
Proof.
  unfold json.loads. destruct recursion_budget; vm_compute; discriminate.
Qed.

(* ================================================================= *)
(** ** The scanner never runs out of fuel *)

Module json_facts.
Import json.

Local Open Scope nat_scope.

Lemma skip_ws_length (s : text) : List.length (skip_ws s) <= List.length s.
Proof.
  induction s as [|c s IH]; simpl; [lia|].
  destruct (is_ws c); simpl; lia.
Qed.

Lemma take_digits_length (s ds r : text) :
  take_digits s = (ds, r) -> List.length s = List.length ds + List.length r.
Proof.
  revert ds r. induction s as [|c s IH]; simpl; intros ds r H.
  - injection H as <- <-. reflexivity.
  - destruct (is_digit c).
    + destruct (take_digits s) as [ds' r'] eqn:E.
      injection H as <- <-. simpl. rewrite (IH ds' r' eq_refl). lia.
    + injection H as <- <-. reflexivity.
Qed.

Lemma push_some (c : Z) (x : option (text * text)) (str r : text) :
  push c x = Some (str, r) -> exists str', x = Some (str', r).
Proof.
  destruct x as [[str' r']|]; simpl; intros H; [|discriminate].
  injection H as _ <-. exists str'. reflexivity.
Qed.

Ltac after_push IH H :=
  apply push_some in H; destruct H as [? H]; apply IH in H;
  simpl List.length in *; lia.

(** A string takes at least its closing quote. *)
Lemma scanstring_shorter (n : nat) :
  forall s str r, List.length s <= n ->
    scanstring s = Some (str, r) -> List.length r < List.length s.
Proof.
  induction n as [|n IH]; intros s str r Hn H.
  - destruct s; [discriminate | simpl in Hn; lia].
  - destruct s as [|c s1]; [discriminate|].
    simpl in Hn. cbn [scanstring] in H.
    destruct (Z.eqb c 34).
    { injection H as _ <-. simpl. lia. }
    destruct (Z.eqb c 92).
    2:{ destruct (Z.leb c 31); [discriminate|]. after_push IH H. }
    destruct s1 as [|e s2]; [discriminate|]. simpl in Hn.
    destruct (Z.eqb e 117).
    2:{ destruct (simple_escape e); [|discriminate]. after_push IH H. }
    destruct s2 as [|h1 [|h2 [|h3 [|h4 s3]]]]; try discriminate.
    simpl in Hn.
    destruct (hex4 h1 h2 h3 h4) as [u|]; [|discriminate].
    destruct (is_high_surrogate u); [|after_push IH H].
    destruct s3 as [|b [|u' [|g1 [|g2 [|g3 [|g4 s4]]]]]];
      try (after_push IH H).
    simpl in Hn.
    destruct (Z.eqb b 92 && Z.eqb u' 117)%bool; [|after_push IH H].
    destruct (hex4 g1 g2 g3 g4) as [u2|]; [|discriminate].
    destruct (is_low_surrogate u2); after_push IH H.
Qed.

Lemma number_sign_length (s s0 : text) (neg : bool) :
  number_sign s = (neg, s0) -> List.length s0 <= List.length s.
Proof.
  destruct s as [|c s']; simpl; [intros H; injection H as _ <-; simpl; lia|].
  destruct (Z.eqb c 45); intros H; injection H as _ <-; simpl; lia.
Qed.

Lemma number_int_length (s ids r : text) :
  number_int s = Some (ids, r) -> List.length r < List.length s.
Proof.
  destruct s as [|c s1]; [discriminate|]. unfold number_int.
  destruct (Z.eqb c 48).
  - intros H. injection H as _ <-. simpl. lia.
  - destruct (is_digit c) eqn:Hd; [|discriminate].
    intros H. injection H as H. simpl in H. rewrite Hd in H.
    destruct (take_digits s1) as [ds' r'] eqn:E. injection H as _ <-.
    apply take_digits_length in E. simpl. lia.
Qed.

Lemma number_frac_length (s fds r : text) :
  number_frac s = (fds, r) -> List.length r <= List.length s.
Proof.
  unfold number_frac. destruct s as [|c [|d s']];
    try (intros H; injection H as _ <-; lia).
  destruct (Z.eqb c 46 && is_digit d)%bool.
  - intros H. apply take_digits_length in H. simpl in *. lia.
  - intros H; injection H as _ <-; lia.
Qed.

Lemma number_exp_length (s r : text) (ex : option Z) :
  number_exp s = (ex, r) -> List.length r <= List.length s.
Proof.
  unfold number_exp. destruct s as [|c s']; [intros H; injection H as _ <-; lia|].
  destruct (Z.eqb c 101 || Z.eqb c 69)%bool;
    [|intros H; injection H as _ <-; lia].
  destruct (match s' with [] => _ | _ => _ end) as [eneg s''] eqn:E.
  assert (Hsign : List.length s'' <= List.length s').
  { destruct s' as [|g r0]; [injection E as _ <-; lia|].
    destruct (Z.eqb g 45); [injection E as _ <-; simpl; lia|].
    destruct (Z.eqb g 43); injection E as _ <-; simpl; lia. }
  clear E.
  destruct (take_digits s'') as [[|d ds] r'] eqn:Et.
  - intros H; injection H as _ <-; lia.
  - apply take_digits_length in Et. intros H; injection H as _ <-.
    simpl in *. lia.
Qed.

Lemma match_number_shorter {rt : Runtime} (s r : text) (v : result pyval) :
  match_number s = Some (v, r) -> List.length r < List.length s.
Proof.
  unfold match_number.
  destruct (number_sign s) as [neg s0] eqn:Es.
  destruct (number_int s0) as [[ids s1]|] eqn:Ei; [|discriminate].
  destruct (number_frac s1) as [fds s2] eqn:Ef.
  destruct (number_exp s2) as [ex s3] eqn:Ee.
  apply number_sign_length in Es. apply number_int_length in Ei.
  apply number_frac_length in Ef. apply number_exp_length in Ee.
  destruct fds, ex; try destruct (too_many_digits _);
    intros H0; injection H0 as _ <-; lia.
Qed.

(** A number fails only for the length of an integer literal. *)
Lemma match_number_raises {rt : Runtime} (s r : text) (e : exn) :
  match_number s = Some (Raise e, r) -> exists msg, e = ValueError msg.
Proof.
  unfold match_number.
  destruct (number_sign s) as [neg s0].
  destruct (number_int s0) as [[ids s1]|]; [|discriminate].
  destruct (number_frac s1) as [fds s2].
  destruct (number_exp s2) as [ex s3].
  destruct fds, ex; try destruct (too_many_digits _);
    intros H0; try discriminate H0.
  injection H0 as <- _. eexists. reflexivity.
Qed.

Lemma startswith_length (p s : text) :
  startswith p s = true -> List.length p <= List.length s.
Proof.
  revert s. induction p as [|x p IH]; intros [|c s]; simpl; intros H.
  - lia.
  - lia.
  - discriminate H.
  - apply andb_true_iff in H. destruct H as [_ H].
    apply IH in H. lia.
Qed.

Lemma drop_literal (p : string) (s : text) (n : nat) :
  startswith (lit p) s = true -> n = List.length (lit p) -> 0 < n ->
  List.length (drop n s) < List.length s.
Proof.
  intros H -> Hpos. apply startswith_length in H.
  unfold drop. rewrite length_skipn. lia.
Qed.

Lemma within_fuel_invalid (s : text) : within_fuel Invalid s.
Proof. split; [discriminate | intros v r H; discriminate H]. Qed.

Lemma within_fuel_failed (e : exn) (s : text) : within_fuel (Failed e) s.
Proof. split; [discriminate | intros v r H; discriminate H]. Qed.

Lemma within_fuel_value (v : pyval) (r s : text) :
  List.length r < List.length s -> within_fuel (Value v r) s.
Proof.
  intros H. split; [discriminate|].
  intros v' r' E. injection E as _ <-. exact H.
Qed.

Lemma within_fuel_weaken (x : scanned) (s s' : text) :
  within_fuel x s -> List.length s <= List.length s' -> within_fuel x s'.
Proof.
  intros [Hne Hv] Hle. split; [exact Hne|].
  intros v r E. apply Hv in E. lia.
Qed.

Lemma scanner_within_fuel {rt : Runtime} (fuel : nat) :
  (forall depth s, 2 * List.length s < fuel ->
     within_fuel (scan_once fuel depth s) s)
  /\ (forall depth s acc, 2 * List.length s + 1 < fuel ->
        within_fuel (parse_object fuel depth s acc) s)
  /\ (forall depth s acc, 2 * List.length s + 1 < fuel ->
        within_fuel (parse_array fuel depth s acc) s).
Proof.
  induction fuel as [|fuel (IHscan & IHobj & IHarr)].
  - repeat split; intros; lia.
  - split; [|split].
    + (* scan_once *)
      intros depth s Hf. destruct s as [|c s1]; [apply within_fuel_invalid|].
      simpl List.length in Hf. cbn [scan_once].
      destruct (Z.eqb c 34).
      { destruct (scanstring s1) as [[str r]|] eqn:E;
          [|apply within_fuel_invalid].
        apply within_fuel_value.
        apply (scanstring_shorter _ _ _ _ (le_n _)) in E. simpl. lia. }
      destruct (Z.eqb c 123).
      { destruct depth as [|depth]; [apply within_fuel_failed|].
        pose proof (skip_ws_length s1) as Hws.
        destruct (skip_ws s1) as [|c2 s2] eqn:E; [apply within_fuel_invalid|].
        destruct (Z.eqb c2 125).
        - apply within_fuel_value. simpl in *. lia.
        - eapply within_fuel_weaken; [apply IHobj|]; simpl in *; lia. }
      destruct (Z.eqb c 91).
      { destruct depth as [|depth]; [apply within_fuel_failed|].
        pose proof (skip_ws_length s1) as Hws.
        destruct (skip_ws s1) as [|c2 s2] eqn:E; [apply within_fuel_invalid|].
        destruct (Z.eqb c2 93).
        - apply within_fuel_value. simpl in *. lia.
        - eapply within_fuel_weaken; [apply IHarr|]; simpl in *; lia. }
      repeat match goal with
             | |- within_fuel (if startswith (lit ?p) ?s then _ else _) _ =>
                 let E := fresh "E" in
                 destruct (startswith (lit p) s) eqn:E;
                 [ apply within_fuel_value;
                   apply (drop_literal p); [exact E | reflexivity | lia] | ]
             end.
      destruct (match_number (c :: s1)) as [[[v|e] r]|] eqn:En;
        [ | apply within_fuel_failed | apply within_fuel_invalid].
      apply within_fuel_value. apply match_number_shorter in En. exact En.
    + (* parse_object *)
      intros depth s acc Hf. cbn [parse_object].
      destruct s as [|c s1]; [apply within_fuel_invalid|].
      simpl List.length in Hf.
      destruct (Z.eqb c 34); [|apply within_fuel_invalid].
      destruct (scanstring s1) as [[key r]|] eqn:E; [|apply within_fuel_invalid].
      apply (scanstring_shorter _ _ _ _ (le_n _)) in E.
      pose proof (skip_ws_length r) as Hws.
      destruct (skip_ws r) as [|colon r1]; [apply within_fuel_invalid|].
      destruct (Z.eqb colon 58); [|apply within_fuel_invalid].
      pose proof (skip_ws_length r1) as Hws1. simpl in Hws.
      assert (Hval : within_fuel (scan_once fuel depth (skip_ws r1)) (skip_ws r1))
        by (apply IHscan; lia).
      destruct (scan_once fuel depth (skip_ws r1)) as [v r2| |e|] eqn:Ev;
        [ | apply within_fuel_invalid | apply within_fuel_failed
          | exfalso; apply (proj1 Hval); reflexivity ].
      destruct Hval as [_ Hval]. specialize (Hval v r2 eq_refl).
      pose proof (skip_ws_length r2) as Hws2.
      destruct (skip_ws r2) as [|d r3]; [apply within_fuel_invalid|].
      simpl in Hws2.
      destruct (Z.eqb d 125).
      { apply within_fuel_value. simpl. lia. }
      destruct (Z.eqb d 44); [|apply within_fuel_invalid].
      pose proof (skip_ws_length r3) as Hws3.
      eapply within_fuel_weaken; [apply IHobj|]; simpl; lia.
    + (* parse_array *)
      intros depth s acc Hf. cbn [parse_array].
      assert (Hval : within_fuel (scan_once fuel depth s) s)
        by (apply IHscan; lia).
      destruct (scan_once fuel depth s) as [v r| |e|] eqn:Ev;
        [ | apply within_fuel_invalid | apply within_fuel_failed
          | exfalso; apply (proj1 Hval); reflexivity ].
      destruct Hval as [_ Hval]. specialize (Hval v r eq_refl).
      pose proof (skip_ws_length r) as Hws.
      destruct (skip_ws r) as [|d r1]; [apply within_fuel_invalid|].
      simpl in Hws.
      destruct (Z.eqb d 93).
      { apply within_fuel_value. lia. }
      destruct (Z.eqb d 44); [|apply within_fuel_invalid].
      pose proof (skip_ws_length r1) as Hws1.
      eapply within_fuel_weaken; [apply IHarr|]; lia.
Qed.

(** The scanner fails only at a limit of the interpreter. *)
Lemma scanner_failures {rt : Runtime} (fuel : nat) :
  (forall depth s e, scan_once fuel depth s = Failed e -> limit_error e)
  /\ (forall depth s acc e,
        parse_object fuel depth s acc = Failed e -> limit_error e)
  /\ (forall depth s acc e,
        parse_array fuel depth s acc = Failed e -> limit_error e).
Proof.
  induction fuel as [|fuel (IHscan & IHobj & IHarr)].
  - repeat split; intros; discriminate.
  - split; [|split].
    + intros depth s e. cbn [scan_once].
      destruct s as [|c s1]; [discriminate|].
      destruct (Z.eqb c 34).
      { destruct (scanstring s1) as [[str r]|]; discriminate. }
      destruct (Z.eqb c 123).
      { destruct depth as [|depth].
        - intros H0. injection H0 as <-. left. reflexivity.
        - destruct (skip_ws s1) as [|c2 s2]; [discriminate|].
          destruct (Z.eqb c2 125); [discriminate | apply IHobj]. }
      destruct (Z.eqb c 91).
      { destruct depth as [|depth].
        - intros H0. injection H0 as <-. left. reflexivity.
        - destruct (skip_ws s1) as [|c2 s2]; [discriminate|].
          destruct (Z.eqb c2 93); [discriminate | apply IHarr]. }
      repeat match goal with
             | |- (if startswith ?p ?s then _ else _) = _ -> _ =>
                 destruct (startswith p s); [discriminate|]
             end.
      destruct (match_number (c :: s1)) as [[[v|e'] r]|] eqn:En;
        try discriminate.
      intros H0. injection H0 as <-. right.
      exact (match_number_raises _ _ _ En).
    + intros depth s acc e. cbn [parse_object].
      destruct s as [|c s1]; [discriminate|].
      destruct (Z.eqb c 34); [|discriminate].
      destruct (scanstring s1) as [[key r]|]; [|discriminate].
      destruct (skip_ws r) as [|colon r1]; [discriminate|].
      destruct (Z.eqb colon 58); [|discriminate].
      destruct (scan_once fuel depth (skip_ws r1)) as [v r2| |e'|] eqn:Ev;
        try discriminate.
      * destruct (skip_ws r2) as [|d r3]; [discriminate|].
        destruct (Z.eqb d 125); [discriminate|].
        destruct (Z.eqb d 44); [apply IHobj | discriminate].
      * intros H0. injection H0 as <-. exact (IHscan _ _ _ Ev).
    + intros depth s acc e. cbn [parse_array].
      destruct (scan_once fuel depth s) as [v r| |e'|] eqn:Ev;
        try discriminate.
      * destruct (skip_ws r) as [|d r1]; [discriminate|].
        destruct (Z.eqb d 93); [discriminate|].
        destruct (Z.eqb d 44); [apply IHarr | discriminate].
      * intros H0. injection H0 as <-. exact (IHscan _ _ _ Ev).
Qed.

(** [json.loads] raises [JSONDecodeError], or fails at a limit of the
    interpreter; the fuel of the scanner is never used up. *)
Lemma loads_raises {rt : Runtime} (s : text) (e : exn) :
  loads s = Raise e -> e = JSONDecodeError \/ limit_error e.
Proof.
  unfold loads.
  assert (Hscan : scan_once (2 * List.length s + 2) recursion_budget (skip_ws s)
                  <> OutOfFuel).
  { apply (proj1 (scanner_within_fuel _)).
    pose proof (skip_ws_length s). lia. }
  destruct (startswith [65279%Z] s); [left; congruence|].
  destruct (scan_once _ _ _) as [v rest| |e'|] eqn:Es.
  - destruct (skip_ws rest); [discriminate | left; congruence].
  - left. congruence.
  - intros H0. injection H0 as <-. right.
    exact (proj1 (scanner_failures _) _ _ _ Es).
  - exfalso. apply Hscan. reflexivity.
Qed.

End json_facts.

(** The body of the loop, unfolded once over the payload of the line. *)
Lemma stream_line_unfold {rt : Runtime} (l : raw_line) (t : text) :
  line_text l = Some t ->
  _ChatCompletions.stream_line l =
    if negb (nonempty (strip t)) then Continue
    else if text_eqb (payload_of_text t) SENTINEL then Break
    else match json.loads (payload_of_text t) with
         | Raise JSONDecodeError => Continue
         | Raise e => Throw e
         | Ok obj =>
             match ChatCompletionChunk.model_validate obj with
             | Raise e => Throw e
             | Ok chunk => Yield (event_of_chunk chunk)
             end
         end.
Proof.
  intros Ht. unfold _ChatCompletions.stream_line.
  assert (Hdec : match l with
                 | LineBytes b => bytes_decode b
                 | LineStr s => Ok s
                 end = Ok t).
  { destruct l as [s|b]; simpl in Ht.
    - congruence.
    - unfold bytes_decode. rewrite Ht. reflexivity. }
  rewrite Hdec. reflexivity.
Qed.

(** An empty line has an empty payload. *)
Lemma payload_of_blank (t : text) :
  nonempty (strip t) = false -> payload_of_text t = [].
Proof.
  unfold payload_of_text. destruct (strip t); [reflexivity | discriminate].
Qed.

Lemma stream_line_valid {rt : Runtime} (l : raw_line) (c : ChatCompletionChunk.t) :
  frame_chunk l = Some c ->
  _ChatCompletions.stream_line l = Yield (event_of_chunk c).
Proof.
  unfold frame_chunk, frame_payload. intros H.
  destruct (line_text l) as [t|] eqn:Ht; [|discriminate]. simpl in H.
  rewrite (stream_line_unfold l t Ht).
  destruct (json.loads (payload_of_text t)) as [obj|e] eqn:Hl; [|discriminate].
  destruct (nonempty (strip t)) eqn:Hne; simpl.
  - destruct (text_eqb (payload_of_text t) SENTINEL) eqn:Hs.
    + apply text_eqb_eq in Hs. rewrite Hs in Hl.
      destruct (loads_sentinel _ Hl).
    + destruct (ChatCompletionChunk.model_validate obj); congruence.
  - rewrite (payload_of_blank t Hne), loads_empty in Hl. discriminate.
Qed.

Lemma stream_line_malformed {rt : Runtime} (l : raw_line) :
  is_malformed_frame l = true -> _ChatCompletions.stream_line l = Continue.
Proof.
  unfold is_malformed_frame, frame_payload. intros H.
  destruct (line_text l) as [t|] eqn:Ht; [|discriminate]. simpl in H.
  rewrite (stream_line_unfold l t Ht).
  apply andb_true_iff in H. destruct H as [Hs Hl].
  apply negb_true_iff in Hs. rewrite Hs.
  destruct (nonempty (strip t)); simpl; [|reflexivity].
  destruct (json.loads (payload_of_text t)) as [obj|[]]; try discriminate.
  reflexivity.
Qed.


(** A line is of one kind at most. *)
Lemma valid_not_malformed {rt : Runtime} (l : raw_line) :
  is_malformed_frame l = true -> frame_chunk l = None.
Proof.
  unfold is_malformed_frame, frame_chunk.
  destruct (frame_payload l) as [p|]; [|reflexivity].
  destruct (json.loads p); [|reflexivity].
  rewrite andb_false_r. discriminate.
Qed.

(** The loop over a prefix of valid and malformed frames. *)
Lemma stream_loop_frames {rt : Runtime} (pre : list raw_line) (tail : source) :
  Forall (fun l => is_valid_frame l = true \/ is_malformed_frame l = true) pre ->
  _ChatCompletions.stream_loop (lines_then pre tail) =
    let r := _ChatCompletions.stream_loop tail in
    {| events := map event_of_chunk (valid_chunks pre) ++ events r;
       raised := raised r;
       unread := unread r |}.
Proof.
  induction 1 as [|l pre Hl _ IH]; simpl.
  - destruct (_ChatCompletions.stream_loop tail); reflexivity.
  - destruct Hl as [Hv|Hm].
    + unfold is_valid_frame in Hv.
      destruct (frame_chunk l) as [c|] eqn:Hc; [|discriminate].
      rewrite (stream_line_valid l c Hc), IH. reflexivity.
    + rewrite (stream_line_malformed l Hm), (valid_not_malformed l Hm), IH.
      reflexivity.
Qed.

(* ================================================================= *)
(** ** The stream decoder *)


#[local] Existing Instance Sample.runtime.
#[local] Remove Hints Sample.runtime : typeclass_instances.

#[local] Existing Instance Sample.runtime.
(** C3, as the specification has it, fails: a frame whose chunk has an empty
    list of choices is not dropped.  The line [data: {"choices":[]}] is a
    valid frame, its chunk has no choice, and the decoder yields an event
    for it. *)
Lemma empty_choices_frame_is_not_dropped :
  frame_chunk Sample.no_choice_frame = Some Sample.no_choice_chunk
  /\ ChatCompletionChunk.choices Sample.no_choice_chunk = []
  /\ events (_ChatCompletions.stream_loop (Line Sample.no_choice_frame Exhausted))
     = [ {| StreamEvent.delta := None;
            StreamEvent.choice_index := 0;
            StreamEvent.raw := Sample.no_choice_chunk |} ]
  /\ events (_ChatCompletions.stream_loop (Line Sample.no_choice_frame Exhausted))
     <> [].
Proof.
  repeat split; try (vm_compute; reflexivity).
  vm_compute. discriminate.
Qed.
#[local] Remove Hints Sample.runtime : typeclass_instances.

(** C3, amended.  For every frame that decodes to a valid chunk whose list
    of choices is empty, the decoder yields exactly one event for that
    frame: its delta is absent, its choice index is 0 and its raw field is
    the chunk; then the loop goes on with the next line. *)
Theorem empty_choices_frame_yields_event {rt : Runtime}
    (line : raw_line) (chunk : ChatCompletionChunk.t) (rest : source) :
  frame_chunk line = Some chunk ->
  ChatCompletionChunk.choices chunk = [] ->
  let ev := {| StreamEvent.delta := None;
               StreamEvent.choice_index := 0;
               StreamEvent.raw := chunk |} in
  _ChatCompletions.stream_line line = Yield ev
  /\ _ChatCompletions.stream_loop (Line line rest) =
       yielding ev (_ChatCompletions.stream_loop rest).
Proof.
  intros Hc Hempty ev.
  assert (Hev : event_of_chunk chunk = ev).
  { unfold event_of_chunk, first_delta, ev. rewrite Hempty. reflexivity. }
  pose proof (stream_line_valid line chunk Hc) as Hline.
  rewrite Hev in Hline. split; [exact Hline|].
  simpl. rewrite Hline. reflexivity.
Qed.

#[local] Existing Instance Sample.runtime.
Lemma empty_choices_frame_yields_event_witness :
  let ev := {| StreamEvent.delta := None;
               StreamEvent.choice_index := 0;
               StreamEvent.raw := Sample.no_choice_chunk |} in
  _ChatCompletions.stream_line Sample.no_choice_frame = Yield ev
  /\ _ChatCompletions.stream_loop
       (Line Sample.no_choice_frame (Line Sample.done Exhausted)) =
       yielding ev (_ChatCompletions.stream_loop (Line Sample.done Exhausted)).
Proof.
  apply (empty_choices_frame_yields_event
           Sample.no_choice_frame Sample.no_choice_chunk
           (Line Sample.done Exhausted)).
  - vm_compute. reflexivity.
  - reflexivity.
Defined.
#[local] Remove Hints Sample.runtime : typeclass_instances.

(* ================================================================= *)
(** ** Validation errors *)

Ltac validation_step :=
  match goal with
  | H : Raise _ = Raise _ |- _ => injection H as H; subst; try reflexivity
  | H : Ok _ = Raise _ |- _ => discriminate H
  | H : (if ?b then _ else _) = Raise _ |- _ => destruct b
  | H : bind ?r _ = Raise _ |- _ =>
      let E := fresh "E" in destruct r eqn:E; simpl in H
  end.

Lemma validate_str_raises : raises_validation_error validate_str.
Proof. intros [] e H; simpl in H; repeat validation_step. Qed.

Lemma converted_raises (z : option Z) (e : exn) :
  converted z = Raise e -> e = ValidationError.
Proof. destruct z; simpl; congruence. Qed.

Lemma validate_int_raises {rt : Runtime} : raises_validation_error validate_int.
Proof.
  intros v e H0. destruct v; simpl in H0;
    try (apply converted_raises in H0; exact H0); congruence.
Qed.

Lemma required_raises {A} (f : pyval -> result A) (k : string) :
  raises_validation_error f -> raises_validation_error (required f k).
Proof.
  intros Hf d e H. unfold required in H.
  destruct (dict_get (lit k) d) as [v|]; [eauto | repeat validation_step].
Qed.

Lemma optional_raises {A} (f : pyval -> result A) (k : string) :
  raises_validation_error f -> raises_validation_error (optional f k).
Proof.
  intros Hf d e H. unfold optional in H.
  destruct (dict_get (lit k) d) as [v|]; [|discriminate].
  destruct v; try discriminate;
    (destruct (f _) eqn:E; simpl in H; [discriminate|];
     injection H as <-; eapply Hf; eassumption).
Qed.

Lemma mapM_raises {A B} (f : A -> result B) :
  raises_validation_error f -> raises_validation_error (mapM f).
Proof.
  intros Hf l. induction l as [|a l IH]; intros e H; simpl in H.
  - discriminate.
  - destruct (f a) eqn:E; simpl in H.
    + destruct (mapM f l) eqn:E'; simpl in H; [discriminate|].
      injection H as <-. apply IH. reflexivity.
    + injection H as <-. eapply Hf; eassumption.
Qed.

Lemma validate_list_raises {A} (f : pyval -> result A) :
  raises_validation_error f -> raises_validation_error (validate_list f).
Proof.
  intros Hf v e H. destruct v; simpl in H;
    try (injection H as <-; reflexivity).
  eapply mapM_raises; eassumption.
Qed.

Lemma validate_model_raises {A} (fields : dict -> result A) :
  raises_validation_error fields ->
  raises_validation_error (validate_model fields).
Proof.
  intros Hf v e H. destruct v; simpl in H;
    try (injection H as <-; reflexivity).
  eapply Hf; eassumption.
Qed.

Ltac field_step :=
  match goal with
  | H : bind (optional ?f ?k ?d) _ = Raise _ |- _ =>
      let E := fresh "E" in
      destruct (optional f k d) eqn:E; simpl in H;
      [ | injection H as <-; eapply (optional_raises f k); [ | exact E ] ]
  | H : bind (required ?f ?k ?d) _ = Raise _ |- _ =>
      let E := fresh "E" in
      destruct (required f k d) eqn:E; simpl in H;
      [ | injection H as <-; eapply (required_raises f k); [ | exact E ] ]
  | H : Ok _ = Raise _ |- _ => discriminate H
  end.

Lemma ChatChoiceDelta_raises :
  raises_validation_error ChatChoiceDelta.model_validate.
Proof.
  apply validate_model_raises. intros d e H.
  repeat field_step; auto using validate_str_raises.
Qed.

Lemma ChatChoiceMessage_raises :
  raises_validation_error ChatChoiceMessage.model_validate.
Proof.
  apply validate_model_raises. intros d e H.
  repeat field_step; auto using validate_str_raises.
Qed.

Lemma ChatChoice_raises {rt : Runtime} : raises_validation_error ChatChoice.model_validate.
Proof.
  apply validate_model_raises. intros d e H.
  repeat field_step;
    auto using validate_str_raises, validate_int_raises,
               ChatChoiceDelta_raises, ChatChoiceMessage_raises.
Qed.

Lemma ChatCompletionChunk_raises {rt : Runtime} :
  raises_validation_error ChatCompletionChunk.model_validate.
Proof.
  apply validate_model_raises. intros d e H.
  repeat field_step;
    auto using validate_str_raises, validate_int_raises,
               validate_list_raises, ChatChoice_raises.
Qed.

(** The two violations that the specification names. *)
Lemma not_an_object_is_invalid {rt : Runtime} (obj : pyval) :
  (forall d, obj <> PDict d) ->
  ChatCompletionChunk.model_validate obj = Raise ValidationError.
Proof.
  intros H. destruct obj; try reflexivity. exfalso. eapply H. reflexivity.
Qed.

Lemma missing_choices_is_invalid {rt : Runtime} (d : dict) :
  dict_get (lit "choices") d = None ->
  ChatCompletionChunk.model_validate (PDict d) = Raise ValidationError.
Proof.
  intros H.
  destruct (ChatCompletionChunk.model_validate (PDict d)) as [c|e] eqn:E.
  - exfalso. unfold ChatCompletionChunk.model_validate, validate_model in E.
    repeat match type of E with
           | bind (optional ?f ?k ?d) _ = _ =>
               destruct (optional f k d); simpl in E; [|discriminate]
           end.
    unfold required in E. rewrite H in E. discriminate.
  - f_equal. eapply ChatCompletionChunk_raises. exact E.
Qed.

(** C5.  A frame whose payload is valid JSON, but whose value is not a
    chunk (it violates the schema of [ChatCompletionChunk]: not an object,
    the required field [choices] missing, a field of the wrong type), makes
    the decoder raise a validation error: the line is not skipped as a
    malformed one is, no event is yielded for it, the stream ends there with
    the error reaching the caller, and the lines after it stay unread. *)
Theorem schema_violation_propagates {rt : Runtime}
    (line : raw_line) (p : text) (obj : pyval) (e : exn) (rest : source) :
  frame_payload line = Some p ->
  json.loads p = Ok obj ->
  ChatCompletionChunk.model_validate obj = Raise e ->
  e = ValidationError
  /\ _ChatCompletions.stream_line line = Throw ValidationError
  /\ _ChatCompletions.stream_line line <> Continue
  /\ _ChatCompletions.stream_loop (Line line rest) =
       {| events := []; raised := Some ValidationError; unread := rest |}.
Proof.
  intros Hp Hl Hv.
  assert (He : e = ValidationError) by (eapply ChatCompletionChunk_raises; eauto).
  subst e.
  assert (Hline : _ChatCompletions.stream_line line = Throw ValidationError).
  { unfold frame_payload in Hp.
    destruct (line_text line) as [t|] eqn:Ht; [|discriminate].
    injection Hp as Hp. subst p.
    rewrite (stream_line_unfold line t Ht), Hl, Hv.
    destruct (nonempty (strip t)) eqn:Hne; simpl.
    - destruct (text_eqb (payload_of_text t) SENTINEL) eqn:Hs; [|reflexivity].
      apply text_eqb_eq in Hs. rewrite Hs in Hl.
      destruct (loads_sentinel _ Hl).
    - rewrite (payload_of_blank t Hne), loads_empty in Hl. discriminate. }
  repeat split.
  - exact Hline.
  - rewrite Hline. discriminate.
  - simpl. rewrite Hline. reflexivity.
Qed.

#[local] Existing Instance Sample.runtime.
Lemma schema_violation_propagates_witness :
  ValidationError = ValidationError
  /\ _ChatCompletions.stream_line Sample.no_choices_field = Throw ValidationError
  /\ _ChatCompletions.stream_line Sample.no_choices_field <> Continue
  /\ _ChatCompletions.stream_loop
       (Line Sample.no_choices_field (Line Sample.he_frame Exhausted)) =
       {| events := []; raised := Some ValidationError;
          unread := Line Sample.he_frame Exhausted |}.
Proof.
  apply (schema_violation_propagates Sample.no_choices_field
           (qlit "{'id':'x'}") (PDict [(lit "id", PStr (lit "x"))])
           ValidationError (Line Sample.he_frame Exhausted)).
  - vm_compute. reflexivity.
  - vm_compute. reflexivity.
  - vm_compute. reflexivity.
Defined.
#[local] Remove Hints Sample.runtime : typeclass_instances.

(* ================================================================= *)
(** ** The two surfaces *)

Lemma async_stream_line {rt : Runtime} (l : raw_line) :
  _AsyncChatCompletions.stream_line l = _ChatCompletions.stream_line l.
Proof. reflexivity. Qed.

Lemma async_stream_loop {rt : Runtime} (src : source) :
  _AsyncChatCompletions.stream_loop src = _ChatCompletions.stream_loop src.
Proof.
  induction src as [|e|l rest IH]; simpl.
  - reflexivity.
  - reflexivity.
  - rewrite async_stream_line, IH. reflexivity.
Qed.

Lemma aiter_nonempty_iter_nonempty (src : source) :
  AsyncHTTP.aiter_nonempty src = SyncHTTP.iter_nonempty src.
Proof.
  induction src as [|e|l rest IH]; simpl.
  - reflexivity.
  - reflexivity.
  - rewrite IH. reflexivity.
Qed.

Lemma async_post_stream (w : World) (http : _BaseHTTP.t) (path : text)
    (json : dict) :
  AsyncHTTP.post_stream w http path json = SyncHTTP.post_stream w http path json.
Proof.
  unfold AsyncHTTP.post_stream, SyncHTTP.post_stream.
  destruct (server w _) as [resp|e]; [|reflexivity].
  destruct (not_2xx (status_code resp)); [reflexivity|].
  rewrite aiter_nonempty_iter_nonempty. reflexivity.
Qed.

(** C7.  The decoder of the blocking surface and the decoder of the
    concurrent surface agree on every line source: the same events in the
    same order, the same way of ending (return or the same exception), the
    same lines left unread.  The same holds for the whole of [stream], from
    the keyword arguments to the events, in every world: the same request
    is sent and the same run results. *)
Theorem async_stream_equals_sync_stream {rt : Runtime} :
  (forall src : source,
     _AsyncChatCompletions.stream_loop src = _ChatCompletions.stream_loop src)
  /\ (forall (w : World) (http : _BaseHTTP.t) (kwargs : ChatCompletionRequest.t),
        _AsyncChatCompletions.stream w http kwargs
        = _ChatCompletions.stream w http kwargs).
Proof.
  split.
  - exact async_stream_loop.
  - intros w http kwargs.
    unfold _AsyncChatCompletions.stream, _ChatCompletions.stream.
    rewrite async_post_stream.
    destruct (SyncHTTP.post_stream w http CHAT_COMPLETIONS_PATH _) as [s src].
    rewrite async_stream_loop. reflexivity.
Qed.

(* ================================================================= *)
(** ** Errors of the transport in the middle of a stream *)

Lemma valid_frame_nonempty {rt : Runtime} (l : raw_line) (c : ChatCompletionChunk.t) :
  frame_chunk l = Some c -> line_nonempty l = true.
Proof.
  destruct l as [[|x s]|[|b bs]]; try reflexivity; vm_compute; discriminate.
Qed.

(** C8.  When the line source yields two lines that are valid frames and
    then raises, the caller of [stream] observes exactly two events, those
    of the two frames in their order, and then the very exception of the
    source: it is not swallowed as a decoding anomaly is.  This holds for
    the loop of [stream] over any such source, and for the whole call when
    the server answers with a 2xx response whose lines are these. *)
Theorem transport_error_after_two_frames {rt : Runtime}
    (l1 l2 : raw_line) (c1 c2 : ChatCompletionChunk.t) (e : exn)
    (w : World) (http : SyncHTTP.t) (kwargs : ChatCompletionRequest.t)
    (resp : Response) :
  frame_chunk l1 = Some c1 ->
  frame_chunk l2 = Some c2 ->
  (forall req, server w req = Ok resp) ->
  not_2xx (status_code resp) = false ->
  lines resp = Line l1 (Line l2 (Broken e)) ->
  _ChatCompletions.stream_loop (Line l1 (Line l2 (Broken e))) =
    {| events := [event_of_chunk c1; event_of_chunk c2];
       raised := Some e;
       unread := Exhausted |}
  /\ outcome (_ChatCompletions.stream w http kwargs) =
    {| events := [event_of_chunk c1; event_of_chunk c2];
       raised := Some e;
       unread := Exhausted |}.
Proof.
  intros H1 H2 Hserver Hok Hlines.
  assert (Hloop : _ChatCompletions.stream_loop (Line l1 (Line l2 (Broken e))) =
                  {| events := [event_of_chunk c1; event_of_chunk c2];
                     raised := Some e; unread := Exhausted |}).
  { simpl. rewrite (stream_line_valid l1 c1 H1), (stream_line_valid l2 c2 H2).
    reflexivity. }
  split; [exact Hloop|].
  unfold _ChatCompletions.stream, SyncHTTP.post_stream, outcome. simpl.
  rewrite Hserver, Hok, Hlines. simpl.
  rewrite (valid_frame_nonempty l1 c1 H1), (valid_frame_nonempty l2 c2 H2).
  simpl. exact Hloop.
Qed.

#[local] Existing Instance Sample.runtime.
Lemma transport_error_after_two_frames_witness :
  _ChatCompletions.stream_loop
    (Line Sample.he_frame (Line Sample.llo_frame (Broken Sample.timeout_error))) =
    {| events := map event_of_chunk
                   (valid_chunks [Sample.he_frame; Sample.llo_frame]);
       raised := Some Sample.timeout_error;
       unread := Exhausted |}
  /\ outcome (_ChatCompletions.stream (Sample.world Sample.broken_stream)
                Sample.http Sample.request) =
    {| events := map event_of_chunk
                   (valid_chunks [Sample.he_frame; Sample.llo_frame]);
       raised := Some Sample.timeout_error;
       unread := Exhausted |}.
Proof.
  apply (transport_error_after_two_frames
           Sample.he_frame Sample.llo_frame _ _ Sample.timeout_error
           (Sample.world Sample.broken_stream) Sample.http Sample.request
           Sample.broken_stream).
  - vm_compute. reflexivity.
  - vm_compute. reflexivity.
  - intros req. reflexivity.
  - reflexivity.
  - reflexivity.
Defined.
#[local] Remove Hints Sample.runtime : typeclass_instances.

(* ================================================================= *)
(** ** The error mapper *)

(** C9.  When the server answers a blocking call ([get] or [post_json], on
    either surface) with status 401 and the body
    [{"error":"invalid api key"}], the call raises [ApertusAPIError] with
    [status_code] 401 and [message] "invalid api key"; the parsed body is
    its payload.  This is what [_raise_api_error] makes of such a
    response. *)
Theorem unauthorized_error_has_status_and_message
    (w : World) (http : _BaseHTTP.t) (path path' : text) (json : dict)
    (r : Response) :
  status_code r = 401 ->
  text_ r = qlit "{'error':'invalid api key'}" ->
  Response_json r = Ok (PDict [(lit "error", PStr (lit "invalid api key"))]) ->
  (forall req, server w req = Ok r) ->
  let err := ApertusAPIError 401 (PStr (lit "invalid api key")) (Some (url r))
               (Some (PDict [(lit "error", PStr (lit "invalid api key"))])) in
  SyncHTTP._raise_api_error r = err
  /\ AsyncHTTP._raise_api_error r = err
  /\ outcome (SyncHTTP.get w http path) = Raise err
  /\ outcome (SyncHTTP.post_json w http path' json) = Raise err
  /\ outcome (AsyncHTTP.get w http path) = Raise err
  /\ outcome (AsyncHTTP.post_json w http path' json) = Raise err.
Proof.
  intros Hstatus Hbody Hjson Hserver err.
  assert (Hsync : SyncHTTP._raise_api_error r = err).
  { unfold SyncHTTP._raise_api_error.
    rewrite Hstatus, Hbody, Hjson. reflexivity. }
  assert (Hasync : AsyncHTTP._raise_api_error r = err) by exact Hsync.
  unfold SyncHTTP.get, SyncHTTP.post_json, AsyncHTTP.get, AsyncHTTP.post_json,
    outcome; simpl.
  rewrite !Hserver. simpl. rewrite Hstatus. simpl.
  rewrite Hsync, Hasync. repeat split; reflexivity.
Qed.

Lemma unauthorized_error_has_status_and_message_witness :
  let err := ApertusAPIError 401 (PStr (lit "invalid api key"))
               (Some (url Sample.unauthorized))
               (Some (PDict [(lit "error", PStr (lit "invalid api key"))])) in
  SyncHTTP._raise_api_error Sample.unauthorized = err
  /\ AsyncHTTP._raise_api_error Sample.unauthorized = err
  /\ outcome (SyncHTTP.get (Sample.world Sample.unauthorized) Sample.http
                MODELS_PATH) = Raise err
  /\ outcome (SyncHTTP.post_json (Sample.world Sample.unauthorized) Sample.http
                CHAT_COMPLETIONS_PATH
                (ChatCompletionRequest.model_dump_exclude_none Sample.request))
     = Raise err
  /\ outcome (AsyncHTTP.get (Sample.world Sample.unauthorized) Sample.http
                MODELS_PATH) = Raise err
  /\ outcome (AsyncHTTP.post_json (Sample.world Sample.unauthorized) Sample.http
                CHAT_COMPLETIONS_PATH
                (ChatCompletionRequest.model_dump_exclude_none Sample.request))
     = Raise err.
Proof.
  apply (unauthorized_error_has_status_and_message
           (Sample.world Sample.unauthorized) Sample.http).
  - reflexivity.
  - reflexivity.
  - vm_compute. reflexivity.
  - intros req. reflexivity.
Defined.

(** C2: the code at the failing input.  The server answers 401 with the
    body [{"error":"invalid api key"}].  The blocking call raises an error
    whose message is the [error] entry of the body and whose payload is the
    parsed body; the streaming call raises an error whose message is the
    whole body, unparsed, and whose payload is the request that was sent.
    The two errors differ, in the message and in the payload. *)
Theorem stream_error_is_not_mapped_like_blocking_error {rt : Runtime} :
  let w := Sample.world Sample.unauthorized in
  let payload :=
    ChatCompletionRequest.model_dump_exclude_none
      (ChatCompletionRequest.with_stream Sample.request (Some true)) in
  let blocking :=
    ApertusAPIError 401 (PStr (lit "invalid api key"))
      (Some (url Sample.unauthorized))
      (Some (PDict [(lit "error", PStr (lit "invalid api key"))])) in
  let streaming :=
    ApertusAPIError 401 (PStr (qlit "{'error':'invalid api key'}"))
      (Some (url Sample.unauthorized))
      (Some (PDict payload)) in
  outcome (SyncHTTP.post_json w Sample.http CHAT_COMPLETIONS_PATH payload)
    = Raise blocking
  /\ outcome (SyncHTTP.post_stream w Sample.http CHAT_COMPLETIONS_PATH payload)
    = Broken streaming
  /\ raised (outcome (_ChatCompletions.stream w Sample.http Sample.request))
    = Some streaming
  /\ raised (outcome (_AsyncChatCompletions.stream w Sample.http Sample.request))
    = Some streaming
  /\ streaming <> blocking.
Proof.
  repeat split; try (vm_compute; reflexivity).
  vm_compute. discriminate.
Qed.

(* ================================================================= *)
(** ** The request payload *)

Lemma dict_get_not_in (k : text) (d : dict) :
  ~ In k (map fst d) -> dict_get k d = None.
Proof.
  induction d as [|[k' v] d IH]; simpl; intros H; [reflexivity|].
  destruct (text_eqb k k') eqn:E.
  - apply text_eqb_eq in E. subst. tauto.
  - apply IH. tauto.
Qed.

Lemma exclude_none_keys (k : text) (d : dict) :
  In k (map fst (exclude_none d)) -> In k (map fst d).
Proof.
  unfold exclude_none. rewrite !in_map_iff.
  intros [kv [Hk Hin]]. apply filter_In in Hin. exists kv. tauto.
Qed.

(** Looking a key up in a dump without the null fields. *)
Lemma dict_get_exclude_none (k : text) (d : dict) :
  NoDup (map fst d) ->
  dict_get k (exclude_none d) =
    match dict_get k d with
    | Some v => if is_none v then None else Some v
    | None => None
    end.
Proof.
  induction d as [|[k' v] d IH]; simpl; intros Hnd; [reflexivity|].
  inversion Hnd as [|? ? Hnotin Hnd']; subst.
  destruct (is_none v) eqn:Hv; simpl.
  - destruct (text_eqb k k') eqn:E.
    + apply text_eqb_eq in E. subst k'. rewrite Hv.
      apply dict_get_not_in. intros Hin. apply Hnotin.
      apply exclude_none_keys. exact Hin.
    + apply IH. exact Hnd'.
  - destruct (text_eqb k k') eqn:E; [rewrite Hv; reflexivity|].
    apply IH. exact Hnd'.
Qed.

Lemma exclude_none_no_null (d : dict) : no_null (exclude_none d).
Proof.
  unfold no_null, exclude_none. apply Forall_forall.
  intros [k v] Hin. apply filter_In in Hin. destruct Hin as [_ Hv].
  simpl in *. destruct v; simpl in Hv; congruence.
Qed.

Lemma model_dump_keys (r : ChatCompletionRequest.t) :
  NoDup (map fst (ChatCompletionRequest.model_dump r)).
Proof.
  unfold ChatCompletionRequest.model_dump. simpl map.
  repeat (apply NoDup_cons;
          [ vm_compute; intuition discriminate | ]).
  apply NoDup_nil.
Qed.

Lemma message_dump_given (m : ChatMessage.t) :
  PDict (ChatMessage.model_dump_exclude_none m) = message_given m.
Proof.
  destruct m as [role [s|l] [name|]]; reflexivity.
Qed.

Lemma messages_dump_given (ms : list ChatMessage.t) :
  map (fun m => PDict (ChatMessage.model_dump_exclude_none m)) ms
  = map message_given ms.
Proof. apply map_ext. exact message_dump_given. Qed.

(** The dump of a request holds exactly what the caller gave. *)
Lemma model_dump_holds_fields (r : ChatCompletionRequest.t) :
  holds_fields (ChatCompletionRequest.model_dump_exclude_none r)
               (caller_fields r).
Proof.
  unfold holds_fields, caller_fields,
    ChatCompletionRequest.model_dump_exclude_none.
  repeat (apply Forall_cons;
          [ cbv [fst snd]; rewrite (dict_get_exclude_none _ _ (model_dump_keys r)) | ]);
    [ .. | apply Forall_nil ].
  - reflexivity.
  - change (Some (PList (map (fun m => PDict (ChatMessage.model_dump_exclude_none m))
                             (ChatCompletionRequest.messages r)))
            = Some (PList (map message_given (ChatCompletionRequest.messages r)))).
    rewrite messages_dump_given. reflexivity.
  - destruct r as [? ? [] ? ? ? ? ? ? ? ? ? ? ?]; reflexivity.
  - destruct r as [? ? ? [] ? ? ? ? ? ? ? ? ? ?]; reflexivity.
  - destruct r as [? ? ? ? [] ? ? ? ? ? ? ? ? ?]; reflexivity.
  - destruct r as [? ? ? ? ? [] ? ? ? ? ? ? ? ?]; reflexivity.
  - destruct r as [? ? ? ? ? ? [[]|] ? ? ? ? ? ? ?]; reflexivity.
  - destruct r as [? ? ? ? ? ? ? [] ? ? ? ? ? ?]; reflexivity.
  - destruct r as [? ? ? ? ? ? ? ? [] ? ? ? ? ?]; reflexivity.
  - destruct r as [? ? ? ? ? ? ? ? ? [] ? ? ? ?]; reflexivity.
  - destruct r as [? ? ? ? ? ? ? ? ? ? [] ? ? ?]; reflexivity.
  - destruct r as [? ? ? ? ? ? ? ? ? ? ? [] ? ?]; reflexivity.
  - destruct r as [? ? ? ? ? ? ? ? ? ? ? ? [] ?]; reflexivity.
  - destruct r as [? ? ? ? ? ? ? ? ? ? ? ? ? [[]|]]; reflexivity.
Qed.

Lemma streamed_caller_fields (r : ChatCompletionRequest.t) :
  streamed_fields (caller_fields r)
  = caller_fields (ChatCompletionRequest.with_stream r (Some true)).
Proof. reflexivity. Qed.

Lemma holds_fields_stream (payload : dict) (r : ChatCompletionRequest.t) :
  holds_fields payload (caller_fields r) ->
  dict_get (lit "stream") payload
  = option_map PBool (ChatCompletionRequest.stream r).
Proof.
  unfold holds_fields, caller_fields. intros H.
  do 5 (apply Forall_inv_tail in H). apply Forall_inv in H. exact H.
Qed.

#[local] Existing Instance Sample.runtime.
(** C4, as the specification has it, fails: [create] does not force the
    stream flag off.  Called with an explicit [stream=True], it sends a
    payload whose [stream] field is true: neither false nor absent. *)
Lemma create_sends_stream_true_when_asked :
  ChatCompletionRequest.stream Sample.request_stream_true = Some true
  /\ exists payload,
       sent (_ChatCompletions.create (Sample.world Sample.completion)
               Sample.http Sample.request_stream_true)
       = [chat_request payload]
       /\ dict_get (lit "stream") payload = Some (PBool true)
       /\ dict_get (lit "stream") payload <> Some (PBool false)
       /\ dict_get (lit "stream") payload <> None.
Proof.
  split; [reflexivity|].
  exists (ChatCompletionRequest.model_dump_exclude_none Sample.request_stream_true).
  repeat split; try (vm_compute; discriminate).
Qed.
#[local] Remove Hints Sample.runtime : typeclass_instances.

(** C4, amended.  [create], on either surface, sends the [stream] field as
    the caller passed it: absent when the caller did not pass it, and with
    the caller's value otherwise, so an explicit [stream=True] is sent as
    true.  [stream], on either surface, always sends [stream] as true,
    whatever the caller passed. *)
Theorem stream_flag_passed_by_create_forced_by_stream {rt : Runtime}
    (w : World) (http : _BaseHTTP.t) (kwargs : ChatCompletionRequest.t) :
  (exists payload,
     sent (_ChatCompletions.create w http kwargs) = [chat_request payload]
     /\ dict_get (lit "stream") payload
        = option_map PBool (ChatCompletionRequest.stream kwargs))
  /\ (exists payload,
     sent (_AsyncChatCompletions.create w http kwargs) = [chat_request payload]
     /\ dict_get (lit "stream") payload
        = option_map PBool (ChatCompletionRequest.stream kwargs))
  /\ (exists payload,
     sent (_ChatCompletions.stream w http kwargs) = [chat_request payload]
     /\ dict_get (lit "stream") payload = Some (PBool true))
  /\ (exists payload,
     sent (_AsyncChatCompletions.stream w http kwargs) = [chat_request payload]
     /\ dict_get (lit "stream") payload = Some (PBool true)).
Proof.
  split; [|split; [|split]].
  - exists (ChatCompletionRequest.model_dump_exclude_none kwargs).
    split; [reflexivity|].
    apply holds_fields_stream, model_dump_holds_fields.
  - exists (ChatCompletionRequest.model_dump_exclude_none kwargs).
    split; [reflexivity|].
    apply holds_fields_stream, model_dump_holds_fields.
  - exists (ChatCompletionRequest.model_dump_exclude_none
              (ChatCompletionRequest.with_stream kwargs (Some true))).
    split; [reflexivity|].
    apply (holds_fields_stream _ (ChatCompletionRequest.with_stream kwargs (Some true))).
    apply model_dump_holds_fields.
  - exists (ChatCompletionRequest.model_dump_exclude_none
              (ChatCompletionRequest.with_stream kwargs (Some true))).
    split; [reflexivity|].
    apply (holds_fields_stream _ (ChatCompletionRequest.with_stream kwargs (Some true))).
    apply model_dump_holds_fields.
Qed.

#[local] Existing Instance Sample.runtime.
(** C6, as the specification has it, fails on the streaming call: the
    caller of the unit test leaves [stream] unset, and the payload that
    [stream] sends holds a [stream] field all the same. *)
Lemma stream_sends_a_field_the_caller_left_unset :
  ChatCompletionRequest.stream Sample.request = None
  /\ exists payload,
       sent (_ChatCompletions.stream (Sample.world Sample.broken_stream)
               Sample.http Sample.request)
       = [chat_request payload]
       /\ dict_get (lit "stream") payload = Some (PBool true)
       /\ dict_get (lit "stream") payload <> None.
Proof.
  split; [reflexivity|].
  exists (ChatCompletionRequest.model_dump_exclude_none
            (ChatCompletionRequest.with_stream Sample.request (Some true))).
  repeat split; try (vm_compute; discriminate).
Qed.
#[local] Remove Hints Sample.runtime : typeclass_instances.

(** C6, amended.  For every chat-completion request, each optional field
    that the caller leaves unset is absent from the payload that is sent,
    no field of the payload is null, and every field that the caller sets
    is in the payload with the value the caller gave (for a message: its
    role, its content, and its name when it has one) -- except the field
    [stream] on the streaming call, which is sent as true whatever the
    caller gave or left out.  This holds on both surfaces. *)
Theorem payload_holds_what_the_caller_gave {rt : Runtime}
    (w : World) (http : _BaseHTTP.t) (kwargs : ChatCompletionRequest.t) :
  (exists payload,
     sent (_ChatCompletions.create w http kwargs) = [chat_request payload]
     /\ holds_fields payload (caller_fields kwargs)
     /\ no_null payload)
  /\ (exists payload,
     sent (_AsyncChatCompletions.create w http kwargs) = [chat_request payload]
     /\ holds_fields payload (caller_fields kwargs)
     /\ no_null payload)
  /\ (exists payload,
     sent (_ChatCompletions.stream w http kwargs) = [chat_request payload]
     /\ holds_fields payload (streamed_fields (caller_fields kwargs))
     /\ no_null payload)
  /\ (exists payload,
     sent (_AsyncChatCompletions.stream w http kwargs) = [chat_request payload]
     /\ holds_fields payload (streamed_fields (caller_fields kwargs))
     /\ no_null payload).
Proof.
  split; [|split; [|split]].
  - exists (ChatCompletionRequest.model_dump_exclude_none kwargs).
    split; [reflexivity|].
    split; [apply model_dump_holds_fields | apply exclude_none_no_null].
  - exists (ChatCompletionRequest.model_dump_exclude_none kwargs).
    split; [reflexivity|].
    split; [apply model_dump_holds_fields | apply exclude_none_no_null].
  - exists (ChatCompletionRequest.model_dump_exclude_none
              (ChatCompletionRequest.with_stream kwargs (Some true))).
    rewrite streamed_caller_fields.
    split; [reflexivity|].
    split; [apply model_dump_holds_fields | apply exclude_none_no_null].
  - exists (ChatCompletionRequest.model_dump_exclude_none
              (ChatCompletionRequest.with_stream kwargs (Some true))).
    rewrite streamed_caller_fields.
    split; [reflexivity|].
    split; [apply model_dump_holds_fields | apply exclude_none_no_null].
Qed.

(* ================================================================= *)
(** ** Construction *)

Lemma base_init_fails_iff (w : World) (api_key : option text)
    (base_url : text) (timeout : pyfloat) :
  fails_iff (_BaseHTTP.__init__ w api_key base_url timeout)
            (no_token w api_key).
Proof.
  unfold fails_iff, _BaseHTTP.__init__, no_token, or_str.
  destruct api_key as [[|c k]|];
    destruct (getenv w (lit "APERTUS_API_KEY")) as [[|c2 k2]|]; simpl;
    (split; [reflexivity|]); split; split;
      try discriminate;
      try (intros [? H]; discriminate H);
      intros _; eexists; reflexivity.
Qed.

Lemma fails_iff_bind {A B} (x : io (result A)) (f : A -> B) (missing : bool) :
  fails_iff x missing ->
  fails_iff (let (s, r) := x in (s, a <- r ;; Ok (f a))) missing.
Proof.
  unfold fails_iff. destruct x as [s [a|e]]; simpl;
    intros (Hs & Hraise & Hok); (split; [exact Hs|]); split; split.
  - intros [msg H]. discriminate H.
  - intros H. apply Hraise in H. destruct H as [msg H]. discriminate H.
  - intros _. apply Hok. exists a. reflexivity.
  - intros _. exists (f a). reflexivity.
  - intros [msg H]. apply Hraise. exists msg. congruence.
  - intros H. apply Hraise in H. destruct H as [msg H]. exists msg. congruence.
  - intros [b H]. discriminate H.
  - intros H. apply Hok in H. destruct H as [a H]. discriminate H.
Qed.

Lemma transport_constructs (w : World) (api_key : option text)
    (base_url : text) (timeout : pyfloat) :
  constructs (SyncHTTP.__init__ w api_key base_url timeout)
             w api_key base_url timeout (fun h => h)
  /\ constructs (AsyncHTTP.__init__ w api_key base_url timeout)
                w api_key base_url timeout (fun h => h).
Proof.
  unfold constructs, SyncHTTP.__init__, AsyncHTTP.__init__, _BaseHTTP.__init__,
    new_client, no_token, or_str.
  destruct api_key as [[|c k]|];
    destruct (getenv w (lit "APERTUS_API_KEY")) as [[|c2 k2]|]; simpl;
    split;
    (split; [reflexivity|]);
    (split; [try reflexivity; intros H; discriminate H|]);
    try (intros H; discriminate H);
    intros _; eexists; (split; [reflexivity|]);
    cbn [_BaseHTTP.base_url _BaseHTTP._headers _BaseHTTP.timeout
         _BaseHTTP.api_key];
    match goal with
    | |- context [httpx_client ?w ?u ?h ?t] =>
        destruct (httpx_client w u h t); reflexivity
    end.
Qed.

Lemma constructs_wrap {A} (x : io (result _BaseHTTP.t)) (w : World)
    (api_key : option text) (base_url : text) (timeout : pyfloat)
    (wrap : _BaseHTTP.t -> A) :
  constructs x w api_key base_url timeout (fun h => h) ->
  constructs (let (s, r) := x in (s, h <- r ;; Ok (wrap h)))
             w api_key base_url timeout wrap.
Proof.
  unfold constructs. destruct x as [s r]. simpl.
  intros (Hs & Hno & Hyes). split; [exact Hs|]. split.
  - intros H. rewrite (Hno H). reflexivity.
  - intros H. destruct (Hyes H) as (self & Hself & Hr).
    exists self. split; [exact Hself|]. rewrite Hr.
    destruct (httpx_client w _ _ _); reflexivity.
Qed.

(** C10, as the specification has it, fails: a token may resolve and the
    construction raise all the same.  With the key [cl\u00e9] the transport and
    the facade raise [UnicodeEncodeError], and nothing is sent: httpx
    cannot put the key into a header. *)
Lemma construction_fails_with_a_token :
  let w := Sample.world Sample.unauthorized in
  let key := Some [99; 108; 233] in
  no_token w key = false
  /\ SyncHTTP.__init__ w key DEFAULT_BASE_URL (FDec 30 0)
     = ([], Raise UnicodeEncodeError)
  /\ AsyncHTTP.__init__ w key DEFAULT_BASE_URL (FDec 30 0)
     = ([], Raise UnicodeEncodeError)
  /\ Apertus.__init__ w key None (FDec 30 0) = ([], Raise UnicodeEncodeError)
  /\ AsyncApertus.__init__ w key None (FDec 30 0)
     = ([], Raise UnicodeEncodeError)
  /\ ~ fails_iff (SyncHTTP.__init__ w key DEFAULT_BASE_URL (FDec 30 0))
                 (no_token w key).
Proof.
  repeat split; try (vm_compute; reflexivity).
  intros (_ & _ & Hok). destruct (proj2 Hok) as [h Hh].
  - vm_compute. reflexivity.
  - vm_compute in Hh. discriminate Hh.
Qed.

(** C10, amended.  Constructing a client sends nothing to the server.
    The state of the transport, [_BaseHTTP], is set up if and only if a
    bearer token resolves -- the argument [api_key], or else the
    environment variable [APERTUS_API_KEY], is there and not empty --
    and the [ValueError] of the missing key is raised if not.  With a
    token, the transports [SyncHTTP] and [AsyncHTTP] and the facades
    [Apertus] and [AsyncApertus] then build their httpx client from the
    base URL, the headers and the timeout: the construction succeeds when
    that does, and raises what that raises otherwise. *)
Theorem construction_needs_a_token_and_a_client
    (w : World) (api_key : option text) (base_url : text)
    (facade_base_url : option text) (timeout : pyfloat) :
  fails_iff (_BaseHTTP.__init__ w api_key base_url timeout) (no_token w api_key)
  /\ constructs (SyncHTTP.__init__ w api_key base_url timeout)
                w api_key base_url timeout (fun h => h)
  /\ constructs (AsyncHTTP.__init__ w api_key base_url timeout)
                w api_key base_url timeout (fun h => h)
  /\ constructs (Apertus.__init__ w api_key facade_base_url timeout)
                w api_key (base_url_or_default facade_base_url) timeout
                (fun h => {| Apertus._http := h |})
  /\ constructs (AsyncApertus.__init__ w api_key facade_base_url timeout)
                w api_key (base_url_or_default facade_base_url) timeout
                (fun h => {| AsyncApertus._http := h |}).
Proof.
  split; [apply base_init_fails_iff|].
  split; [apply transport_constructs|].
  split; [apply transport_constructs|].
  split.
  - apply (constructs_wrap _ _ _ _ _ _
             (proj1 (transport_constructs w api_key _ timeout))).
  - apply (constructs_wrap _ _ _ _ _ _
             (proj2 (transport_constructs w api_key _ timeout))).
Qed.

(* ================================================================= *)
(** ** The scenarios and boundary cases of the specification *)

#[local] Existing Instance Sample.runtime.
(** Scenario A: the frames of [test_stream_parsing] give three events, the
    first without text, and the deltas concatenate to "hello". *)
Example scenario_A :
  let r := _ChatCompletions.stream_loop
             (lines_then [Sample.role_frame; Sample.he_frame; Sample.llo_frame;
                          Sample.done] Exhausted) in
  map StreamEvent.delta (events r) = [None; Some (lit "he"); Some (lit "llo")]
  /\ raised r = None.
Proof. vm_compute. split; reflexivity. Qed.
#[local] Remove Hints Sample.runtime : typeclass_instances.

#[local] Existing Instance Sample.runtime.
(** Scenario B: [create] on the answer of the fake backend. *)
Example scenario_B :
  exists c,
    outcome (_ChatCompletions.create (Sample.world Sample.completion)
               Sample.http Sample.request) = Ok c
    /\ ChatCompletion.object c = lit "chat.completion"
    /\ map (fun ch => option_map ChatChoiceMessage.content (ChatChoice.message ch))
           (ChatCompletion.choices c) = [Some (lit "hi")].
Proof. eexists. vm_compute. repeat split; reflexivity. Qed.
#[local] Remove Hints Sample.runtime : typeclass_instances.

#[local] Existing Instance Sample.runtime.
(** Boundary: an empty line, a line of blanks and a line that is only the
    prefix are skipped. *)
Example blank_lines_are_skipped :
  _ChatCompletions.stream_line (LineStr []) = Continue
  /\ _ChatCompletions.stream_line (LineStr (lit "  ")) = Continue
  /\ _ChatCompletions.stream_line Sample.prefix_only = Continue.
Proof. vm_compute. repeat split; reflexivity. Qed.
#[local] Remove Hints Sample.runtime : typeclass_instances.

#[local] Existing Instance Sample.runtime.
(** A line of bytes that is not UTF-8 is no frame at all: decoding it
    raises. *)
Example undecodable_line_raises :
  _ChatCompletions.stream_line (LineBytes [Byte.xff]) = Throw UnicodeDecodeError.
Proof. vm_compute. reflexivity. Qed.
#[local] Remove Hints Sample.runtime : typeclass_instances.

(** The blocking error mapper takes the first entry among [error] and
    [message] that is truthy, and keeps the parsed body as payload only
    when it is an object. *)
Example error_mapper_skips_falsy_entry :
  SyncHTTP._raise_api_error
    (Sample.ascii_response 500 (qlit "{'error':'','message':'boom'}") []
       Exhausted)
  = ApertusAPIError 500 (PStr (lit "boom")) (Some [])
      (Some (PDict [(lit "error", PStr []); (lit "message", PStr (lit "boom"))])).
Proof. vm_compute. reflexivity. Qed.

Example error_mapper_drops_non_object_body :
  SyncHTTP._raise_api_error
    (Sample.ascii_response 500 (lit "[1, 2]") [] Exhausted)
  = ApertusAPIError 500 (PStr (lit "[1, 2]")) (Some []) None.
Proof. vm_compute. reflexivity. Qed.

Example error_mapper_keeps_raw_text :
  SyncHTTP._raise_api_error
    (Sample.ascii_response 502 (lit "Bad Gateway") [] Exhausted)
  = ApertusAPIError 502 (PStr (lit "Bad Gateway")) (Some []) None.
Proof. vm_compute. reflexivity. Qed.

(* ================================================================= *)
(** * Further properties of the code *)

(* ================================================================= *)
(** ** The blocking calls of the transport *)

Lemma not_2xx_false (s : Z) : not_2xx s = false <-> is_2xx s.
Proof.
  unfold not_2xx, is_2xx. rewrite negb_false_iff, Z.eqb_eq.
  pose proof (Z.div_mod s 100 ltac:(lia)).
  pose proof (Z.mod_pos_bound s 100 ltac:(lia)). lia.
Qed.

Lemma not_2xx_true (s : Z) : not_2xx s = true <-> ~ is_2xx s.
Proof.
  rewrite <- not_2xx_false. destruct (not_2xx s); split; congruence.
Qed.

(** X1.  A blocking call ([get], [post_json]) sends one request and
    returns the parsed body exactly when the status is in 200..299: then
    its outcome is that of [r.json()], the value or the exception that
    [r.json()] raises, as it is.  For
    every other status, below 200 and from 300 on, it raises
    [ApertusAPIError] with the status and the URL of the response and
    returns nothing. *)
Theorem blocking_call_returns_body_iff_2xx
    (w : World) (http : SyncHTTP.t) (path : text) (json : dict) (r : Response) :
  (forall req, server w req = Ok r) ->
  sent (SyncHTTP.get w http path)
    = [{| method := lit "GET"; path := path; body := None |}]
  /\ sent (SyncHTTP.post_json w http path json)
    = [{| method := lit "POST"; path := path; body := Some json |}]
  /\ (is_2xx (status_code r) ->
        outcome (SyncHTTP.get w http path) = Response_json r
        /\ outcome (SyncHTTP.post_json w http path json) = Response_json r)
  /\ (~ is_2xx (status_code r) ->
        exists message payload,
          outcome (SyncHTTP.get w http path)
            = Raise (ApertusAPIError (status_code r) message (Some (url r)) payload)
          /\ outcome (SyncHTTP.post_json w http path json)
            = Raise (ApertusAPIError (status_code r) message (Some (url r)) payload)).
Proof.
  intros Hserver.
  unfold SyncHTTP.get, SyncHTTP.post_json, sent, outcome. simpl.
  rewrite !Hserver. simpl.
  split; [reflexivity|]. split; [reflexivity|]. split.
  - intros H. apply not_2xx_false in H. rewrite H. split; reflexivity.
  - intros H. apply not_2xx_true in H. rewrite H.
    unfold SyncHTTP._raise_api_error.
    destruct (bind _ _) as [[message data]|e]; eexists; eexists; split; reflexivity.
Qed.

Lemma blocking_call_returns_body_iff_2xx_witness :
  let w := Sample.world Sample.completion in
  let r := Sample.completion in
  sent (SyncHTTP.get w Sample.http MODELS_PATH)
    = [{| method := lit "GET"; path := MODELS_PATH; body := None |}]
  /\ sent (SyncHTTP.post_json w Sample.http MODELS_PATH [])
    = [{| method := lit "POST"; path := MODELS_PATH; body := Some [] |}]
  /\ (is_2xx (status_code r) ->
        outcome (SyncHTTP.get w Sample.http MODELS_PATH) = Response_json r
        /\ outcome (SyncHTTP.post_json w Sample.http MODELS_PATH [])
           = Response_json r)
  /\ (~ is_2xx (status_code r) ->
        exists message payload,
          outcome (SyncHTTP.get w Sample.http MODELS_PATH)
            = Raise (ApertusAPIError (status_code r) message (Some (url r)) payload)
          /\ outcome (SyncHTTP.post_json w Sample.http MODELS_PATH [])
            = Raise (ApertusAPIError (status_code r) message (Some (url r)) payload)).
Proof.
  apply (blocking_call_returns_body_iff_2xx
           (Sample.world Sample.completion) Sample.http MODELS_PATH []
           Sample.completion).
  intros req. reflexivity.
Defined.

(* ================================================================= *)
(** ** The error of a blocking call *)

Lemma py_or_truthy (a b : pyval) : truthy a = true -> py_or a b = a.
Proof. unfold py_or. intros ->. reflexivity. Qed.

Lemma py_or_falsy (a b : pyval) : truthy a = false -> py_or a b = b.
Proof. unfold py_or. intros ->. reflexivity. Qed.

Lemma py_get_dict (d : dict) (k : string) :
  exists v, py_get (PDict d) k = Ok v
            /\ (dict_get (lit k) d = Some v
                \/ (dict_get (lit k) d = None /\ v = PNone)).
Proof.
  unfold py_get. destruct (dict_get (lit k) d) as [v|]; eexists; split;
    try reflexivity; [left | right]; auto.
Qed.

(** X2.  The error that [_raise_api_error] makes of a response always
    carries the status code and the URL of the response.  Its payload is
    what [r.json()] returned exactly when that is a dictionary, and is
    absent otherwise (when [r.json()] raises, and when it returns a value
    that is not a dictionary).  Its message is never an empty or otherwise
    false value picked from the body: it is true in Python's sense, or it
    is [r.text].  A true [error] entry is the message whatever the
    [message] entry is, and without a payload the message is [r.text]. *)
Theorem api_error_mapping (r : Response) :
  exists message payload,
    SyncHTTP._raise_api_error r
      = ApertusAPIError (status_code r) message (Some (url r)) payload
    /\ (forall d, Response_json r = Ok (PDict d) <-> payload = Some (PDict d))
    /\ (payload = None <-> forall d, Response_json r <> Ok (PDict d))
    /\ (truthy message = true \/ message = PStr (text_ r))
    /\ (payload = None -> message = PStr (text_ r))
    /\ (forall d v, Response_json r = Ok (PDict d) ->
          dict_get (lit "error") d = Some v -> truthy v = true -> message = v).
Proof.
  unfold SyncHTTP._raise_api_error.
  destruct (Response_json r) as [data|e] eqn:Hl; cbn [bind].
  - destruct data as [| b | z | f | s | l | d];
      try (simpl; eexists; eexists; split; [reflexivity|];
           repeat split; intros; try discriminate; try congruence; auto; fail).
    destruct (py_get_dict d "error") as [ve [He Hve]].
    destruct (py_get_dict d "message") as [vm [Hm Hvm]].
    rewrite He. cbn [bind]. rewrite Hm. cbn [bind].
    eexists; eexists; split; [reflexivity|].
    split; [split; intros H; congruence|].
    split; [split; [discriminate | intros H; exfalso; apply (H d); reflexivity]|].
    split.
    { destruct (truthy ve) eqn:Te.
      - left. rewrite (py_or_truthy ve vm Te), (py_or_truthy ve _ Te). exact Te.
      - rewrite (py_or_falsy ve vm Te). destruct (truthy vm) eqn:Tm.
        + left. rewrite (py_or_truthy vm _ Tm). exact Tm.
        + right. apply py_or_falsy. exact Tm. }
    split; [discriminate|].
    intros d' v Hd Hget Hv. injection Hd as <-.
    destruct Hve as [Hve|[Hve _]]; [|congruence].
    assert (ve = v) by congruence. subst ve.
    rewrite (py_or_truthy v vm Hv). apply py_or_truthy. exact Hv.
  - eexists; eexists; split; [reflexivity|].
    repeat split; intros; try discriminate; try congruence; auto.
Qed.

(* ================================================================= *)
(** ** A response that is not 2xx *)

(** X3.  When the server answers a chat call with a status outside
    200..299, [create] raises the error of [_raise_api_error] and validates
    nothing, and [stream] yields no event at all and raises
    [ApertusAPIError] with the status of the response, the body as
    [read()] gives it, decoded as UTF-8 with what does not decode left
    out, for message, and the payload of the request for payload --
    whatever lines the response carries: none of them is read.  One
    request is sent in each case. *)
Theorem non_2xx_response_gives_only_an_error {rt : Runtime}
    (w : World) (http : SyncHTTP.t) (kwargs : ChatCompletionRequest.t)
    (resp : Response) :
  (forall req, server w req = Ok resp) ->
  ~ is_2xx (status_code resp) ->
  outcome (_ChatCompletions.create w http kwargs)
    = Raise (SyncHTTP._raise_api_error resp)
  /\ List.length (sent (_ChatCompletions.create w http kwargs)) = 1%nat
  /\ events (outcome (_ChatCompletions.stream w http kwargs)) = []
  /\ (exists payload,
        raised (outcome (_ChatCompletions.stream w http kwargs))
        = Some (ApertusAPIError (status_code resp) (PStr (read_ resp))
                  (Some (url resp)) (Some (PDict payload)))
        /\ sent (_ChatCompletions.stream w http kwargs) = [chat_request payload])
  /\ lines_of (outcome (SyncHTTP.post_stream w http CHAT_COMPLETIONS_PATH [])) = [].
Proof.
  intros Hserver H. apply not_2xx_true in H.
  unfold _ChatCompletions.create, _ChatCompletions.stream, SyncHTTP.post_json,
    SyncHTTP.post_stream, sent, outcome. simpl.
  rewrite !Hserver. simpl. rewrite H. simpl.
  repeat split. eexists. split; reflexivity.
Qed.

#[local] Existing Instance Sample.runtime.
Lemma non_2xx_response_gives_only_an_error_witness :
  let w := Sample.world Sample.unauthorized in
  outcome (_ChatCompletions.create w Sample.http Sample.request)
    = Raise (SyncHTTP._raise_api_error Sample.unauthorized)
  /\ List.length (sent (_ChatCompletions.create w Sample.http Sample.request)) = 1%nat
  /\ events (outcome (_ChatCompletions.stream w Sample.http Sample.request)) = []
  /\ (exists payload,
        raised (outcome (_ChatCompletions.stream w Sample.http Sample.request))
        = Some (ApertusAPIError (status_code Sample.unauthorized)
                  (PStr (text_ Sample.unauthorized))
                  (Some (url Sample.unauthorized)) (Some (PDict payload)))
        /\ sent (_ChatCompletions.stream w Sample.http Sample.request)
           = [chat_request payload])
  /\ lines_of (outcome (SyncHTTP.post_stream w Sample.http CHAT_COMPLETIONS_PATH []))
     = [].
Proof.
  apply (non_2xx_response_gives_only_an_error
           (Sample.world Sample.unauthorized) Sample.http Sample.request
           Sample.unauthorized).
  - intros req. reflexivity.
  - unfold is_2xx. simpl. lia.
Defined.
#[local] Remove Hints Sample.runtime : typeclass_instances.

(* ================================================================= *)
(** ** The lines of a streamed response *)

Lemma iter_nonempty_lines (src : source) :
  lines_of (SyncHTTP.iter_nonempty src) = filter line_nonempty (lines_of src)
  /\ ending_of (SyncHTTP.iter_nonempty src) = ending_of src.
Proof.
  induction src as [|e|l rest [IHl IHe]]; simpl; try (split; reflexivity).
  destruct (line_nonempty l); simpl; rewrite ?IHl; split; auto.
Qed.

(** X4.  For a 2xx response, [post_stream] yields exactly the non-empty
    lines of the response, in their order, and ends as the response does:
    at its end, or with the exception that broke it off.  No line it yields
    is empty, and filtering what it yields again changes nothing. *)
Theorem post_stream_yields_the_nonempty_lines
    (w : World) (http : SyncHTTP.t) (path : text) (json : dict)
    (resp : Response) :
  (forall req, server w req = Ok resp) ->
  is_2xx (status_code resp) ->
  let out := outcome (SyncHTTP.post_stream w http path json) in
  lines_of out = filter line_nonempty (lines_of (lines resp))
  /\ ending_of out = ending_of (lines resp)
  /\ Forall (fun l => line_nonempty l = true) (lines_of out)
  /\ SyncHTTP.iter_nonempty out = out.
Proof.
  intros Hserver H out. apply not_2xx_false in H.
  assert (Hout : out = SyncHTTP.iter_nonempty (lines resp)).
  { unfold out, SyncHTTP.post_stream, outcome. simpl.
    rewrite Hserver, H. reflexivity. }
  rewrite Hout. clear out Hout.
  destruct (iter_nonempty_lines (lines resp)) as [Hl He].
  split; [exact Hl|]. split; [exact He|]. split.
  - rewrite Hl. apply Forall_forall. intros l Hin.
    apply filter_In in Hin. tauto.
  - generalize (lines resp). intros src.
    induction src as [|e|l rest IH]; simpl; try reflexivity.
    destruct (line_nonempty l) eqn:E; simpl; [rewrite E; simpl; f_equal|];
      exact IH.
Qed.

Lemma post_stream_yields_the_nonempty_lines_witness :
  let out := outcome (SyncHTTP.post_stream (Sample.world Sample.broken_stream)
                        Sample.http CHAT_COMPLETIONS_PATH []) in
  lines_of out = filter line_nonempty (lines_of (lines Sample.broken_stream))
  /\ ending_of out = ending_of (lines Sample.broken_stream)
  /\ Forall (fun l => line_nonempty l = true) (lines_of out)
  /\ SyncHTTP.iter_nonempty out = out.
Proof.
  apply (post_stream_yields_the_nonempty_lines
           (Sample.world Sample.broken_stream) Sample.http
           CHAT_COMPLETIONS_PATH [] Sample.broken_stream).
  - intros req. reflexivity.
  - unfold is_2xx. simpl. lia.
Defined.

(* ================================================================= *)
(** ** The loop of [stream], line by line *)

Lemma empty_line_continues {rt : Runtime} (l : raw_line) :
  line_nonempty l = false -> _ChatCompletions.stream_line l = Continue.
Proof.
  destruct l as [[|c s]|[|b bs]]; try discriminate; reflexivity.
Qed.

(** X5.  The decoder does not depend on the transport dropping the empty
    lines: over any line source, with or without that filter, it yields the
    same events and ends the same way. *)
Theorem decoder_skips_empty_lines_itself {rt : Runtime} (src : source) :
  events (_ChatCompletions.stream_loop (SyncHTTP.iter_nonempty src))
    = events (_ChatCompletions.stream_loop src)
  /\ raised (_ChatCompletions.stream_loop (SyncHTTP.iter_nonempty src))
    = raised (_ChatCompletions.stream_loop src).
Proof.
  induction src as [|e|l rest [IHe IHr]]; simpl; try (split; reflexivity).
  destruct (line_nonempty l) eqn:E; simpl.
  - destruct (_ChatCompletions.stream_line l); simpl; try (split; reflexivity);
      [split; assumption | rewrite IHe, IHr; split; reflexivity].
  - rewrite (empty_line_continues l E). split; assumption.
Qed.

(** What a line can make the loop do. *)
Lemma stream_line_cases {rt : Runtime} (l : raw_line) :
  _ChatCompletions.stream_line l = Continue
  \/ _ChatCompletions.stream_line l = Break
  \/ (exists c, _ChatCompletions.stream_line l = Yield (event_of_chunk c))
  \/ _ChatCompletions.stream_line l = Throw ValidationError
  \/ (_ChatCompletions.stream_line l = Throw UnicodeDecodeError
      /\ exists b, l = LineBytes b)
  \/ (exists e, _ChatCompletions.stream_line l = Throw e /\ limit_error e).
Proof.
  destruct (line_text l) as [t|] eqn:Ht.
  - rewrite (stream_line_unfold l t Ht).
    destruct (negb (nonempty (strip t))); [left; reflexivity|].
    destruct (text_eqb (payload_of_text t) SENTINEL); [right; left; reflexivity|].
    destruct (json.loads (payload_of_text t)) as [obj|e] eqn:Hl.
    + destruct (ChatCompletionChunk.model_validate obj) as [c|e] eqn:Hv.
      * right; right; left. exists c. reflexivity.
      * apply ChatCompletionChunk_raises in Hv. subst e.
        right; right; right; left. reflexivity.
    + destruct (json_facts.loads_raises _ _ Hl) as [->|He];
        [left; reflexivity|].
      do 5 right. exists e. split; [|exact He].
      destruct He as [->|[msg ->]]; reflexivity.
  - destruct l as [s|b]; [discriminate|].
    right; right; right; right; left. split; [|exists b; reflexivity].
    unfold _ChatCompletions.stream_line, bytes_decode. simpl in Ht.
    rewrite Ht. reflexivity.
Qed.

(** X6.  Every event that [stream] yields, over any line source, has
    choice index 0 and carries as delta the content of the delta of the
    first choice of its own raw chunk (absent when the chunk has no choice,
    the first choice has no delta, or that delta has no content): no other
    choice is ever projected. *)
Theorem every_event_projects_the_first_choice {rt : Runtime} (src : source) :
  Forall (fun ev =>
            StreamEvent.choice_index ev = 0
            /\ StreamEvent.delta ev = first_delta (StreamEvent.raw ev))
         (events (_ChatCompletions.stream_loop src)).
Proof.
  induction src as [|e|l rest IH]; simpl; try constructor.
  destruct (stream_line_cases l) as [H|[H|[[c H]|[H|[[H _]|[e [H _]]]]]]];
    rewrite H; simpl; try constructor; try exact IH.
  split; reflexivity.
Qed.

(** X7.  The events are delivered as the lines come: what the decoder has
    yielded over some lines stays as it is, in the same order, whatever
    follows them; later lines can only add events after these. *)
Theorem events_so_far_are_never_revised {rt : Runtime} (pre : list raw_line) (tail : source) :
  exists more,
    events (_ChatCompletions.stream_loop (lines_then pre tail))
    = events (_ChatCompletions.stream_loop (lines_then pre Exhausted)) ++ more.
Proof.
  induction pre as [|l pre [more IH]]; simpl.
  - eexists. reflexivity.
  - destruct (_ChatCompletions.stream_line l); simpl.
    + exists more. exact IH.
    + exists []. reflexivity.
    + exists more. rewrite IH. reflexivity.
    + exists []. reflexivity.
Qed.

(** X8.  The decoder lets no [JSONDecodeError] of its own escape.  When a
    run raises, the exception is a [ValidationError] (a payload that is JSON
    and not a chunk), a [UnicodeDecodeError] (possible only when the source
    holds a line of bytes), an error of the interpreter at one of its
    limits (the [RecursionError] of a payload nested too deep, the
    [ValueError] of an integer literal too long), or the very exception
    with which the line source broke off. *)
Theorem what_the_decoder_raises {rt : Runtime} (src : source) (e : exn) :
  raised (_ChatCompletions.stream_loop src) = Some e ->
  e = ValidationError
  \/ (e = UnicodeDecodeError /\ exists b, In (LineBytes b) (lines_of src))
  \/ limit_error e
  \/ ending_of src = Some e.
Proof.
  induction src as [|e'|l rest IH]; simpl; intros H.
  - discriminate.
  - do 3 right. exact H.
  - destruct (stream_line_cases l)
      as [Hl|[Hl|[[c Hl]|[Hl|[[Hl [b Hb]]|[e0 [Hl He0]]]]]]];
      rewrite Hl in H; simpl in H.
    + destruct (IH H) as [|[[? [b Hb]]|[|]]]; auto.
      right; left. split; [assumption|]. exists b. right. exact Hb.
    + discriminate.
    + destruct (IH H) as [|[[? [b Hb]]|[|]]]; auto.
      right; left. split; [assumption|]. exists b. right. exact Hb.
    + left. congruence.
    + right; left. split; [congruence|]. exists b. left. congruence.
    + right; right; left. injection H as <-. exact He0.
Qed.

#[local] Existing Instance Sample.runtime.
Lemma what_the_decoder_raises_witness :
  ValidationError = ValidationError
  \/ (ValidationError = UnicodeDecodeError
      /\ exists b, In (LineBytes b)
                      (lines_of (Line Sample.he_frame
                                   (Line Sample.not_an_object Exhausted))))
  \/ limit_error ValidationError
  \/ ending_of (Line Sample.he_frame (Line Sample.not_an_object Exhausted))
     = Some ValidationError.
Proof.
  apply (what_the_decoder_raises
           (Line Sample.he_frame (Line Sample.not_an_object Exhausted))
           ValidationError).
  vm_compute. reflexivity.
Defined.
#[local] Remove Hints Sample.runtime : typeclass_instances.

(** X9.  A stream that ends without a sentinel is not an error: when the
    line source is exhausted, or breaks off, after lines that are valid or
    malformed frames, every valid frame has given its event, in order; the
    run then returns normally, or raises the exception of the source. *)
Theorem stream_without_sentinel {rt : Runtime} (pre : list raw_line) (e : exn) :
  Forall (fun l => is_valid_frame l = true \/ is_malformed_frame l = true) pre ->
  _ChatCompletions.stream_loop (lines_then pre Exhausted)
    = {| events := map event_of_chunk (valid_chunks pre);
         raised := None; unread := Exhausted |}
  /\ _ChatCompletions.stream_loop (lines_then pre (Broken e))
    = {| events := map event_of_chunk (valid_chunks pre);
         raised := Some e; unread := Exhausted |}.
Proof.
  intros H. rewrite !(stream_loop_frames pre _ H). simpl.
  rewrite app_nil_r. split; reflexivity.
Qed.

#[local] Existing Instance Sample.runtime.
Lemma stream_without_sentinel_witness :
  let pre := [Sample.role_frame; Sample.keepalive; Sample.he_frame] in
  _ChatCompletions.stream_loop (lines_then pre Exhausted)
    = {| events := map event_of_chunk (valid_chunks pre);
         raised := None; unread := Exhausted |}
  /\ _ChatCompletions.stream_loop (lines_then pre (Broken Sample.timeout_error))
    = {| events := map event_of_chunk (valid_chunks pre);
         raised := Some Sample.timeout_error; unread := Exhausted |}.
Proof.
  apply (stream_without_sentinel
           [Sample.role_frame; Sample.keepalive; Sample.he_frame]
           Sample.timeout_error).
  repeat (apply Forall_cons;
          [ (left; vm_compute; reflexivity) || (right; vm_compute; reflexivity)
          | ]).
  apply Forall_nil.
Defined.
#[local] Remove Hints Sample.runtime : typeclass_instances.

(* ================================================================= *)
(** ** White space and the framing prefix *)

Lemma blank_app (a b : text) : blank a -> blank b -> blank (a ++ b).
Proof. unfold blank. intros Ha Hb. apply Forall_app. split; assumption. Qed.

Lemma blank_rev (a : text) : blank a -> blank (rev a).
Proof. unfold blank. apply Forall_rev. Qed.

Lemma lstrip_split (t : text) : exists a, blank a /\ t = a ++ lstrip t.
Proof.
  induction t as [|c t [a [Ha IH]]]; simpl.
  - exists []. split; [constructor | reflexivity].
  - destruct (isspace c) eqn:E.
    + exists (c :: a). split; [constructor; assumption|].
      simpl. f_equal. exact IH.
    + exists []. split; [constructor | reflexivity].
Qed.

Lemma lstrip_head (t r : text) (c : Z) :
  lstrip t = c :: r -> isspace c = false.
Proof.
  induction t as [|x t IH]; simpl; [discriminate|].
  destruct (isspace x) eqn:E; [exact IH|].
  intros H. injection H as <- _. exact E.
Qed.

Lemma lstrip_blank_app (a s : text) : blank a -> lstrip (a ++ s) = lstrip s.
Proof.
  induction 1 as [|c a Hc _ IH]; simpl; [reflexivity|].
  rewrite Hc. exact IH.
Qed.

Lemma lstrip_blank (a : text) : blank a -> lstrip a = [].
Proof.
  intros H. rewrite <- (app_nil_r a). rewrite (lstrip_blank_app a [] H).
  reflexivity.
Qed.

Lemma lstrip_nil_blank (t : text) : lstrip t = [] -> blank t.
Proof.
  intros H. destruct (lstrip_split t) as [a [Ha Ht]].
  rewrite H, app_nil_r in Ht. subst. exact Ha.
Qed.

Lemma lstrip_nonspace (c : Z) (s : text) :
  isspace c = false -> lstrip (c :: s) = c :: s.
Proof. simpl. intros ->. reflexivity. Qed.

Lemma lstrip_app_keep (x y : text) :
  lstrip x <> [] -> lstrip (x ++ y) = lstrip x ++ y.
Proof.
  induction x as [|c x IH]; simpl; [congruence|].
  destruct (isspace c); [exact IH | reflexivity].
Qed.

Lemma lstrip_idem (t : text) : lstrip (lstrip t) = lstrip t.
Proof.
  destruct (lstrip t) as [|c r] eqn:E; [reflexivity|].
  apply lstrip_nonspace. exact (lstrip_head t r c E).
Qed.

Lemma rstrip_split (t : text) : exists b, blank b /\ t = rstrip t ++ b.
Proof.
  destruct (lstrip_split (rev t)) as [a [Ha H]].
  exists (rev a). split; [apply blank_rev; exact Ha|].
  unfold rstrip. rewrite <- rev_app_distr, <- H, rev_involutive. reflexivity.
Qed.

Lemma rstrip_blank_app (s b : text) : blank b -> rstrip (s ++ b) = rstrip s.
Proof.
  intros H. unfold rstrip. rewrite rev_app_distr.
  rewrite (lstrip_blank_app _ _ (blank_rev b H)). reflexivity.
Qed.

Lemma rstrip_app_keep (x y : text) :
  rstrip y <> [] -> rstrip (x ++ y) = x ++ rstrip y.
Proof.
  unfold rstrip. intros H. rewrite rev_app_distr, lstrip_app_keep.
  - rewrite rev_app_distr, rev_involutive. reflexivity.
  - intros E. apply H. rewrite E. reflexivity.
Qed.

Lemma rstrip_idem (t : text) : rstrip (rstrip t) = rstrip t.
Proof. unfold rstrip. rewrite rev_involutive, lstrip_idem. reflexivity. Qed.

Lemma rstrip_nil_blank (t : text) : rstrip t = [] -> blank t.
Proof.
  intros H. destruct (rstrip_split t) as [b [Hb Ht]].
  rewrite H in Ht. simpl in Ht. subst. exact Hb.
Qed.

(** The stripped text is clean on both sides. *)
Lemma lstrip_strip (t : text) : lstrip (strip t) = strip t.
Proof.
  unfold strip. destruct (rstrip_split (lstrip t)) as [b [Hb H]].
  destruct (rstrip (lstrip t)) as [|c r] eqn:E; [reflexivity|].
  apply lstrip_nonspace. apply (lstrip_head t (r ++ b) c).
  rewrite H. reflexivity.
Qed.

Lemma strip_idem (t : text) : strip (strip t) = strip t.
Proof.
  unfold strip at 1. rewrite lstrip_strip. unfold strip. apply rstrip_idem.
Qed.

Lemma strip_head (t r : text) (c : Z) : strip t = c :: r -> isspace c = false.
Proof. intros H. apply (lstrip_head (strip t) r c). rewrite lstrip_strip. exact H. Qed.

Lemma strip_padding (a t b : text) :
  blank a -> blank b -> strip (a ++ t ++ b) = strip t.
Proof.
  intros Ha Hb. unfold strip. rewrite (lstrip_blank_app a _ Ha).
  destruct (lstrip t) as [|c r] eqn:E.
  - rewrite lstrip_blank; [reflexivity|].
    apply blank_app; [apply lstrip_nil_blank; exact E | exact Hb].
  - rewrite lstrip_app_keep by congruence. rewrite E.
    apply rstrip_blank_app. exact Hb.
Qed.

(** X10.  White space around a line never matters to the decoder: a line
    of text padded on either side with white space (blanks, tabs, line
    ends, any character that [str.isspace] accepts) is handled exactly as
    the line without the padding. *)
Theorem padding_does_not_matter {rt : Runtime} (a t b : text) :
  blank a -> blank b ->
  _ChatCompletions.stream_line (LineStr (a ++ t ++ b))
  = _ChatCompletions.stream_line (LineStr t).
Proof.
  intros Ha Hb.
  rewrite (stream_line_unfold (LineStr (a ++ t ++ b)) _ eq_refl).
  rewrite (stream_line_unfold (LineStr t) _ eq_refl).
  unfold payload_of_text. rewrite (strip_padding a t b Ha Hb). reflexivity.
Qed.

#[local] Existing Instance Sample.runtime.
Lemma padding_does_not_matter_witness :
  _ChatCompletions.stream_line
    (LineStr (lit "   " ++ qlit "data: {'choices':[]}" ++ [13; 10]))
  = _ChatCompletions.stream_line (LineStr (qlit "data: {'choices':[]}")).
Proof.
  apply (padding_does_not_matter (lit "   ") (qlit "data: {'choices':[]}") [13; 10]).
  - repeat constructor.
  - repeat constructor.
Defined.
#[local] Remove Hints Sample.runtime : typeclass_instances.

Lemma strip_data_prefix (t : text) :
  exists a, blank a /\ strip (lit "data:" ++ t) = lit "data:" ++ a ++ strip t.
Proof.
  destruct (lstrip_split t) as [a [Ha Ht]].
  destruct (rstrip_split (lstrip t)) as [b [Hb Hl]].
  fold (strip t) in Hl.
  assert (Hl' : lstrip (lit "data:" ++ t) = lit "data:" ++ t) by reflexivity.
  destruct (strip t) as [|c r] eqn:Ep.
  - exists []. split; [constructor|].
    assert (Hblank : blank t).
    { rewrite Ht, Hl. simpl. apply blank_app; assumption. }
    unfold strip. rewrite Hl'. rewrite (rstrip_blank_app _ _ Hblank).
    reflexivity.
  - exists a. split; [exact Ha|].
    unfold strip at 1. rewrite Hl'.
    rewrite Ht at 1. rewrite Hl.
    replace (lit "data:" ++ a ++ (c :: r) ++ b)
      with ((lit "data:" ++ a ++ (c :: r)) ++ b)
      by (rewrite <- !app_assoc; reflexivity).
    rewrite (rstrip_blank_app _ _ Hb).
    replace (lit "data:" ++ a ++ c :: r) with ((lit "data:" ++ a) ++ c :: r)
      by (rewrite <- app_assoc; reflexivity).
    assert (Hr : rstrip (c :: r) = c :: r).
    { rewrite <- Ep. unfold strip. apply rstrip_idem. }
    rewrite rstrip_app_keep by (rewrite Hr; discriminate).
    rewrite Hr, <- app_assoc. reflexivity.
Qed.

Lemma payload_of_framed (t : text) :
  payload_of_text (lit "data:" ++ t) = strip t
  /\ nonempty (strip (lit "data:" ++ t)) = true.
Proof.
  destruct (strip_data_prefix t) as [a [Ha H]].
  unfold payload_of_text. rewrite H. split; [|reflexivity].
  change (strip (a ++ strip t) = strip t).
  rewrite <- (app_nil_r (strip t)) at 1.
  rewrite (strip_padding a (strip t) [] Ha (Forall_nil _)).
  apply strip_idem.
Qed.

(** X11.  The framing prefix is optional: a line of text that does not
    itself start with [data:] is handled exactly as the same line with
    [data:] put in front of it, with or without white space after the
    prefix. *)
Theorem data_prefix_is_optional {rt : Runtime} (t : text) :
  startswith (lit "data:") (strip t) = false ->
  _ChatCompletions.stream_line (LineStr (lit "data:" ++ t))
  = _ChatCompletions.stream_line (LineStr t).
Proof.
  intros Hno.
  rewrite (stream_line_unfold (LineStr (lit "data:" ++ t)) _ eq_refl).
  rewrite (stream_line_unfold (LineStr t) _ eq_refl).
  destruct (payload_of_framed t) as [Hp Hne]. rewrite Hp, Hne.
  assert (Hbare : payload_of_text t = strip t).
  { unfold payload_of_text. rewrite Hno. reflexivity. }
  rewrite Hbare. simpl.
  destruct (strip t) as [|c r] eqn:E; reflexivity.
Qed.

#[local] Existing Instance Sample.runtime.
Lemma data_prefix_is_optional_witness :
  _ChatCompletions.stream_line
    (LineStr (lit "data:" ++ qlit " {'choices':[{'index':0,'delta':{'content':'hi'}}]}"))
  = _ChatCompletions.stream_line
      (LineStr (qlit " {'choices':[{'index':0,'delta':{'content':'hi'}}]}")).
Proof.
  apply (data_prefix_is_optional
           (qlit " {'choices':[{'index':0,'delta':{'content':'hi'}}]}")).
  vm_compute. reflexivity.
Defined.
#[local] Remove Hints Sample.runtime : typeclass_instances.

(* ================================================================= *)
(** ** Lines that are not JSON *)

Lemma loads_needs_json_start {rt : Runtime} (c : Z) (rest : text) :
  isspace c = false -> json_start c = false ->
  json.loads (c :: rest) = Raise JSONDecodeError.
Proof.
  intros Hsp Hst. unfold json_start in Hst.
  repeat (apply orb_false_iff in Hst; destruct Hst as [Hst ?]).
  assert (Hws : json.is_ws c = false).
  { unfold json.is_ws. unfold isspace in Hsp.
    destruct (Z.eqb_spec c 32); [subst; discriminate|].
    destruct (Z.eqb_spec c 9); [subst; discriminate|].
    destruct (Z.eqb_spec c 10); [subst; discriminate|].
    destruct (Z.eqb_spec c 13); [subst; discriminate|].
    reflexivity. }
  assert (H48 : (c =? 48) = false).
  { destruct (Z.eqb_spec c 48); [subst; discriminate|reflexivity]. }
  unfold json.loads.
  destruct (startswith [65279] (c :: rest)); [reflexivity|].
  assert (Hscan : forall fuel depth,
            json.scan_once (S fuel) depth (c :: rest) = json.Invalid).
  { intros fuel depth. cbn [json.scan_once]. rewrite Hst.
    repeat match goal with
           | H : (c =? _) = false |- _ => rewrite H; clear H
           end.
    assert (Hlit : forall p q, (p =? c) = false ->
              startswith (p :: q) (c :: rest) = false)
      by (intros p q Hp; simpl; rewrite Hp; reflexivity).
    change (lit "null") with (110 :: lit "ull").
    change (lit "true") with (116 :: lit "rue").
    change (lit "false") with (102 :: lit "alse").
    change (lit "NaN") with (78 :: lit "aN").
    change (lit "Infinity") with (73 :: lit "nfinity").
    change (lit "-Infinity") with (45 :: lit "Infinity").
    rewrite !Hlit by (assumption || (rewrite Z.eqb_sym; assumption)).
    unfold json.match_number, json.number_sign.
    match goal with H : (c =? 45) = false |- _ => rewrite H end.
    unfold json.number_int. rewrite H48.
    match goal with H : json.is_digit c = false |- _ => rewrite H end.
    reflexivity. }
  simpl json.skip_ws. rewrite Hws.
  replace (2 * List.length (c :: rest) + 2)%nat
    with (S (2 * List.length (c :: rest) + 1))%nat by lia.
  rewrite Hscan. reflexivity.
Qed.

(** X12.  A line of text that, once stripped, neither starts with the
    prefix [data:] nor with a character that can start a JSON value (a
    quote, a brace, a bracket, a digit, a minus sign or the first letter of
    [null], [true], [false], [NaN] or [Infinity]) is skipped: no event, no
    error.  This covers the comment and field lines of server-sent events
    ([: keep-alive], [event: ...], [id: ...], [retry: ...]). *)
Theorem lines_that_cannot_be_json_are_skipped {rt : Runtime} (t rest : text) (c : Z) :
  strip t = c :: rest ->
  startswith (lit "data:") (strip t) = false ->
  json_start c = false ->
  _ChatCompletions.stream_line (LineStr t) = Continue.
Proof.
  intros Hs Hno Hst.
  rewrite (stream_line_unfold (LineStr t) _ eq_refl).
  unfold payload_of_text. rewrite Hno, Hs. simpl negb. cbn iota.
  rewrite (loads_needs_json_start c rest (strip_head t rest c Hs) Hst).
  destruct (text_eqb (c :: rest) SENTINEL) eqn:E; [|reflexivity].
  apply text_eqb_eq in E. injection E as -> _. discriminate Hst.
Qed.

#[local] Existing Instance Sample.runtime.
Lemma lines_that_cannot_be_json_are_skipped_witness :
  _ChatCompletions.stream_line (LineStr (lit "event: message ")) = Continue.
Proof.
  apply (lines_that_cannot_be_json_are_skipped
           (lit "event: message ") (lit "vent: message") 101).
  - vm_compute. reflexivity.
  - vm_compute. reflexivity.
  - vm_compute. reflexivity.
Defined.
#[local] Remove Hints Sample.runtime : typeclass_instances.

(* ================================================================= *)
(** ** Lines of bytes *)

Lemma utf8_decode_ascii (bs : list Z) :
  Forall (fun b => b < 128) bs -> utf8_decode bs = Some bs.
Proof.
  induction 1 as [|b bs Hb _ IH]; [reflexivity|].
  cbn [utf8_decode]. apply Z.ltb_lt in Hb. rewrite Hb, IH. reflexivity.
Qed.

(** X13.  A line given as bytes that are all ASCII is handled exactly as
    the line of text with the same characters. *)
Theorem ascii_bytes_decode_like_text {rt : Runtime} (bs : list byte) :
  Forall (fun b => byte_val b < 128) bs ->
  _ChatCompletions.stream_line (LineBytes bs)
  = _ChatCompletions.stream_line (LineStr (map byte_val bs)).
Proof.
  intros H.
  assert (Ht : line_text (LineBytes bs) = Some (map byte_val bs)).
  { simpl. apply utf8_decode_ascii. apply Forall_map. exact H. }
  rewrite (stream_line_unfold _ _ Ht).
  rewrite (stream_line_unfold (LineStr (map byte_val bs)) _ eq_refl).
  reflexivity.
Qed.

#[local] Existing Instance Sample.runtime.
Lemma ascii_bytes_decode_like_text_witness :
  _ChatCompletions.stream_line (LineBytes (Sample.ascii_bytes (lit "data: [DONE]")))
  = _ChatCompletions.stream_line
      (LineStr (map byte_val (Sample.ascii_bytes (lit "data: [DONE]")))).
Proof.
  apply (ascii_bytes_decode_like_text (Sample.ascii_bytes (lit "data: [DONE]"))).
  repeat (apply Forall_cons; [vm_compute; reflexivity|]). apply Forall_nil.
Defined.
#[local] Remove Hints Sample.runtime : typeclass_instances.

(* ================================================================= *)
(** ** Validation of chunks and completions *)

Lemma dict_get_set_other (k k' : text) (v : pyval) (d : dict) :
  k' <> k -> dict_get k' (dict_set k v d) = dict_get k' d.
Proof.
  intros Hne. induction d as [|[k0 v0] d IH]; simpl.
  - destruct (text_eqb k' k) eqn:E; [|reflexivity].
    apply text_eqb_eq in E. contradiction.
  - destruct (text_eqb k k0) eqn:E; simpl.
    + apply text_eqb_eq in E. subst k0.
      destruct (text_eqb k' k) eqn:E'; [|reflexivity].
      apply text_eqb_eq in E'. contradiction.
    + destruct (text_eqb k' k0); [reflexivity | exact IH].
Qed.

Lemma dict_get_set_same (k : text) (v : pyval) (d : dict) :
  dict_get k (dict_set k v d) = Some v.
Proof.
  induction d as [|[k0 v0] d IH]; simpl.
  - rewrite text_eqb_refl. reflexivity.
  - destruct (text_eqb k k0) eqn:E; simpl; rewrite E; [reflexivity | exact IH].
Qed.

(** X14.  A chunk tolerates what it does not know: setting a key that is
    not one of the five fields of [ChatCompletionChunk] in the decoded
    object, to any value, changes neither whether the object validates nor
    the chunk that results. *)
Theorem chunk_ignores_unknown_keys {rt : Runtime} (d : dict) (k : text) (v : pyval) :
  ~ In k chunk_fields ->
  ChatCompletionChunk.model_validate (PDict (dict_set k v d))
  = ChatCompletionChunk.model_validate (PDict d).
Proof.
  intros Hk.
  assert (Hget : forall name, In (lit name) chunk_fields ->
            dict_get (lit name) (dict_set k v d) = dict_get (lit name) d).
  { intros name Hin. apply dict_get_set_other. intros E. apply Hk.
    rewrite <- E. exact Hin. }
  unfold ChatCompletionChunk.model_validate, validate_model, optional, required.
  rewrite !Hget by (simpl; tauto). reflexivity.
Qed.

#[local] Existing Instance Sample.runtime.
Lemma chunk_ignores_unknown_keys_witness :
  ChatCompletionChunk.model_validate
    (PDict (dict_set (lit "usage") PNone [(lit "choices", PList [])]))
  = ChatCompletionChunk.model_validate (PDict [(lit "choices", PList [])]).
Proof.
  apply (chunk_ignores_unknown_keys [(lit "choices", PList [])] (lit "usage") PNone).
  vm_compute. intuition discriminate.
Defined.
#[local] Remove Hints Sample.runtime : typeclass_instances.

Lemma bind_ok {A B} (r : result A) (k : A -> result B) (b : B) :
  bind r k = Ok b -> exists a, r = Ok a /\ k a = Ok b.
Proof. destruct r as [a|e]; simpl; [eauto | discriminate]. Qed.

Lemma completion_object {rt : Runtime} (v : pyval) (c : ChatCompletion.t) :
  ChatCompletion.model_validate v = Ok c ->
  ChatCompletion.object c = lit "chat.completion".
Proof.
  unfold ChatCompletion.model_validate, validate_model.
  destruct v; try discriminate. intros H.
  repeat (apply bind_ok in H; destruct H as [? [? H]]).
  injection H as <-. simpl.
  match goal with
  | Ho : required ChatCompletion.validate_object _ _ = Ok ?o |- ?o = _ =>
      unfold required in Ho; destruct (dict_get _ _) as [vo|]; [|discriminate];
      unfold ChatCompletion.validate_object in Ho; destruct vo; try discriminate;
      destruct (text_eqb s (lit "chat.completion")) eqn:E; [|discriminate];
      injection Ho as <-; apply text_eqb_eq; exact E
  end.
Qed.

(** X15.  [create] returns a completion only when the server answered the
    request it sent with a 2xx status and a body that is a JSON object
    declaring itself a [chat.completion]: the [object] field of every
    completion it returns is that literal. *)
Theorem create_returns_only_chat_completions {rt : Runtime}
    (w : World) (http : SyncHTTP.t) (kwargs : ChatCompletionRequest.t)
    (c : ChatCompletion.t) :
  outcome (_ChatCompletions.create w http kwargs) = Ok c ->
  ChatCompletion.object c = lit "chat.completion"
  /\ exists payload r d,
       sent (_ChatCompletions.create w http kwargs) = [chat_request payload]
       /\ server w (chat_request payload) = Ok r
       /\ is_2xx (status_code r)
       /\ Response_json r = Ok (PDict d)
       /\ dict_get (lit "object") d = Some (PStr (lit "chat.completion")).
Proof.
  unfold _ChatCompletions.create, SyncHTTP.post_json, outcome, sent. simpl.
  intros H. apply bind_ok in H. destruct H as [data [Hdata Hv]].
  split; [exact (completion_object data c Hv)|].
  apply bind_ok in Hdata. destruct Hdata as [r [Hr Hbody]].
  exists (ChatCompletionRequest.model_dump_exclude_none kwargs), r.
  destruct (not_2xx (status_code r)) eqn:E2; [discriminate|].
  apply not_2xx_false in E2. unfold Response_json in Hbody.
  pose proof (completion_object data c Hv) as Hobj.
  unfold ChatCompletion.model_validate, validate_model in Hv.
  destruct data as [| | | | | |d]; try discriminate.
  exists d.
  split; [reflexivity|]. split; [exact Hr|]. split; [exact E2|].
  split; [exact Hbody|].
  repeat (apply bind_ok in Hv; destruct Hv as [? [? Hv]]).
  match goal with
  | Ho : required ChatCompletion.validate_object _ _ = Ok _ |- _ =>
      unfold required in Ho; destruct (dict_get (lit "object") d) as [vo|];
      [|discriminate];
      unfold ChatCompletion.validate_object in Ho; destruct vo; try discriminate;
      destruct (text_eqb s (lit "chat.completion")) eqn:E; [|discriminate];
      apply text_eqb_eq in E; subst s; reflexivity
  end.
Qed.

#[local] Existing Instance Sample.runtime.
Lemma create_returns_only_chat_completions_witness :
  exists c,
    outcome (_ChatCompletions.create (Sample.world Sample.completion)
               Sample.http Sample.request) = Ok c
    /\ ChatCompletion.object c = lit "chat.completion".
Proof.
  eexists. split; [vm_compute; reflexivity|].
  eapply (create_returns_only_chat_completions
            (Sample.world Sample.completion) Sample.http Sample.request).
  vm_compute. reflexivity.
Defined.
#[local] Remove Hints Sample.runtime : typeclass_instances.

(* ================================================================= *)
(** ** The list of models *)

Lemma model_info_id {rt : Runtime} (item : pyval) (mi : ModelInfo.t) :
  ModelInfo.model_validate item = Ok mi -> json_id item = Some (ModelInfo.id mi).
Proof.
  unfold ModelInfo.model_validate, validate_model, json_id.
  destruct item as [| | | | | |d]; try discriminate. intros H.
  apply bind_ok in H. destruct H as [id [Hid H]].
  repeat (apply bind_ok in H; destruct H as [? [? H]]).
  injection H as <-. simpl.
  unfold required in Hid. destruct (dict_get (lit "id") d) as [v|]; [|discriminate].
  destruct v; try discriminate. simpl in Hid. congruence.
Qed.

Lemma models_ids {rt : Runtime} (items : list pyval) (ms : list ModelInfo.t) :
  mapM ModelInfo.model_validate items = Ok ms ->
  map json_id items = map (fun mi => Some (ModelInfo.id mi)) ms.
Proof.
  revert ms. induction items as [|item items IH]; simpl; intros ms H.
  - injection H as <-. reflexivity.
  - apply bind_ok in H. destruct H as [mi [Hmi H]].
    apply bind_ok in H. destruct H as [ms' [Hms H]].
    injection H as <-. simpl.
    rewrite (model_info_id item mi Hmi), (IH ms' Hms). reflexivity.
Qed.

(** X16.  [models.list] sends one GET to [/v1/models].  When it returns a
    list, the server answered 2xx with a JSON object whose [object] is
    "list" and whose [data] is an array; the models of the result are the
    entries of that array, as many and in the same order, each with the
    [id] string of its entry unchanged. *)
Theorem models_list_keeps_order_and_ids {rt : Runtime}
    (w : World) (http : SyncHTTP.t) (m : ModelsList.t) :
  outcome (_Models.list w http) = Ok m ->
  sent (_Models.list w http)
    = [{| method := lit "GET"; path := MODELS_PATH; body := None |}]
  /\ ModelsList.object m = lit "list"
  /\ exists r d items,
       server w {| method := lit "GET"; path := MODELS_PATH; body := None |} = Ok r
       /\ is_2xx (status_code r)
       /\ Response_json r = Ok (PDict d)
       /\ dict_get (lit "data") d = Some (PList items)
       /\ List.length (ModelsList.data m) = List.length items
       /\ map json_id items
          = map (fun mi => Some (ModelInfo.id mi)) (ModelsList.data m).
Proof.
  unfold _Models.list, SyncHTTP.get, outcome, sent. simpl.
  intros H. split; [reflexivity|].
  apply bind_ok in H. destruct H as [data [Hdata Hv]].
  apply bind_ok in Hdata. destruct Hdata as [r [Hr Hbody]].
  destruct (not_2xx (status_code r)) eqn:E2; [discriminate|].
  apply not_2xx_false in E2. unfold Response_json in Hbody.
  unfold ModelsList.model_validate, validate_model in Hv.
  destruct data as [| | | | | |d]; try discriminate.
  apply bind_ok in Hv. destruct Hv as [o [Ho Hv]].
  apply bind_ok in Hv. destruct Hv as [ms [Hms Hv]].
  injection Hv as <-. simpl.
  split.
  - unfold required in Ho. destruct (dict_get (lit "object") d) as [vo|];
      [|discriminate].
    unfold ModelsList.validate_object in Ho. destruct vo; try discriminate.
    destruct (text_eqb s (lit "list")) eqn:E; [|discriminate].
    injection Ho as <-. apply text_eqb_eq. exact E.
  - unfold required in Hms.
    destruct (dict_get (lit "data") d) as [vd|] eqn:Ed; [|discriminate].
    unfold validate_list in Hms. destruct vd as [| | | | |items|]; try discriminate.
    exists r, d, items.
    split; [exact Hr|]. split; [exact E2|]. split; [exact Hbody|].
    split; [exact Ed|]. split.
    + pose proof (models_ids items ms Hms) as Hids.
      apply (f_equal (@List.length _)) in Hids.
      rewrite !length_map in Hids. symmetry. exact Hids.
    + apply models_ids. exact Hms.
Qed.

#[local] Existing Instance Sample.runtime.
Lemma models_list_keeps_order_and_ids_witness :
  exists m,
    outcome (_Models.list (Sample.world Fixture.models) Sample.http) = Ok m
    /\ ModelsList.object m = lit "list"
    /\ map ModelInfo.id (ModelsList.data m)
       = [lit "swiss-ai/apertus-8b-instruct"; lit "other/model"].
Proof.
  eexists. split; [vm_compute; reflexivity|].
  split.
  - eapply (models_list_keeps_order_and_ids
              (Sample.world Fixture.models) Sample.http).
    vm_compute. reflexivity.
  - vm_compute. reflexivity.
Defined.
#[local] Remove Hints Sample.runtime : typeclass_instances.

(** X17.  The [raw] field of a model is not a catch-all: it is the entry
    [raw] of the JSON object when that entry is a dictionary, and the empty
    dictionary when the object has no such entry, whatever other keys the
    object has.  An entry [raw] that is not a dictionary is rejected. *)
Theorem model_info_raw_is_the_raw_entry {rt : Runtime} (d : dict) (mi : ModelInfo.t) :
  ModelInfo.model_validate (PDict d) = Ok mi ->
  (dict_get (lit "raw") d = None /\ ModelInfo.raw mi = [])
  \/ dict_get (lit "raw") d = Some (PDict (ModelInfo.raw mi)).
Proof.
  unfold ModelInfo.model_validate, validate_model. intros H.
  do 4 (apply bind_ok in H; destruct H as [? [? H]]).
  apply bind_ok in H. destruct H as [raw [Hraw H]].
  injection H as <-. simpl.
  unfold ModelInfo.raw_field in Hraw.
  destruct (dict_get (lit "raw") d) as [v|].
  - right. destruct v; try discriminate. simpl in Hraw. congruence.
  - left. split; [reflexivity | congruence].
Qed.

#[local] Existing Instance Sample.runtime.
Lemma model_info_raw_is_the_raw_entry_witness :
  exists mi,
    ModelInfo.model_validate (PDict Fixture.model_entry) = Ok mi
    /\ ((dict_get (lit "raw") Fixture.model_entry = None /\ ModelInfo.raw mi = [])
        \/ dict_get (lit "raw") Fixture.model_entry
           = Some (PDict (ModelInfo.raw mi))).
Proof.
  eexists. split; [vm_compute; reflexivity|].
  apply (model_info_raw_is_the_raw_entry Fixture.model_entry).
  vm_compute. reflexivity.
Defined.
#[local] Remove Hints Sample.runtime : typeclass_instances.

(* ================================================================= *)
(** ** The concurrent surface *)

(** X18.  The concurrent surface behaves as the blocking one beyond
    streaming: [get], [post_json], the error mapper, [create] and
    [models.list] of [AsyncHTTP], [_AsyncChatCompletions] and
    [_AsyncModels] send the same requests and give the same outcomes as
    their blocking counterparts, in every world. *)
Theorem async_calls_equal_sync_calls {rt : Runtime}
    (w : World) (http : _BaseHTTP.t) (path : text) (json : dict)
    (kwargs : ChatCompletionRequest.t) (r : Response) :
  AsyncHTTP.get w http path = SyncHTTP.get w http path
  /\ AsyncHTTP.post_json w http path json = SyncHTTP.post_json w http path json
  /\ AsyncHTTP._raise_api_error r = SyncHTTP._raise_api_error r
  /\ _AsyncChatCompletions.create w http kwargs
     = _ChatCompletions.create w http kwargs
  /\ _AsyncModels.list w http = _Models.list w http.
Proof. repeat split. Qed.

(* ================================================================= *)
(** ** What a constructed client holds *)

Lemma lstrip_char_split (c : Z) (s : text) :
  exists n, s = repeat c n ++ lstrip_char c s.
Proof.
  induction s as [|x s [n IH]]; simpl.
  - exists 0%nat. reflexivity.
  - destruct (Z.eqb_spec x c).
    + subst x. exists (S n). simpl. f_equal. exact IH.
    + exists 0%nat. reflexivity.
Qed.

Lemma lstrip_char_head (c x : Z) (s r : text) :
  lstrip_char c s = x :: r -> x <> c.
Proof.
  induction s as [|y s IH]; simpl; [discriminate|].
  destruct (Z.eqb_spec y c); [exact IH|].
  intros H. injection H as <- _. assumption.
Qed.

Lemma rstrip_char_split (c : Z) (s : text) :
  exists n, s = rstrip_char c s ++ repeat c n.
Proof.
  destruct (lstrip_char_split c (rev s)) as [n H].
  exists n. unfold rstrip_char.
  rewrite <- (rev_repeat n c), <- rev_app_distr, <- H, rev_involutive.
  reflexivity.
Qed.

Lemma rstrip_char_end (c : Z) (s x : text) : rstrip_char c s <> x ++ [c].
Proof.
  unfold rstrip_char. intros H.
  apply (f_equal (@rev Z)) in H. rewrite rev_involutive, rev_app_distr in H.
  simpl in H. apply lstrip_char_head in H. congruence.
Qed.

(** X19.  A transport that was constructed holds a token that is not
    empty: the argument [api_key] when it is given and not empty -- the
    argument wins over the environment -- and otherwise the value of
    [APERTUS_API_KEY].  Its [Authorization] header is [Bearer] followed by
    that token.  Its base URL is the one given without its trailing
    slashes: it never ends with a slash, and nothing else is removed. *)
Theorem constructed_transport_holds_the_resolved_token
    (w : World) (api_key : option text) (base_url : text) (timeout : pyfloat)
    (h : _BaseHTTP.t) :
  outcome (_BaseHTTP.__init__ w api_key base_url timeout) = Ok h ->
  _BaseHTTP.api_key h <> []
  /\ (absent_or_empty api_key = false -> api_key = Some (_BaseHTTP.api_key h))
  /\ (absent_or_empty api_key = true ->
        getenv w (lit "APERTUS_API_KEY") = Some (_BaseHTTP.api_key h))
  /\ In (lit "Authorization", lit "Bearer " ++ _BaseHTTP.api_key h)
        (_BaseHTTP._headers h)
  /\ (exists n, base_url = _BaseHTTP.base_url h ++ repeat (ch "/") n)
  /\ (forall x, _BaseHTTP.base_url h <> x ++ [ch "/"])
  /\ _BaseHTTP.timeout h = timeout.
Proof.
  unfold _BaseHTTP.__init__, outcome, or_str.
  destruct api_key as [[|c k]|];
    destruct (getenv w (lit "APERTUS_API_KEY")) as [[|c2 k2]|]; simpl;
    intros H; try discriminate; injection H as <-; simpl;
    (split; [discriminate|]);
    (split; [intros E; try discriminate; reflexivity|]);
    (split; [intros E; try discriminate; reflexivity|]);
    (split; [left; reflexivity|]);
    (split; [apply rstrip_char_split|]);
    (split; [apply rstrip_char_end | reflexivity]).
Qed.

Lemma constructed_transport_holds_the_resolved_token_witness :
  exists h,
    outcome (_BaseHTTP.__init__ Fixture.world_with_key (Some [])
               (lit "https://example.org/api//") (FDec 30 0)) = Ok h
    /\ _BaseHTTP.api_key h = lit "env-key"
    /\ _BaseHTTP.base_url h = lit "https://example.org/api"
    /\ _BaseHTTP.api_key h <> [].
Proof.
  eexists. split; [vm_compute; reflexivity|].
  split; [vm_compute; reflexivity|]. split; [vm_compute; reflexivity|].
  eapply (constructed_transport_holds_the_resolved_token
            Fixture.world_with_key (Some []) (lit "https://example.org/api//")
            (FDec 30 0)).
  vm_compute. reflexivity.
Defined.

(** X20.  The facades build their transport with the arguments they get,
    and with the default base URL [https://api.publicai.co] when no base
    URL, or an empty one, is given. *)
Theorem facade_uses_default_base_url
    (w : World) (api_key : option text) (base_url : option text)
    (timeout : pyfloat) (c : Apertus.t) :
  outcome (Apertus.__init__ w api_key base_url timeout) = Ok c ->
  outcome (AsyncApertus.__init__ w api_key base_url timeout)
    = Ok {| AsyncApertus._http := Apertus._http c |}
  /\ (absent_or_empty base_url = true ->
        outcome (SyncHTTP.__init__ w api_key DEFAULT_BASE_URL timeout)
          = Ok (Apertus._http c)
        /\ _BaseHTTP.base_url (Apertus._http c) = DEFAULT_BASE_URL)
  /\ (forall u, base_url = Some u -> u <> [] ->
        outcome (SyncHTTP.__init__ w api_key u timeout) = Ok (Apertus._http c)).
Proof.
  unfold Apertus.__init__, AsyncApertus.__init__, SyncHTTP.__init__,
    AsyncHTTP.__init__, outcome.
  assert (Hdef : absent_or_empty base_url = true ->
            base_url_or_default base_url = DEFAULT_BASE_URL)
    by (destruct base_url as [[|x u]|]; try discriminate; reflexivity).
  assert (Hgiven : forall u, base_url = Some u -> u <> [] ->
            base_url_or_default base_url = u)
    by (intros u -> Hu; destruct u; [contradiction | reflexivity]).
  destruct (_BaseHTTP.__init__ w api_key (base_url_or_default base_url) timeout)
    as [s [h|e]] eqn:E; simpl; [|intros H; discriminate].
  assert (Hnew : forall x, new_client w h = Ok x -> new_client w h = Ok h).
  { unfold new_client. destruct (httpx_client w _ _ _); [discriminate|].
    reflexivity. }
  destruct (new_client w h) as [h'|e] eqn:Hc; simpl; intros H; [|discriminate].
  pose proof (Hnew h' eq_refl) as Hh. injection Hh as ->.
  injection H as <-. simpl.
  split; [reflexivity|]. split.
  - intros Hb. rewrite (Hdef Hb) in E. rewrite E. simpl. rewrite Hc.
    split; [reflexivity|].
    unfold _BaseHTTP.__init__ in E.
    destruct (negb _) in E; [discriminate|].
    injection E as _ <-. reflexivity.
  - intros u Hu Hne. rewrite (Hgiven u Hu Hne) in E. rewrite E. simpl.
    exact Hc.
Qed.

Lemma facade_uses_default_base_url_witness :
  exists c,
    outcome (Apertus.__init__ Fixture.world_with_key None None (FDec 30 0)) = Ok c
    /\ _BaseHTTP.base_url (Apertus._http c) = DEFAULT_BASE_URL.
Proof.
  eexists. split; [vm_compute; reflexivity|].
  eapply (facade_uses_default_base_url Fixture.world_with_key None None (FDec 30 0)).
  - vm_compute. reflexivity.
  - reflexivity.
Defined.

(* ================================================================= *)
(** ** The demo: choosing a model *)

Lemma mem_In (x : text) (ids : list text) :
  conversation_demo.mem x ids = true <-> In x ids.
Proof.
  unfold conversation_demo.mem. rewrite existsb_exists. split.
  - intros [y [Hin E]]. apply text_eqb_eq in E. subst. exact Hin.
  - intros Hin. exists x. split; [exact Hin | apply text_eqb_refl].
Qed.

Lemma nonempty_ids (m : ModelsList.t) (id : text) :
  In id (map ModelInfo.id
           (filter (fun mi => nonempty (ModelInfo.id mi)) (ModelsList.data m)))
  <-> In id (map ModelInfo.id (ModelsList.data m)) /\ id <> [].
Proof.
  rewrite !in_map_iff. split.
  - intros [mi [E Hin]]. apply filter_In in Hin. destruct Hin as [Hin Hne].
    subst id. split; [exists mi; auto|].
    destruct (ModelInfo.id mi); [discriminate | discriminate].
  - intros [[mi [E Hin]] Hne]. exists mi. split; [exact E|].
    apply filter_In. split; [exact Hin|]. subst id.
    destruct (ModelInfo.id mi); [contradiction | reflexivity].
Qed.

Lemma chosen_from_ids {rt : Runtime}
    (lower : text -> text) (w : World) (client : Apertus.t)
    (preferred : option text) (id : text) (m : ModelsList.t) :
  outcome (_Models.list w (Apertus._http client)) = Ok m ->
  outcome (conversation_demo.choose_model lower w client preferred) = inl id ->
  In id (map ModelInfo.id
           (filter (fun mi => nonempty (ModelInfo.id mi)) (ModelsList.data m))).
Proof.
  unfold conversation_demo.choose_model, outcome.
  destruct (_Models.list w (Apertus._http client)) as [s [m'|e]]; simpl;
    [|discriminate].
  intros Hm H. injection Hm as ->.
  destruct (map ModelInfo.id _) as [|first ids] eqn:E; [discriminate|].
  destruct (truthy_str preferred && _) eqn:Ep.
  - injection H as <-. apply andb_true_iff in Ep. destruct Ep as [_ Ep].
    apply mem_In. exact Ep.
  - destruct (find _ (first :: ids)) as [c|] eqn:Ef; injection H as <-.
    + apply find_some in Ef. tauto.
    + left. reflexivity.
Qed.

Lemma listed_preference_is_chosen {rt : Runtime}
    (lower : text -> text) (w : World) (client : Apertus.t)
    (p : text) (m : ModelsList.t) :
  outcome (_Models.list w (Apertus._http client)) = Ok m ->
  In p (map ModelInfo.id
          (filter (fun mi => nonempty (ModelInfo.id mi)) (ModelsList.data m))) ->
  outcome (conversation_demo.choose_model lower w client (Some p)) = inl p.
Proof.
  unfold conversation_demo.choose_model, outcome.
  destruct (_Models.list w (Apertus._http client)) as [s [m'|e]]; simpl;
    [|discriminate].
  intros H Hids. injection H as ->.
  assert (Hne : p <> []) by (apply nonempty_ids in Hids; tauto).
  destruct (map ModelInfo.id (filter _ _)) as [|first ids] eqn:E; [contradiction|].
  apply mem_In in Hids. rewrite Hids.
  destruct p; [contradiction | reflexivity].
Qed.

Lemma choose_model_needs_the_list {rt : Runtime}
    (lower : text -> text) (w : World) (client : Apertus.t)
    (preferred : option text) (id : text) :
  outcome (conversation_demo.choose_model lower w client preferred) = inl id ->
  exists m, outcome (_Models.list w (Apertus._http client)) = Ok m.
Proof.
  unfold conversation_demo.choose_model, outcome.
  destruct (_Models.list w (Apertus._http client)) as [s [m|e]]; simpl;
    [|discriminate].
  intros _. exists m. reflexivity.
Qed.

(** X21.  Whatever model is preferred, [choose_model] returns only a model
    that the server listed, with an [id] that is not empty: a preferred
    model that is not available is never returned. *)
Theorem choose_model_picks_a_listed_model {rt : Runtime}
    (lower : text -> text) (w : World) (client : Apertus.t)
    (preferred : option text) (id : text) :
  outcome (conversation_demo.choose_model lower w client preferred) = inl id ->
  exists m,
    outcome (_Models.list w (Apertus._http client)) = Ok m
    /\ In id (map ModelInfo.id (ModelsList.data m))
    /\ id <> [].
Proof.
  intros H.
  destruct (choose_model_needs_the_list lower w client preferred id H) as [m Hm].
  exists m. split; [exact Hm|].
  apply nonempty_ids. exact (chosen_from_ids lower w client preferred id m Hm H).
Qed.

#[local] Existing Instance Sample.runtime.
Lemma choose_model_picks_a_listed_model_witness :
  exists id m,
    outcome (conversation_demo.choose_model DemoFixture.ascii_lower
               (Sample.world Fixture.models) DemoFixture.client
               (Some conversation_demo.PREFERRED_MODEL)) = inl id
    /\ id = lit "swiss-ai/apertus-8b-instruct"
    /\ outcome (_Models.list (Sample.world Fixture.models)
                  (Apertus._http DemoFixture.client)) = Ok m
    /\ In id (map ModelInfo.id (ModelsList.data m))
    /\ id <> [].
Proof.
  destruct (choose_model_picks_a_listed_model DemoFixture.ascii_lower
              (Sample.world Fixture.models) DemoFixture.client
              (Some conversation_demo.PREFERRED_MODEL)
              (lit "swiss-ai/apertus-8b-instruct")) as [m Hm].
  - vm_compute. reflexivity.
  - exists (lit "swiss-ai/apertus-8b-instruct"), m.
    split; [vm_compute; reflexivity|]. split; [reflexivity|]. exact Hm.
Defined.
#[local] Remove Hints Sample.runtime : typeclass_instances.

(** X22.  A preferred model that is listed, with a name that is not empty,
    is the one that [choose_model] returns, wherever it stands in the list
    and whatever the other models are called. *)
Theorem choose_model_returns_an_available_preference {rt : Runtime}
    (lower : text -> text) (w : World) (client : Apertus.t)
    (p : text) (m : ModelsList.t) :
  outcome (_Models.list w (Apertus._http client)) = Ok m ->
  In p (map ModelInfo.id (ModelsList.data m)) ->
  p <> [] ->
  outcome (conversation_demo.choose_model lower w client (Some p)) = inl p.
Proof.
  intros Hm Hin Hne.
  apply (listed_preference_is_chosen lower w client p m Hm).
  apply nonempty_ids. split; assumption.
Qed.

#[local] Existing Instance Sample.runtime.
Lemma choose_model_returns_an_available_preference_witness :
  outcome (conversation_demo.choose_model DemoFixture.ascii_lower
             (Sample.world Fixture.models) DemoFixture.client
             (Some (lit "other/model"))) = inl (lit "other/model").
Proof.
  eapply (choose_model_returns_an_available_preference DemoFixture.ascii_lower
            (Sample.world Fixture.models) DemoFixture.client (lit "other/model")).
  - vm_compute. reflexivity.
  - vm_compute. tauto.
  - discriminate.
Defined.
#[local] Remove Hints Sample.runtime : typeclass_instances.

(** X23.  [choose_model] sends one request, the GET of [models.list], and
    fails in two ways only: with the exception of [models.list] when that
    call raises (an API error, a validation error, an error of the
    transport), and with its own [RuntimeError] exactly when the list came
    back and no model in it has an [id] that is not empty. *)
Theorem choose_model_failures {rt : Runtime}
    (lower : text -> text) (w : World) (client : Apertus.t)
    (preferred : option text) :
  sent (conversation_demo.choose_model lower w client preferred)
    = [{| method := lit "GET"; path := MODELS_PATH; body := None |}]
  /\ (forall f,
        outcome (conversation_demo.choose_model lower w client preferred) = inr f ->
        (exists e, f = conversation_demo.Client e) \/
        (exists msg, f = conversation_demo.RuntimeError msg))
  /\ (forall e,
        outcome (conversation_demo.choose_model lower w client preferred)
          = inr (conversation_demo.Client e)
        <-> outcome (_Models.list w (Apertus._http client)) = Raise e)
  /\ ((exists msg,
         outcome (conversation_demo.choose_model lower w client preferred)
           = inr (conversation_demo.RuntimeError msg))
      <-> exists m,
            outcome (_Models.list w (Apertus._http client)) = Ok m
            /\ Forall (fun mi => ModelInfo.id mi = []) (ModelsList.data m)).
Proof.
  unfold conversation_demo.choose_model, outcome, sent.
  split; [reflexivity|].
  destruct (_Models.list w (Apertus._http client)) as [s [m|e]] eqn:El; simpl.
  - assert (Hids : map ModelInfo.id
               (filter (fun mi => nonempty (ModelInfo.id mi)) (ModelsList.data m))
             = [] <-> Forall (fun mi => ModelInfo.id mi = []) (ModelsList.data m)).
    { induction (ModelsList.data m) as [|mi l IH]; simpl.
      - split; auto.
      - destruct (ModelInfo.id mi) eqn:Ei; simpl.
        + rewrite IH. split; [intros H; constructor; auto|].
          intros H. inversion H. assumption.
        + split; [discriminate|]. intros H. inversion H. congruence. }
    destruct (map ModelInfo.id _) as [|first ids] eqn:E.
    + split; [intros f H; injection H as <-; right; eexists; reflexivity|].
      split; [intros e; split; discriminate|].
      split; [intros _; exists m; split; [reflexivity | apply Hids; reflexivity]|].
      intros _. eexists. reflexivity.
    + assert (Hok : forall f,
                (if truthy_str preferred
                    && conversation_demo.mem
                         match preferred with Some p => p | None => [] end
                         (first :: ids)
                 then inl match preferred with Some p => p | None => [] end
                 else match find (fun candidate =>
                                    conversation_demo.contains (lit "apertus")
                                      (lower candidate)
                                    && conversation_demo.contains (lit "instruct")
                                         (lower candidate)) (first :: ids) with
                      | Some candidate => inl candidate
                      | None => inl first
                      end) <> (inr f : text + conversation_demo.failure)).
      { intros f. destruct (truthy_str preferred && _); [discriminate|].
        destruct (find _ _); discriminate. }
      split; [intros f H; exfalso; exact (Hok f H)|].
      split; [intros e; split; [intros H; exfalso; exact (Hok _ H) | discriminate]|].
      split; [intros [msg H]; exfalso; exact (Hok _ H)|].
      intros [m' [Hm Hall]]. injection Hm as <-.
      apply Hids in Hall. discriminate Hall.
  - split; [intros f H; injection H as <-; left; eexists; reflexivity|].
    split; [intros e'; split; intros H; congruence|].
    split; [intros [msg H]; discriminate H | intros [m [H _]]; discriminate H].
Qed.

(* ================================================================= *)
(** ** The demo: one pass of the loop *)

Lemma startswith_app (p s : text) :
  startswith p s = true -> exists r, s = p ++ r.
Proof.
  revert s. induction p as [|x p IH]; intros s H.
  - exists s. reflexivity.
  - destruct s as [|c s]; [discriminate|]. simpl in H.
    apply andb_true_iff in H. destruct H as [Hx H].
    apply Z.eqb_eq in Hx. subst c.
    destruct (IH s H) as [r ->]. exists r. reflexivity.
Qed.

Lemma rstrip_strip (t : text) : rstrip (strip t) = strip t.
Proof. unfold strip. apply rstrip_idem. Qed.

Lemma strip_nil_blank (t : text) : strip t = [] -> blank t.
Proof.
  unfold strip. intros H. apply rstrip_nil_blank in H.
  destruct (lstrip_split t) as [a [Ha Ht]]. rewrite Ht.
  apply blank_app; assumption.
Qed.

(** After [/model ] in a stripped line there is a name. *)
Lemma model_command_has_a_name (line : text) :
  startswith (lit "/model ") (strip line) = true ->
  nonempty (strip (conversation_demo.after_first (ch " ") (strip line))) = true.
Proof.
  intros H. destruct (startswith_app _ _ H) as [rest Hrest].
  pose proof (rstrip_strip line) as Hfix. rewrite Hrest in *.
  change (conversation_demo.after_first (ch " ") (lit "/model " ++ rest))
    with rest.
  destruct (strip rest) as [|c r] eqn:E; [|reflexivity].
  exfalso. apply strip_nil_blank in E.
  change (lit "/model " ++ rest) with (lit "/model" ++ 32 :: rest) in Hfix.
  rewrite rstrip_blank_app in Hfix by (constructor; [reflexivity | exact E]).
  vm_compute in Hfix. discriminate Hfix.
Qed.

Lemma report_is_an_error (f : conversation_demo.failure) :
  (exists s m, conversation_demo.report f = conversation_demo.ApiError s m)
  \/ conversation_demo.report f = conversation_demo.UnexpectedError f.
Proof.
  destruct f as [msg| | |e]; try (right; reflexivity).
  destruct e; try (right; reflexivity). left. eexists; eexists. reflexivity.
Qed.

Lemma report_is_not_the_hint (f : conversation_demo.failure) :
  conversation_demo.report f <> conversation_demo.UsageModel.
Proof.
  destruct (report_is_an_error f) as [[st [m ->]]| ->]; discriminate.
Qed.

Lemma not_in_pieces (x : conversation_demo.printed) (chunks : list text) :
  (forall s, x <> conversation_demo.Piece s) ->
  ~ In x (map conversation_demo.Piece chunks).
Proof.
  intros H Hin. apply in_map_iff in Hin. destruct Hin as [s [E _]].
  apply (H s). symmetry. exact E.
Qed.

(** X24.  The usage hint of the [/model] command is dead code: a stripped
    line that starts with [/model ] always has a name after it, so the
    demo never prints the hint and always asks the server for the list of
    models. *)
Theorem usage_hint_is_never_printed {rt : Runtime}
    (lower : text -> text) (a : conversation_demo.args) (w : World)
    (client : Apertus.t) (s : conversation_demo.session) (line : option text) :
  ~ In conversation_demo.UsageModel
       (conversation_demo.output
          (outcome (conversation_demo.loop_body lower a w client s line)))
  /\ (forall l, line = Some l ->
        startswith (lit "/model ") (strip l) = true ->
        sent (conversation_demo.loop_body lower a w client s line)
        = [{| method := lit "GET"; path := MODELS_PATH; body := None |}]).
Proof.
  unfold conversation_demo.loop_body, outcome, sent.
  destruct line as [l|]; [|split; [simpl; intuition discriminate | discriminate]].
  destruct (negb (nonempty (strip l))) eqn:E0.
  { split; [simpl; tauto|].
    intros l' Hl H. injection Hl as <-.
    destruct (strip l); [discriminate H | discriminate E0]. }
  destruct (text_eqb (strip l) (lit "/exit")) eqn:E1.
  { split; [simpl; tauto|]. intros l' Hl H. injection Hl as <-.
    apply text_eqb_eq in E1. rewrite E1 in H. discriminate H. }
  destruct (text_eqb (strip l) (lit "/help")) eqn:E2.
  { split; [simpl; intuition discriminate|]. intros l' Hl H. injection Hl as <-.
    apply text_eqb_eq in E2. rewrite E2 in H. discriminate H. }
  destruct (text_eqb (strip l) (lit "/clear")) eqn:E3.
  { split; [simpl; intuition discriminate|]. intros l' Hl H. injection Hl as <-.
    apply text_eqb_eq in E3. rewrite E3 in H. discriminate H. }
  destruct (startswith (lit "/model ") (strip l)) eqn:E4.
  { rewrite (model_command_has_a_name l E4). cbn [negb].
    destruct (conversation_demo.choose_model lower w client _) as [rq [id|f]] eqn:Ec.
    - split; [simpl; intuition discriminate|]. intros _ _ _.
      change rq with (fst (rq, (inl id : text + conversation_demo.failure))).
      rewrite <- Ec. reflexivity.
    - split; [simpl; intuition discriminate|]. intros _ _ _.
      change rq with (fst (rq, (inr f : text + conversation_demo.failure))).
      rewrite <- Ec. reflexivity. }
  split; [|intros l' Hl H; injection Hl as <-; congruence].
  destruct (conversation_demo.no_stream a).
  - destruct (_ChatCompletions.create w _ _) as [rq [resp|e]].
    + destruct (conversation_demo.first_content resp) as [t|f];
        cbn -[conversation_demo.report]; intros [H|[H|[]]];
        try discriminate H; exact (report_is_not_the_hint _ H).
    + cbn -[conversation_demo.report]; intros [H|[H|[]]];
        try discriminate H; exact (report_is_not_the_hint _ H).
  - destruct (_ChatCompletions.stream w _ _) as [rq r].
    destruct (raised r) as [e|]; cbn -[conversation_demo.report];
      intros [H|H]; try discriminate H;
      apply in_app_or in H; destruct H as [H|[H|[]]];
      try (revert H; apply not_in_pieces; discriminate);
      try discriminate H; exact (report_is_not_the_hint _ H).
Qed.

Ltac enter_chat_branch H :=
  unfold is_chat_line in H;
  repeat (let H' := fresh "Hc" in
          apply andb_true_iff in H; destruct H as [H H'];
          apply negb_true_iff in H');
  unfold conversation_demo.loop_body;
  rewrite H; cbn [negb];
  repeat match goal with
         | Hc : text_eqb _ _ = false |- _ => rewrite Hc; clear Hc
         | Hc : startswith _ _ = false |- _ => rewrite Hc; clear Hc
         end.

Lemma chat_payload (kwargs : ChatCompletionRequest.t) :
  dict_get (lit "model") (ChatCompletionRequest.model_dump_exclude_none kwargs)
    = Some (PStr (ChatCompletionRequest.model kwargs))
  /\ dict_get (lit "messages") (ChatCompletionRequest.model_dump_exclude_none kwargs)
    = Some (PList (map message_given (ChatCompletionRequest.messages kwargs))).
Proof.
  pose proof (model_dump_holds_fields kwargs) as H.
  unfold holds_fields, caller_fields in H.
  split.
  - apply Forall_inv in H. exact H.
  - apply Forall_inv_tail in H. apply Forall_inv in H. exact H.
Qed.

(** X25.  A line that is neither empty nor a command is sent to the model
    with the whole history: the one request of the pass is a POST to the
    chat endpoint whose payload names the model of the session and lists
    the messages so far followed by the new user message, in order.  The
    user message is recorded in the history whatever happens, and at most
    one assistant message after it; when the call fails -- [create] raises
    or the stream raises -- nothing but the user message is recorded.  The
    model of the session does not change. *)
Theorem chat_line_is_sent_with_the_history {rt : Runtime}
    (lower : text -> text) (a : conversation_demo.args) (w : World)
    (client : Apertus.t) (s : conversation_demo.session) (l : text) :
  is_chat_line (strip l) = true ->
  let p := conversation_demo.loop_body lower a w client s (Some l) in
  let said := conversation_demo.message ChatMessage.user (strip l) in
  let history := conversation_demo.messages s in
  let kwargs :=
    conversation_demo.chat_kwargs a
      {| conversation_demo.model_id := conversation_demo.model_id s;
         conversation_demo.messages := history ++ [said] |} in
  conversation_demo.model_id (conversation_demo.after (outcome p))
    = conversation_demo.model_id s
  /\ (exists payload,
        sent p = [chat_request payload]
        /\ dict_get (lit "model") payload
           = Some (PStr (conversation_demo.model_id s))
        /\ dict_get (lit "messages") payload
           = Some (PList (map message_given (history ++ [said]))))
  /\ (conversation_demo.messages (conversation_demo.after (outcome p))
        = history ++ [said]
      \/ exists reply,
           conversation_demo.messages (conversation_demo.after (outcome p))
           = history ++ [said; conversation_demo.message ChatMessage.assistant reply])
  /\ (forall e,
        (conversation_demo.no_stream a = true /\
         outcome (_ChatCompletions.create w (Apertus._http client) kwargs) = Raise e)
        \/ (conversation_demo.no_stream a = false /\
            raised (outcome (_ChatCompletions.stream w (Apertus._http client) kwargs))
            = Some e) ->
        conversation_demo.messages (conversation_demo.after (outcome p))
        = history ++ [said]).
Proof.
  intros H p said history kwargs. subst p.
  enter_chat_branch H. fold said. fold history. fold kwargs.
  unfold outcome, sent.
  destruct (chat_payload kwargs) as [Hmodel Hmsgs].
  destruct (chat_payload (ChatCompletionRequest.with_stream kwargs (Some true)))
    as [Hmodel' Hmsgs'].
  destruct (conversation_demo.no_stream a).
  - assert (Hsent : fst (_ChatCompletions.create w (Apertus._http client) kwargs)
                    = [chat_request
                         (ChatCompletionRequest.model_dump_exclude_none kwargs)])
      by reflexivity.
    destruct (_ChatCompletions.create w (Apertus._http client) kwargs)
      as [rq [resp|e]]; simpl in Hsent; subst rq.
    + destruct (conversation_demo.first_content resp) as [t|f]; cbn;
        (split; [reflexivity|]);
        (split; [eexists; split; [reflexivity | split; [exact Hmodel | exact Hmsgs]]|]).
      * split; [right; exists t; rewrite <- app_assoc; reflexivity|].
        intros e [[_ He]|[He _]]; discriminate He.
      * split; [left; reflexivity | intros; reflexivity].
    + cbn -[conversation_demo.report].
      split; [reflexivity|].
      split; [eexists; split; [reflexivity | split; [exact Hmodel | exact Hmsgs]]|].
      split; [left; reflexivity | intros; reflexivity].
  - assert (Hsent : fst (_ChatCompletions.stream w (Apertus._http client) kwargs)
                    = [chat_request
                         (ChatCompletionRequest.model_dump_exclude_none
                            (ChatCompletionRequest.with_stream kwargs (Some true)))])
      by reflexivity.
    destruct (_ChatCompletions.stream w (Apertus._http client) kwargs)
      as [rq r]; simpl in Hsent; subst rq.
    destruct (raised r) as [e|] eqn:Er; cbn -[conversation_demo.report];
      (split; [reflexivity|]);
      (split; [eexists; split; [reflexivity | split; [exact Hmodel' | exact Hmsgs']]|]).
    + split; [left; reflexivity | intros; reflexivity].
    + split; [right; eexists; rewrite <- app_assoc; reflexivity|].
      intros e [[He _]|[_ He]]; [discriminate He | rewrite Er in He; discriminate He].
Qed.

#[local] Existing Instance Sample.runtime.
Lemma chat_line_is_sent_with_the_history_witness :
  let p := conversation_demo.loop_body DemoFixture.ascii_lower DemoFixture.args
             (Sample.world DemoFixture.reply) DemoFixture.client
             DemoFixture.session (Some (lit "  Hello!  ")) in
  conversation_demo.model_id (conversation_demo.after (outcome p))
    = conversation_demo.model_id DemoFixture.session
  /\ conversation_demo.messages (conversation_demo.after (outcome p))
     = [ conversation_demo.message ChatMessage.system (lit "Be brief.");
         conversation_demo.message ChatMessage.user (lit "Hello!");
         conversation_demo.message ChatMessage.assistant (lit "hello") ].
Proof.
  split.
  - apply (chat_line_is_sent_with_the_history DemoFixture.ascii_lower
             DemoFixture.args (Sample.world DemoFixture.reply) DemoFixture.client
             DemoFixture.session (lit "  Hello!  ")).
    vm_compute. reflexivity.
  - vm_compute. reflexivity.
Defined.
#[local] Remove Hints Sample.runtime : typeclass_instances.




#[local] Existing Instance Sample.runtime.
#[local] Remove Hints Sample.runtime : typeclass_instances.

(* ================================================================= *)
(** ** The demo: the session as a whole *)

Lemma filter_filter {A} (f : A -> bool) (l : list A) :
  filter f (filter f l) = filter f l.
Proof.
  induction l as [|x l IH]; simpl; [reflexivity|].
  destruct (f x) eqn:E; simpl; rewrite ?E, IH; reflexivity.
Qed.

(** What one pass of the loop keeps, whatever the line. *)
Lemma pass_invariant {rt : Runtime}
    (lower : text -> text) (a : conversation_demo.args) (w : World)
    (client : Apertus.t) (s : conversation_demo.session) (line : option text) :
  let p := conversation_demo.loop_body lower a w client s line in
  filter conversation_demo.is_system
         (conversation_demo.messages (conversation_demo.after (snd p)))
    = filter conversation_demo.is_system (conversation_demo.messages s)
  /\ (List.length (fst p) <= 1)%nat
  /\ (line = None -> fst p = []).
Proof.
  intros p. subst p. unfold conversation_demo.loop_body.
  destruct line as [l|]; [|simpl; auto].
  destruct (negb (nonempty (strip l))); [simpl; split; [|split]; auto; discriminate|].
  destruct (text_eqb (strip l) (lit "/exit"));
    [simpl; split; [|split]; auto; discriminate|].
  destruct (text_eqb (strip l) (lit "/help"));
    [simpl; split; [|split]; auto; discriminate|].
  destruct (text_eqb (strip l) (lit "/clear")).
  { simpl. split; [apply filter_filter|]. split; [auto | discriminate]. }
  destruct (startswith (lit "/model ") (strip l)).
  - destruct (negb _); [simpl; split; [|split]; auto; discriminate|].
    assert (Hsent : List.length
                      (fst (conversation_demo.choose_model lower w client
                              (Some (strip (conversation_demo.after_first
                                              (ch " ") (strip l)))))) = 1%nat)
      by reflexivity.
    destruct (conversation_demo.choose_model lower w client _) as [rq [id|f]];
      simpl in *; rewrite Hsent; split; [|split| |split];
      auto; discriminate.
  - destruct (conversation_demo.no_stream a).
    + match goal with
      | |- context [_ChatCompletions.create ?w ?h ?k] =>
          assert (Hsent : List.length (fst (_ChatCompletions.create w h k)) = 1%nat)
            by reflexivity;
          destruct (_ChatCompletions.create w h k) as [rq [resp|e]]
      end.
      * destruct (conversation_demo.first_content resp) as [t|f];
          simpl in *; rewrite Hsent, ?filter_app; simpl; rewrite ?app_nil_r;
          split; [|split| |split]; auto; discriminate.
      * simpl in *. rewrite Hsent, ?filter_app. simpl. rewrite ?app_nil_r.
        split; [|split]; auto; discriminate.
    + match goal with
      | |- context [_ChatCompletions.stream ?w ?h ?k] =>
          assert (Hsent : List.length (fst (_ChatCompletions.stream w h k)) = 1%nat)
            by reflexivity;
          destruct (_ChatCompletions.stream w h k) as [rq r]
      end.
      destruct (raised r); simpl in *; rewrite Hsent, ?filter_app; simpl;
        rewrite ?app_nil_r; split; [|split| |split]; auto; discriminate.
Qed.

(** X29.  Over a whole session -- any lines typed, then the end of input --
    the system messages of the history stay what they were at the start, in
    number and order: no command and no reply removes, adds or rewrites
    one.  The session sends at most one request per line typed. *)
Theorem session_keeps_the_system_prompt {rt : Runtime}
    (lower : text -> text) (a : conversation_demo.args) (w : World)
    (client : Apertus.t) (s : conversation_demo.session) (lines : list text) :
  let r := conversation_demo.loop lower a w client s lines in
  filter conversation_demo.is_system
         (conversation_demo.messages (fst (outcome r)))
    = filter conversation_demo.is_system (conversation_demo.messages s)
  /\ (List.length (sent r) <= List.length lines)%nat.
Proof.
  unfold outcome, sent. revert s.
  induction lines as [|l lines IH]; intros s; cbn [conversation_demo.loop].
  - destruct (pass_invariant lower a w client s None) as (Hsys & _ & Hnone).
    specialize (Hnone eq_refl).
    destruct (conversation_demo.loop_body lower a w client s None) as [rq p].
    simpl in *. subst rq. split; [exact Hsys | simpl; lia].
  - destruct (pass_invariant lower a w client s (Some l)) as (Hsys & Hlen & _).
    destruct (conversation_demo.loop_body lower a w client s (Some l)) as [rq p].
    simpl in Hsys, Hlen.
    destruct (conversation_demo.next p).
    + simpl. split; [exact Hsys | lia].
    + specialize (IH (conversation_demo.after p)).
      destruct (conversation_demo.loop lower a w client
                  (conversation_demo.after p) lines) as [rq' r'].
      simpl in *. destruct IH as [IHsys IHlen].
      split; [congruence | rewrite length_app; lia].
Qed.

(* ================================================================= *)
(** ** The demo: [main] *)


(** A session of two lines: the model is chosen among those listed, the
    message is sent and its streamed reply printed, and [/exit] ends the
    session. *)
#[local] Existing Instance Sample.runtime.
#[local] Remove Hints Sample.runtime : typeclass_instances.
